(** * Convertible-bond data pipeline: a shallow embedding and its properties

    The development follows the Python sources of the collector:

    - [data_quality_validator.py]    (module [Quality])
    - [data_source_manager.py]       (module [Sources])
    - [enhanced_history_pipeline.py] (modules [Fetcher], [Pipeline], [Persister])
    - [master_data_collector.py]     (module [Archiver])
    - [stock_app/database.py]        (module [Dashboard])

    Module [Frame] holds the part of pandas the code relies on.

    Conventions of the embedding.  A pandas cell is a [cell]: [Null] stands for
    NaN / None / NaT, [Num q] for a finite float and [Str s] for a Python
    string.  Finite floats are read as exact rationals: rounding and the
    infinities of IEEE arithmetic are outside the model.  A [DataFrame] is its
    column index together with its rows, each row being the dictionary
    [to_dict('records')] would give.  Code that can raise returns an [option]
    or a result type whose failure constructor stands for the exception. *)

From Stdlib Require Import ZArith QArith List String Ascii Bool Lia.
From Stdlib Require Import Permutation Sorted Lqa.
Import ListNotations.
Local Open Scope string_scope.
Local Open Scope list_scope.
Local Open Scope Z_scope.

(* ================================================================== *)
(** * The pandas data model shared by the modules *)
(* ================================================================== *)

Module Frame.

(** A cell of a DataFrame, and of a SQL row. *)
Inductive cell :=
| Null
| Num (q : Q)
| Str (s : string).

(** [pd.isna] / SQL [IS NULL]. *)
Definition isna (c : cell) : bool :=
  match c with Null => true | _ => false end.

Definition notna (c : cell) : bool := negb (isna c).

(** A record of a frame: column name to cell, in column order. *)
Definition row := list (string * cell).

Fixpoint lookup (c : string) (r : row) : option cell :=
  match r with
  | [] => None
  | (k, v) :: r' => if String.eqb k c then Some v else lookup c r'
  end.

(** [r[c]], with a missing value read as null (SQL and [merge] fill absent
    columns with nulls). *)
Definition get (c : string) (r : row) : cell :=
  match lookup c r with Some v => v | None => Null end.

(** [r[c] = v]: overwrite in place when the column is there, append it
    otherwise (the behaviour of [df[c] = ...] on the column index). *)
Fixpoint row_set (c : string) (v : cell) (r : row) : row :=
  match r with
  | [] => [(c, v)]
  | (k, w) :: r' => if String.eqb k c then (k, v) :: r' else (k, w) :: row_set c v r'
  end.

Fixpoint row_drop (c : string) (r : row) : row :=
  match r with
  | [] => []
  | (k, w) :: r' => if String.eqb k c then row_drop c r' else (k, w) :: row_drop c r'
  end.

Definition mem (c : string) (cs : list string) : bool :=
  existsb (String.eqb c) cs.

Record DataFrame := mkDF {
  columns : list string;
  rows : list row
}.

(** [pd.DataFrame()]. *)
Definition empty_frame : DataFrame := mkDF [] [].

(** [df.empty]: some axis has length zero. *)
Definition empty (df : DataFrame) : bool :=
  match columns df, rows df with
  | [], _ => true
  | _, [] => true
  | _, _ => false
  end.

(** Every record carries exactly the columns of the index. *)
Definition wf_row (cs : list string) (r : row) : bool :=
  if list_eq_dec string_dec (map fst r) cs then true else false.

Definition wf (df : DataFrame) : bool :=
  forallb (wf_row (columns df)) (rows df).

(** [df[c]] as a list of cells. *)
Definition column (c : string) (df : DataFrame) : list cell :=
  map (get c) (rows df).

Fixpoint set_rows (c : string) (vs : list cell) (rs : list row) : list row :=
  match rs, vs with
  | r :: rs', v :: vs' => row_set c v r :: set_rows c vs' rs'
  | _, _ => []
  end.

(** [df[c] = vs] for a list of the frame's length. *)
Definition set_column (c : string) (vs : list cell) (df : DataFrame) : DataFrame :=
  mkDF (if mem c (columns df) then columns df else columns df ++ [c])
       (set_rows c vs (rows df)).

(** [df.drop(columns=[c])]. *)
Definition drop_column (c : string) (df : DataFrame) : DataFrame :=
  mkDF (filter (fun k => negb (String.eqb k c)) (columns df))
       (map (row_drop c) (rows df)).

(** [df[c] = v] for a scalar [v]. *)
Definition set_scalar (c : string) (v : cell) (df : DataFrame) : DataFrame :=
  mkDF (if mem c (columns df) then columns df else columns df ++ [c])
       (map (row_set c v) (rows df)).

(** [df[c] = f(df[c])] for an element-wise [f]. *)
Definition map_column (c : string) (f : cell -> cell) (df : DataFrame) : DataFrame :=
  mkDF (columns df) (map (fun r => row_set c (f (get c r)) r) (rows df)).

(** [df.rename(columns=mapping)]. *)
Fixpoint rename_label (mapping : list (string * string)) (c : string) : string :=
  match mapping with
  | [] => c
  | (k, v) :: mapping' => if String.eqb k c then v else rename_label mapping' c
  end.

Definition rename_row (mapping : list (string * string)) (r : row) : row :=
  map (fun kv => (rename_label mapping (fst kv), snd kv)) r.

Definition rename (mapping : list (string * string)) (df : DataFrame) : DataFrame :=
  mkDF (map (rename_label mapping) (columns df)) (map (rename_row mapping) (rows df)).

(** A computation that may raise. *)
Inductive outcome (A : Type) :=
| Ok (a : A)
| Exn.
Arguments Ok {A} a.
Arguments Exn {A}.

Definition bind {A B : Type} (x : outcome A) (f : A -> outcome B) : outcome B :=
  match x with Ok a => f a | Exn => Exn end.

(** Equality of join keys; pandas matches a null key with a null key. *)
Definition cell_eqb (a b : cell) : bool :=
  match a, b with
  | Null, Null => true
  | Num p, Num q => Qeq_bool p q
  | Str s, Str t => String.eqb s t
  | _, _ => false
  end.

(** A float64 series: [None] is NaN. *)
Definition series := list (option Q).

Definition of_num (x : option Q) : cell :=
  match x with Some q => Num q | None => Null end.

(** The numeric reading of a column that holds no string; arithmetic on a
    column with a string raises [TypeError]. *)
Fixpoint as_series (cs : list cell) : outcome series :=
  match cs with
  | [] => Ok []
  | Str _ :: _ => Exn
  | Null :: cs' => bind (as_series cs') (fun xs => Ok (None :: xs))
  | Num q :: cs' => bind (as_series cs') (fun xs => Ok (Some q :: xs))
  end.

Definition count_label (c : string) (cs : list string) : nat :=
  List.length (filter (String.eqb c) cs).

(** A label carried by two columns: [df[c]] is then a frame, not a series. *)
Definition duplicated (c : string) (cs : list string) : bool :=
  Nat.ltb 1 (count_label c cs).

End Frame.

(* ================================================================== *)
(** * data_quality_validator.py *)
(* ================================================================== *)

Module Quality.

(** The branch of [validate_data_freshness] that turns [days_since_update]
    (a Python int) into the score.  Every value that the branch produces
    ([100.0], [90.0], [80.0], [80.0 - (d - 7)], [0.0]) is an integer-valued
    float, so the score is carried by a [Z]. *)
Definition freshness_score (days_since_update : Z) : Z :=
  if days_since_update <=? 1 then 100
  else if days_since_update <=? 3 then 90
  else if days_since_update <=? 7 then 80
  else Z.max 0 (80 - (days_since_update - 7)).

(** The [results] dictionary of [validate_data_freshness]. *)
Record freshness_results := mkFreshness {
  latest_date : option string;
  days_since_update : Z;
  freshness_score_of : Z
}.

Section Validate.
(** [(datetime.now() - datetime.strptime(latest_date, '%Y-%m-%d')).days];
    [None] when [strptime] raises on the stored text. *)
Variable days_since : string -> option Z.

(** [validate_data_freshness], given the result of the [MAX(trade_date)]
    query ([None] is SQL NULL).  The empty string is falsy in Python, so
    [if latest_date:] skips it.  An exception of [strptime] is caught by the
    handler, which returns [results] as filled so far. *)
Definition validate_data_freshness (latest : option string) : freshness_results :=
  match latest with
  | None => mkFreshness None 0 0
  | Some s =>
      if String.eqb s "" then mkFreshness (Some s) 0 0
      else match days_since s with
           | None => mkFreshness (Some s) 0 0
           | Some d => mkFreshness (Some s) d (freshness_score d)
           end
  end.
End Validate.

(** The weights of [_calculate_quality_score].  The scores are Python
    floats; they are carried here by exact rationals, so that rounding is
    left out of the model. *)
Definition weights : list (string * Q) :=
  [ ("price", 3 # 10); ("volume", 1 # 5); ("stock_price", 1 # 5);
    ("conv_value", 3 # 20); ("premium_rate", 3 # 20) ].

Fixpoint weight_of (field : string) (ws : list (string * Q)) : option Q :=
  match ws with
  | [] => None
  | (k, w) :: ws' => if String.eqb k field then Some w else weight_of field ws'
  end.

(** The sum the loop over [missing_data] builds: per field its null count. *)
Definition total_weighted_missing_rate (total_records : Z)
    (missing_data : list (string * Z)) : Q :=
  fold_left
    (fun acc fd =>
       match weight_of (fst fd) weights with
       | Some w => (acc + (inject_Z (snd fd) / inject_Z total_records) * w)%Q
       | None => acc
       end)
    missing_data 0%Q.

(** [max(0.0, x)]. *)
Definition max0 (x : Q) : Q := if Qle_bool x 0 then 0%Q else x.

Definition _calculate_quality_score (total_records : Z)
    (missing_data : list (string * Z)) : Q :=
  if total_records =? 0 then 0%Q
  else max0 ((1 - total_weighted_missing_rate total_records missing_data) * (100 # 1))%Q.

(** The [overall_score] of [generate_quality_report]. *)
Definition overall_score (data_quality_score freshness : Q) : Q :=
  (data_quality_score * (1 # 2) + freshness * (1 # 2))%Q.

(** The [data_quality_score] of [validate_data_completeness]: [counted] is
    the result of the [COUNT] queries, [None] when they raise, in which case
    the handler returns [results] with the score it was created with;
    [missing_data] is what [_check_missing_data] returns. *)
Definition validate_data_completeness (counted : option Z)
    (missing_data : list (string * Z)) : Q :=
  match counted with
  | Some total_records => _calculate_quality_score total_records missing_data
  | None => 0%Q
  end.

(** The [overall_score] that [generate_quality_report] stores in the report. *)
Definition generate_quality_report (days_since : string -> option Z)
    (counted : option Z) (missing_data : list (string * Z)) (latest : option string) : Q :=
  overall_score
    (validate_data_completeness counted missing_data)
    (inject_Z (freshness_score_of (validate_data_freshness days_since latest))).

End Quality.

(* ================================================================== *)
(** * data_source_manager.py *)
(* ================================================================== *)

Module Sources.
Import Frame.

Inductive DataSourceStatus := ACTIVE | INACTIVE | ERROR | MAINTENANCE.

Definition status_eqb (a b : DataSourceStatus) : bool :=
  match a, b with
  | ACTIVE, ACTIVE | INACTIVE, INACTIVE | ERROR, ERROR
  | MAINTENANCE, MAINTENANCE => true
  | _, _ => false
  end.

(** The dataclass [DataSourceConfig]; [last_success] is a time stamp. *)
Record DataSourceConfig := mkConfig {
  name : string;
  priority : Z;
  status : DataSourceStatus;
  request_delay : Q;
  max_retries : Z;
  timeout : Z;
  last_success : option Z;
  last_error : option string;
  error_count : Z
}.

(** [self.sources]: a dict, kept in insertion order. *)
Definition sources := list (string * DataSourceConfig).

Definition _initialize_sources : sources :=
  [ ("jsl",       mkConfig "集思录"   1 ACTIVE (3 # 10) 3 10 None None 0);
    ("eastmoney", mkConfig "东方财富" 2 ACTIVE (1 # 2)  3 15 None None 0);
    ("sina",      mkConfig "新浪财经" 3 ACTIVE (1 # 5)  3 10 None None 0);
    ("tencent",   mkConfig "腾讯财经" 4 ACTIVE (2 # 5)  3 10 None None 0) ].

Fixpoint find_source (source_id : string) (srcs : sources) : option DataSourceConfig :=
  match srcs with
  | [] => None
  | (k, c) :: srcs' => if String.eqb k source_id then Some c else find_source source_id srcs'
  end.

(** Stable insertion by priority: Python's [sorted] is stable. *)
Fixpoint insert_by_priority (x : string * DataSourceConfig)
    (l : list (string * DataSourceConfig)) : list (string * DataSourceConfig) :=
  match l with
  | [] => [x]
  | y :: l' =>
      if priority (snd x) <=? priority (snd y) then x :: l
      else y :: insert_by_priority x l'
  end.

Definition sort_by_priority (l : list (string * DataSourceConfig)) :=
  fold_right insert_by_priority [] l.

Definition get_source_by_priority (srcs : sources) : list (string * DataSourceConfig) :=
  sort_by_priority
    (filter (fun sc => status_eqb (status (snd sc)) ACTIVE) srcs).

(** The body of [update_source_status] on the config object. *)
Definition update_config (now : Z) (st : DataSourceStatus) (error_msg : option string)
    (c : DataSourceConfig) : DataSourceConfig :=
  match st with
  | ACTIVE =>
      mkConfig (name c) (priority c) st (request_delay c) (max_retries c) (timeout c)
               (Some now) None 0
  | _ =>
      mkConfig (name c) (priority c) st (request_delay c) (max_retries c) (timeout c)
               (last_success c) error_msg (error_count c + 1)
  end.

(** [update_source_status]: nothing happens for an unknown [source_id]. *)
Fixpoint update_source_status (now : Z) (source_id : string) (st : DataSourceStatus)
    (error_msg : option string) (srcs : sources) : sources :=
  match srcs with
  | [] => []
  | (k, c) :: srcs' =>
      if String.eqb k source_id then (k, update_config now st error_msg c) :: srcs'
      else (k, c) :: update_source_status now source_id st error_msg srcs'
  end.

(** What one provider call does: a table, or an exception with [str(e)]. *)
Inductive fetch_outcome :=
| Fetched (df : DataFrame)
| Raised (msg : string).

(** Observable effects of the fallback loop. *)
Inductive event :=
| Query (source_id : string)
| Sleep (seconds : Q).

Section Fallback.
(** [_get_bond_list_from_jsl] and [_get_bond_list_from_eastmoney], keyed by
    the source they serve; and the clock read by [datetime.now()]. *)
Variable fetch : string -> fetch_outcome.
Variable now : Z.

(** The [time.sleep(config.request_delay)] that ends an iteration. *)
Definition sleep_of (source_id : string) (srcs : sources) : list event :=
  match find_source source_id srcs with
  | Some c => [Sleep (request_delay c)]
  | None => []
  end.

(** The loop of [get_bond_list_with_fallback] over the listing taken at
    loop entry.  The [config] of an iteration is the object stored in
    [self.sources], so [config.error_count] is read after the update. *)
Fixpoint fallback_loop (todo : list string) (srcs : sources) (tr : list event)
    : DataFrame * sources * list event :=
  match todo with
  | [] => (empty_frame, srcs, tr)
  | source_id :: todo' =>
      if String.eqb source_id "jsl" || String.eqb source_id "eastmoney" then
        match fetch source_id with
        | Fetched result =>
            if negb (empty result) then
              (result, update_source_status now source_id ACTIVE None srcs,
               tr ++ [Query source_id])
            else
              let srcs1 := update_source_status now source_id ERROR (Some "返回空数据") srcs in
              fallback_loop todo' srcs1
                (tr ++ [Query source_id] ++ sleep_of source_id srcs1)
        | Raised error_msg =>
            let srcs1 := update_source_status now source_id ERROR (Some error_msg) srcs in
            let srcs2 :=
              match find_source source_id srcs1 with
              | Some config =>
                  if max_retries config <=? error_count config
                  then update_source_status now source_id INACTIVE (Some "错误次数过多") srcs1
                  else srcs1
              | None => srcs1
              end in
            fallback_loop todo' srcs2
              (tr ++ [Query source_id] ++ sleep_of source_id srcs2)
        end
      else fallback_loop todo' srcs tr
  end.

Definition get_bond_list_with_fallback (srcs : sources)
    : DataFrame * sources * list event :=
  fallback_loop (map fst (get_source_by_priority srcs)) srcs [].
End Fallback.

End Sources.

(* ================================================================== *)
(** * enhanced_history_pipeline.py: the retrying call wrapper *)
(* ================================================================== *)

Module Fetcher.
Import Frame.

(** ASCII lower-casing.  [str.lower] also maps letters outside ASCII, which
    never yields a match of the ASCII patterns searched below that was not
    there already. *)
Definition lower_ascii (a : ascii) : ascii :=
  let n := nat_of_ascii a in
  if (Nat.leb 65 n && Nat.leb n 90)%bool then ascii_of_nat (n + 32) else a.

Fixpoint lower (s : string) : string :=
  match s with
  | EmptyString => EmptyString
  | String a s' => String (lower_ascii a) (lower s')
  end.

(** [pat in s]. *)
Definition contains (pat s : string) : bool :=
  match String.index 0 pat s with Some _ => true | None => false end.

(** How the handler reads [str(e)]; the tests are made in this order. *)
Inductive error_class := Transient | Terminal | Unclassified.

Definition classify (e : string) : error_class :=
  let error_str := lower e in
  if contains "remote end closed connection" error_str
     || contains "connection aborted" error_str then Transient
  else if contains "该股票代码不存在" e
          || contains "not found" error_str
          || contains "'date'" e then Terminal
  else Unclassified.

(** Keyword arguments. *)
Definition kwargs := list (string * cell).

Inductive call_outcome :=
| Returns (result : DataFrame)
| Throws (e : string).

Inductive event :=
| Call (call_kwargs : kwargs)
| Sleep (seconds : Q).

Definition has_key (k : string) (kw : kwargs) : bool :=
  existsb (fun p => String.eqb (fst p) k) kw.

Section RobustCall.
(** The upstream operation: what its [n]-th invocation (from 0) does with
    the given keyword arguments; and whether its signature has a
    [timeout] parameter. *)
Variable func : kwargs -> nat -> call_outcome.
Variable func_has_timeout : bool.

Definition call_kwargs_of (kw : kwargs) : kwargs :=
  if func_has_timeout && negb (has_key "timeout" kw)
  then kw ++ [("timeout", Num (30 # 1))]
  else kw.

(** The [for attempt in range(max_retries)] loop, with [fuel] iterations
    left; it yields the value returned and the calls and sleeps made. *)
Fixpoint retry_loop (max_retries : Z) (kw : kwargs) (fuel : nat) (attempt : nat)
    (delay : Q) (tr : list event) : DataFrame * list event :=
  match fuel with
  | O => (empty_frame, tr)
  | S fuel' =>
      let tr1 := tr ++ [Call (call_kwargs_of kw)] in
      match func (call_kwargs_of kw) attempt with
      | Returns result => (result, tr1 ++ [Sleep (1 # 2)])
      | Throws e =>
          match classify e with
          | Terminal => (empty_frame, tr1)
          | _ =>
              if Z.of_nat attempt <? max_retries - 1
              then retry_loop max_retries kw fuel' (S attempt) (delay * (2 # 1))
                              (tr1 ++ [Sleep delay])
              else (empty_frame, tr1)
          end
      end
  end.

Definition robust_akshare_call (max_retries : Z) (initial_delay : Q) (kw : kwargs)
    : DataFrame * list event :=
  retry_loop max_retries kw (Z.to_nat max_retries) 0 initial_delay [].
End RobustCall.

(** The number of invocations of the upstream operation in a trace. *)
Definition calls (tr : list event) : nat :=
  List.length (filter (fun ev => match ev with Call _ => true | Sleep _ => false end) tr).

End Fetcher.

(* ================================================================== *)
(** * enhanced_history_pipeline.py: cleaning, merging, derived metrics *)
(* ================================================================== *)

Module Pipeline.
Import Frame.

Definition Qltb (a b : Q) : bool := negb (Qle_bool b a).

(** [s[s.notna()]]. *)
Fixpoint dropna (s : series) : list Q :=
  match s with
  | [] => []
  | Some q :: s' => q :: dropna s'
  | None :: s' => dropna s'
  end.

Definition Qsum (l : list Q) : Q := fold_right Qplus 0%Q l.

(** [.mean()] of a list of values. *)
Definition mean (l : list Q) : Q := (Qsum l / inject_Z (Z.of_nat (List.length l)))%Q.

(** [s.notna().any()]. *)
Definition any_notna (s : series) : bool :=
  existsb (fun x => match x with Some _ => true | None => false end) s.

(** [x * 100] on a float cell. *)
Definition times100 (c : cell) : cell :=
  match c with Num q => Num (q * (100 # 1)) | _ => c end.

Definition column_mapping : list (string * string) :=
  [ ("日期", "trade_date"); ("date", "trade_date");
    ("开盘", "open_price"); ("open", "open_price");
    ("最高", "high_price"); ("high", "high_price");
    ("最低", "low_price"); ("low", "low_price");
    ("收盘", "price"); ("close", "price");
    ("成交量", "volume"); ("volume", "volume");
    ("成交额", "turnover"); ("amount", "turnover");
    ("换手率", "turnover_rate") ].

Definition numeric_cols : list string :=
  [ "open_price"; "high_price"; "low_price"; "price"; "volume"; "turnover";
    "turnover_rate" ].

Section Cleaning.
(** The number a string parses to, for [pd.to_numeric]; and the text
    [pd.to_datetime(...).dt.strftime('%Y-%m-%d')] gives for a cell, [None]
    when the cell cannot be read as a date and the conversion raises. *)
Variable parse : string -> option Q.
Variable to_date : cell -> option cell.

(** [pd.to_numeric(..., errors='coerce')] on one cell. *)
Definition to_numeric (c : cell) : cell :=
  match c with
  | Str s => of_num (parse s)
  | _ => c
  end.

Definition num_of (c : cell) : option Q :=
  match c with Num q => Some q | _ => None end.

(** The float series [df[col]] is after [to_numeric]. *)
Definition numeric_series (col : string) (df : DataFrame) : series :=
  map (fun c => num_of (to_numeric c)) (column col df).

(** The test on the volume unit. *)
Definition needs_scaling (s : series) : bool :=
  any_notna s && Qltb (mean (dropna s)) (1000000 # 1).

(** One iteration of the loop over [numeric_cols]. *)
Definition clean_numeric (col : string) (df : DataFrame) : outcome DataFrame :=
  if mem col (columns df) then
    if duplicated col (columns df) then Exn
    else
      let df1 := map_column col to_numeric df in
      if String.eqb col "volume" && needs_scaling (numeric_series col df)
      then Ok (map_column col times100 df1)
      else Ok df1
  else Ok df.

Fixpoint clean_numeric_cols (cols : list string) (df : DataFrame) : outcome DataFrame :=
  match cols with
  | [] => Ok df
  | col :: cols' => bind (clean_numeric col df) (clean_numeric_cols cols')
  end.

Fixpoint format_rows (rs : list row) : outcome (list row) :=
  match rs with
  | [] => Ok []
  | r :: rs' =>
      match to_date (get "trade_date" r) with
      | None => Exn
      | Some d => bind (format_rows rs') (fun out => Ok (row_set "trade_date" d r :: out))
      end
  end.

Definition _clean_bond_history_data (df : DataFrame) : outcome DataFrame :=
  if empty df then Ok df
  else
    let df := rename column_mapping df in
    bind (clean_numeric_cols numeric_cols df) (fun df =>
      if mem "trade_date" (columns df) then
        if duplicated "trade_date" (columns df) then Exn
        else bind (format_rows (rows df)) (fun rs => Ok (mkDF (columns df) rs))
      else Ok empty_frame).
End Cleaning.

(** [pd.merge(left, right, on=on, how='left', suffixes=(lsuffix, rsuffix))]:
    a [KeyError] when [on] is missing on a side; a label carried by both
    sides, other than [on], takes the side's suffix; each left record, in
    order, is paired with the right records of the same key, in order, or
    with nulls when there is none. *)
Definition merge_left (left right : DataFrame) (on lsuffix rsuffix : string)
    : outcome DataFrame :=
  if mem on (columns left) && mem on (columns right) then
    let overlap c :=
      negb (String.eqb c on) && mem c (columns left) && mem c (columns right) in
    let lname c := if overlap c then (c ++ lsuffix)%string else c in
    let rname c := if overlap c then (c ++ rsuffix)%string else c in
    let rcols := filter (fun c => negb (String.eqb c on)) (columns right) in
    let lrow (l : row) : row := map (fun kv => (lname (fst kv), snd kv)) l in
    let rrow (r : row) : row := map (fun c => (rname c, get c r)) rcols in
    let nulls : row := map (fun c => (rname c, Null)) rcols in
    Ok (mkDF (map lname (columns left) ++ map rname rcols)
          (flat_map
             (fun l =>
                match filter (fun r => cell_eqb (get on l) (get on r)) (rows right) with
                | [] => [lrow l ++ nulls]
                | ms => map (fun r => lrow l ++ rrow r) ms
                end)
             (rows left)))
  else Exn.

(** [df[c] = df[c].fillna(df[src])]. *)
Definition fillna_from (c src : string) (df : DataFrame) : DataFrame :=
  mkDF (columns df)
       (map (fun r => row_set c (if isna (get c r) then get src r else get c r) r)
            (rows df)).

(** Order of [sort_values] keys: nulls last, text by code point, numbers by
    value.  A column that mixes text and numbers is refused by [sortable]
    before the order is used. *)
Definition date_leb (a b : cell) : bool :=
  match a, b with
  | _, Null => true
  | Null, _ => false
  | Str s, Str t => String.leb s t
  | Num p, Num q => Qle_bool p q
  | Num _, Str _ => true
  | Str _, Num _ => false
  end.

Definition sortable (keys : list cell) : bool :=
  forallb (fun c => match c with Num _ => false | _ => true end) keys
  || forallb (fun c => match c with Str _ => false | _ => true end) keys.

(** Insertion that keeps equal keys in their first order.  pandas' default
    sort leaves the order of equal keys open; the stable one is taken. *)
Fixpoint insert_row (by_ : string) (x : row) (l : list row) : list row :=
  match l with
  | [] => [x]
  | y :: l' =>
      if date_leb (get by_ x) (get by_ y) then x :: l
      else y :: insert_row by_ x l'
  end.

Definition sort_values (by_ : string) (rs : list row) : list row :=
  fold_right (insert_row by_) [] rs.

(** [s.ffill()]. *)
Fixpoint ffill_from (last : option Q) (s : series) : series :=
  match s with
  | [] => []
  | Some q :: s' => Some q :: ffill_from (Some q) s'
  | None :: s' => last :: ffill_from last s'
  end.

Section Metrics.
(** Whether [pct_change] pads nulls forward before it divides (its
    default up to pandas 2, not after); and the float
    [(cur / 0.0 - 1) * 100], which is not a finite number. *)
Variable pad : bool.
Variable pct_div0 : Q -> cell.

Definition pct (prev cur : option Q) : cell :=
  match prev, cur with
  | Some a, Some b =>
      if Qeq_bool a 0 then pct_div0 b
      else Num (Qred ((b / a - 1) * (100 # 1)))
  | _, _ => Null
  end.

Fixpoint pct_pairs (prev : option Q) (s : series) : list cell :=
  match s with
  | [] => []
  | x :: s' => pct prev x :: pct_pairs x s'
  end.

(** [s.pct_change() * 100]. *)
Definition pct_change100 (s : series) : list cell :=
  pct_pairs None (if pad then ffill_from None s else s).

(** [a + b] on float cells. *)
Definition add (a b : option Q) : cell :=
  match a, b with
  | Some x, Some y => Num (x + y)
  | _, _ => Null
  end.

Fixpoint add_series (a b : series) : list cell :=
  match a, b with
  | x :: a', y :: b' => add x y :: add_series a' b'
  | _, _ => []
  end.

Definition _calculate_derived_metrics (df : DataFrame) : outcome DataFrame :=
  if empty df then Ok df
  else if negb (mem "trade_date" (columns df)) then Exn
  else if negb (sortable (column "trade_date" df)) then Exn
  else
    let df := mkDF (columns df) (sort_values "trade_date" (rows df)) in
    bind (if mem "price" (columns df)
          then bind (as_series (column "price" df)) (fun s =>
                 Ok (set_column "price_chg_pct" (pct_change100 s) df))
          else Ok df)
      (fun df =>
         if mem "price" (columns df) && mem "premium_rate" (columns df)
         then bind (as_series (column "price" df)) (fun p =>
              bind (as_series (column "premium_rate" df)) (fun q =>
                Ok (set_column "double_low" (add_series p q) df)))
         else Ok df).

(** [bond_info] is a dict of scalars. *)
Definition broadcast (bond_info : list (string * cell)) (df : DataFrame) : DataFrame :=
  fold_left (fun d kv => set_scalar (fst kv) (snd kv) d) bond_info df.

(** The branch of [_merge_bond_data] taken when both tables have rows. *)
Definition merge_price (hist_df value_df : DataFrame) : outcome DataFrame :=
  bind (merge_left hist_df value_df "trade_date" "" "_val") (fun merged_df =>
    if mem "price" (columns merged_df) && mem "price_val" (columns merged_df)
    then Ok (drop_column "price_val" (fillna_from "price" "price_val" merged_df))
    else Ok merged_df).

Definition _merge_bond_data (hist_df value_df stock_df : DataFrame)
    (bond_info : list (string * cell)) : outcome DataFrame :=
  if empty hist_df && empty value_df then Ok empty_frame
  else
    bind (if negb (empty hist_df) then
            if negb (empty value_df) then merge_price hist_df value_df
            else Ok hist_df
          else Ok (rename [("price_val", "price")] value_df))
      (fun merged_df =>
         let merged_df := broadcast bond_info merged_df in
         bind (if negb (empty stock_df)
               then merge_left merged_df stock_df "trade_date" "_x" "_y"
               else Ok merged_df)
              _calculate_derived_metrics).
End Metrics.

(** [df[cols]]: the named columns, in the order asked for. *)
Definition select_columns (cols : list string) (df : DataFrame) : DataFrame :=
  mkDF cols (map (fun r => map (fun c => (c, get c r)) cols) (rows df)).

Definition value_column_mapping : list (string * string) :=
  [ ("日期", "trade_date"); ("收盘价", "price_val"); ("纯债价值", "pure_bond_value");
    ("转股价值", "conv_value"); ("纯债溢价率", "pure_bond_premium_rate");
    ("转股溢价率", "premium_rate") ].

Definition value_numeric_cols : list string :=
  [ "price_val"; "pure_bond_value"; "conv_value"; "pure_bond_premium_rate";
    "premium_rate" ].

Definition stock_column_mapping : list (string * string) :=
  [ ("日期", "trade_date"); ("date", "trade_date"); ("收盘", "stock_price");
    ("close", "stock_price"); ("涨跌幅", "stock_chg_pct") ].

Definition stock_numeric_cols : list string := [ "stock_price"; "stock_chg_pct" ].

Definition required_cols : list string :=
  [ "trade_date"; "stock_price"; "stock_chg_pct" ].

Section OtherCleaners.
Variable parse : string -> option Q.
Variable to_date : cell -> option cell.

(** [if col in df.columns: df[col] = pd.to_numeric(df[col], errors='coerce')];
    a label carried twice makes [df[col]] a frame, which [to_numeric]
    refuses. *)
Definition coerce_numeric (col : string) (df : DataFrame) : outcome DataFrame :=
  if mem col (columns df) then
    if duplicated col (columns df) then Exn
    else Ok (map_column col (to_numeric parse) df)
  else Ok df.

Fixpoint coerce_numeric_cols (cols : list string) (df : DataFrame) : outcome DataFrame :=
  match cols with
  | [] => Ok df
  | col :: cols' => bind (coerce_numeric col df) (coerce_numeric_cols cols')
  end.

(** [if 'trade_date' in df.columns: df['trade_date'] = pd.to_datetime(...)...]. *)
Definition format_dates (df : DataFrame) : outcome DataFrame :=
  if mem "trade_date" (columns df) then
    if duplicated "trade_date" (columns df) then Exn
    else bind (format_rows to_date (rows df)) (fun rs => Ok (mkDF (columns df) rs))
  else Ok df.

Definition _clean_value_analysis_data (df : DataFrame) : outcome DataFrame :=
  if empty df then Ok df
  else
    let df := rename value_column_mapping df in
    bind (coerce_numeric_cols value_numeric_cols df) format_dates.

Definition _clean_stock_history_data (df : DataFrame) : outcome DataFrame :=
  if empty df then Ok empty_frame
  else
    let df := rename stock_column_mapping df in
    bind (coerce_numeric_cols stock_numeric_cols df) (fun df =>
    bind (format_dates df) (fun df =>
      if forallb (fun c => mem c (columns df)) required_cols
      then Ok (select_columns required_cols df)
      else Ok empty_frame)).
End OtherCleaners.

(** A value that is not a [str] has no market code. *)
Definition _get_market_code_for_hist (bond_code : cell) : option string :=
  match bond_code with
  | Str s =>
      if String.prefix "11" s then Some ("sh" ++ s)%string
      else if String.prefix "12" s then Some ("sz" ++ s)%string
      else None
  | _ => None
  end.

Definition _get_market_code_for_stock_hist (stock_code : cell) : option string :=
  match stock_code with
  | Str s =>
      if String.prefix "6" s then Some ("sh" ++ s)%string
      else if String.prefix "0" s || String.prefix "3" s then Some ("sz" ++ s)%string
      else None
  | _ => None
  end.

(** The providers behind the history calls. *)
Inductive provider := Eastmoney | Sina | Tencent.

Definition tagged (p : provider) (tr : list Fetcher.event)
    : list (provider * Fetcher.event) :=
  map (fun ev => (p, ev)) tr.

Section History.
Variable parse : string -> option Q.
Variable to_date : cell -> option cell.
(** [ak.stock_zh_a_hist], [ak.bond_zh_hs_cov_daily] and [ak.stock_zh_a_hist_tx]
    as the retrying wrapper sees them: the outcome of the [n]-th invocation
    within one wrapped call, and whether the signature takes a [timeout]. *)
Variable stock_zh_a_hist : Fetcher.kwargs -> nat -> Fetcher.call_outcome.
Variable bond_zh_hs_cov_daily : Fetcher.kwargs -> nat -> Fetcher.call_outcome.
Variable stock_zh_a_hist_tx : Fetcher.kwargs -> nat -> Fetcher.call_outcome.
Variable east_timeout sina_timeout tx_timeout : bool.

(** [get_bond_history]: the cleaned table, or the exception of the cleaner,
    and the provider calls made. *)
Definition get_bond_history (bond_code : cell)
    : outcome DataFrame * list (provider * Fetcher.event) :=
  let '(hist_df, tr1) :=
    Fetcher.robust_akshare_call stock_zh_a_hist east_timeout 3 (2 # 1)
      [("symbol", bond_code); ("period", Str "daily"); ("adjust", Str "")] in
  if negb (empty hist_df) then
    (_clean_bond_history_data parse to_date hist_df, tagged Eastmoney tr1)
  else
    match _get_market_code_for_hist bond_code with
    | Some market_code =>
        let '(hist_df, tr2) :=
          Fetcher.robust_akshare_call bond_zh_hs_cov_daily sina_timeout 3 (2 # 1)
            [("symbol", Str market_code)] in
        if negb (empty hist_df) then
          (_clean_bond_history_data parse to_date hist_df,
           tagged Eastmoney tr1 ++ tagged Sina tr2)
        else (Ok empty_frame, tagged Eastmoney tr1 ++ tagged Sina tr2)
    | None => (Ok empty_frame, tagged Eastmoney tr1)
    end.

(** [get_stock_history_data]. *)
Definition get_stock_history_data (stock_code : cell)
    : outcome DataFrame * list (provider * Fetcher.event) :=
  let '(stock_df, tr1) :=
    Fetcher.robust_akshare_call stock_zh_a_hist east_timeout 3 (2 # 1)
      [("symbol", stock_code); ("adjust", Str "hfq")] in
  if negb (empty stock_df) then
    (_clean_stock_history_data parse to_date stock_df, tagged Eastmoney tr1)
  else
    match _get_market_code_for_stock_hist stock_code with
    | Some market_code =>
        let '(stock_df, tr2) :=
          Fetcher.robust_akshare_call stock_zh_a_hist_tx tx_timeout 3 (2 # 1)
            [("symbol", Str market_code); ("adjust", Str "hfq")] in
        if negb (empty stock_df) then
          (_clean_stock_history_data parse to_date stock_df,
           tagged Eastmoney tr1 ++ tagged Tencent tr2)
        else (Ok empty_frame, tagged Eastmoney tr1 ++ tagged Tencent tr2)
    | None => (Ok empty_frame, tagged Eastmoney tr1)
    end.
End History.

End Pipeline.

(* ================================================================== *)
(** * enhanced_history_pipeline.py: saving to the store *)
(* ================================================================== *)

Module Persister.
Import Frame.

(** A table of the SQLite store: its schema and its rows.  The tables
    written here are keyed like [cb_daily_history]:
    [PRIMARY KEY (trade_date, bond_code)], both [NOT NULL]. *)
Record Table := mkTable {
  t_columns : list string;
  t_rows : list row
}.

Definition database := list (string * Table).

Fixpoint find_table (table_name : string) (db : database) : option Table :=
  match db with
  | [] => None
  | (k, t) :: db' => if String.eqb k table_name then Some t else find_table table_name db'
  end.

Fixpoint set_rows_of (table_name : string) (rs : list row) (db : database) : database :=
  match db with
  | [] => []
  | (k, t) :: db' =>
      if String.eqb k table_name then (k, mkTable (t_columns t) rs) :: db'
      else (k, t) :: set_rows_of table_name rs db'
  end.

Definition same_key (a b : row) : bool :=
  cell_eqb (get "trade_date" a) (get "trade_date" b)
  && cell_eqb (get "bond_code" a) (get "bond_code" b).

Definition null_key (r : row) : bool :=
  isna (get "trade_date" r) || isna (get "bond_code" r).

(** No two rows of the list share a key. *)
Fixpoint unique_keys (rs : list row) : bool :=
  match rs with
  | [] => true
  | r :: rs' => negb (existsb (same_key r) rs') && unique_keys rs'
  end.

(** [INSERT ... VALUES (...), (...) ON CONFLICT (trade_date, bond_code) DO
    NOTHING]: the records are taken in order, one whose key is in the table
    (or was put there by an earlier record) is dropped; the count is the
    statement's [rowcount]. *)
Fixpoint insert_all (recs : list row) (stored : list row) (count : Z) : list row * Z :=
  match recs with
  | [] => (stored, count)
  | r :: recs' =>
      if existsb (same_key r) stored then insert_all recs' stored count
      else insert_all recs' (stored ++ [r]) (count + 1)
  end.

Section Save.
(** [str(x)] of a cell of an object column, the round trip
    [encode('utf-8', 'ignore').decode('utf-8', 'ignore')] of a text, and
    the value the schema gives a column that the statement leaves out
    ([CURRENT_TIMESTAMP] for the two time stamps, null otherwise). *)
Variable astype_str : cell -> string.
Variable recode : string -> string.
Variable default : string -> cell.

(** An object column is recognised by a text cell in it. *)
Definition is_object (cs : list cell) : bool :=
  existsb (fun c => match c with Str _ => true | _ => false end) cs.

Definition sanitize (df : DataFrame) : DataFrame :=
  fold_left
    (fun d col =>
       if is_object (column col d)
       then map_column col (fun c => Str (recode (astype_str c))) d
       else d)
    (columns df) df.

(** The row the table gets for one record of [records_to_insert]. *)
Definition stored_row (t : Table) (columns_to_save : list string) (r : row) : row :=
  map (fun c => (c, if mem c columns_to_save then get c r else default c))
      (t_columns t).

(** [save_to_database]: the count returned and the store afterwards.  A
    missing table and a null key make the statement fail; the handler
    then returns 0 and the transaction leaves the store as it was. *)
Definition save_to_database (df : DataFrame) (table_name : string) (db : database)
    : Z * database :=
  if empty df then (0, db)
  else
    let df := sanitize df in
    match find_table table_name db with
    | None => (0, db)
    | Some t =>
        let columns_to_save := filter (fun col => mem col (t_columns t)) (columns df) in
        let records_to_insert := map (stored_row t columns_to_save) (rows df) in
        match records_to_insert with
        | [] => (0, db)
        | _ =>
            if existsb null_key records_to_insert then (0, db)
            else
              let '(stored, rowcount) := insert_all records_to_insert (t_rows t) 0 in
              (rowcount, set_rows_of table_name stored db)
        end
    end.
End Save.

End Persister.

(* ================================================================== *)
(** * master_data_collector.py *)
(* ================================================================== *)

Module Archiver.
Import Frame.

(** A date is its day number: the source compares the ['YYYY-MM-DD'] texts,
    which are ordered like the days they denote, and [start_date] is the day
    after the last stored one. *)
Definition date := Z.

(** [get_missing_dates], given [MAX(trade_date)] of the history table
    ([None] for an empty table), the cached calendar (empty when it could
    not be fetched) and today's date. *)
Definition get_missing_dates (latest_date_in_db : option date)
    (trade_calendar : list date) (today : date) : list date :=
  match latest_date_in_db with
  | None => []
  | Some latest =>
      let start_date := latest + 1 in
      match trade_calendar with
      | [] => []
      | _ => filter (fun d => (start_date <=? d) && (d <=? today)) trade_calendar
      end
  end.

(** [series.max()]; the maximum of nothing is NaN. *)
Fixpoint max_date (l : list date) : option date :=
  match l with
  | [] => None
  | d :: l' => match max_date l' with
               | None => Some d
               | Some m => Some (Z.max d m)
               end
  end.

(** [list.remove(x)]: the first occurrence goes. *)
Fixpoint remove_first (x : date) (l : list date) : list date :=
  match l with
  | [] => []
  | d :: l' => if Z.eqb d x then l' else d :: remove_first x l'
  end.

Definition latest_trade_date (trade_calendar : list date) (today : date) : option date :=
  max_date (filter (fun d => d <=? today) trade_calendar).

(** The dates [_archive_latest_to_history_and_backfill] backfills; [None]
    when it stops for want of a calendar.  NaN is truthy, so the test
    [if not latest_trade_date] never stops the run. *)
Definition backfill_dates (latest_date_in_db : option date)
    (trade_calendar : list date) (today : date) : option (list date) :=
  match trade_calendar with
  | [] => None
  | _ =>
      let missing_dates := get_missing_dates latest_date_in_db trade_calendar today in
      match latest_trade_date trade_calendar today with
      | Some ltd =>
          if existsb (Z.eqb ltd) missing_dates
          then Some (remove_first ltd missing_dates)
          else Some missing_dates
      | None => Some missing_dates
      end
  end.

Definition backfill_fields : list string :=
  [ "bond_rating"; "put_trigger_price"; "force_redeem_trigger_price";
    "conv_price"; "maturity_date"; "stock_pb" ].

(** SQL [a = b]: never true of a null. *)
Definition sql_eqb (a b : cell) : bool :=
  negb (isna a) && negb (isna b) && cell_eqb a b.

(** [UPDATE cb_daily_history SET field = :value WHERE bond_code = :bond_code
    AND field IS NULL]. *)
Definition update_null (field : string) (value bond_code : cell) (history : list row)
    : list row :=
  map (fun h =>
         if sql_eqb (get "bond_code" h) bond_code && isna (get field h)
         then row_set field value h else h)
      history.

(** The loop over the snapshot's rows for one field. *)
Definition backfill_field (field : string) (snapshot : list row) (history : list row)
    : list row :=
  fold_left
    (fun hist r =>
       let value_to_fill := get field r in
       if notna value_to_fill
       then update_null field value_to_fill (get "bond_code" r) hist
       else hist)
    snapshot history.

(** The static-field backfill that ends
    [_archive_latest_to_history_and_backfill]; selecting ['bond_code'] from a
    snapshot without that column raises. *)
Definition static_backfill (latest_df : DataFrame) (history : list row)
    : outcome (list row) :=
  if mem "bond_code" (columns latest_df) then
    Ok (fold_left
          (fun hist field =>
             if mem field (columns latest_df)
             then backfill_field field (rows latest_df) hist
             else hist)
          backfill_fields history)
  else Exn.

(** [to_sql(..., if_exists='append')] into a table keyed
    [(trade_date, bond_code)]: a null key or a key already there is an
    integrity error. *)
Fixpoint append_rows (new stored : list row) : outcome (list row) :=
  match new with
  | [] => Ok stored
  | r :: new' =>
      if Persister.null_key r || existsb (Persister.same_key r) stored then Exn
      else append_rows new' (stored ++ [r])
  end.

(** The archiving step of [_archive_latest_to_history_and_backfill]: stamp
    the snapshot with the latest trading day, delete the history rows of that
    day and append the stamped snapshot, restricted to the table's columns. *)
Definition archive_rows (default : string -> cell) (latest_df : DataFrame)
    (latest_trade_date : cell) (t : Persister.Table) : outcome (list row) :=
  let latest_df := set_scalar "trade_date" latest_trade_date latest_df in
  let columns_to_save :=
    filter (fun col => mem col (Persister.t_columns t)) (columns latest_df) in
  let df_to_save :=
    map (Persister.stored_row default t columns_to_save) (rows latest_df) in
  append_rows df_to_save
    (filter (fun h => negb (sql_eqb (get "trade_date" h) latest_trade_date))
            (Persister.t_rows t)).

(** The transaction that archives and then backfills: the history table
    afterwards.  An empty snapshot ends it at once; an exception rolls it
    back. *)
Definition archive_and_backfill (default : string -> cell) (latest_df : DataFrame)
    (latest_trade_date : cell) (t : Persister.Table) : list row :=
  if empty latest_df then Persister.t_rows t
  else
    match bind (archive_rows default latest_df latest_trade_date t)
               (static_backfill (set_scalar "trade_date" latest_trade_date latest_df)) with
    | Ok history => history
    | Exn => Persister.t_rows t
    end.

(** [df.drop_duplicates(subset=[c])]: the first row of each value stays;
    nulls count as one value. *)
Fixpoint drop_duplicates_from (c : string) (seen : list cell) (rs : list row)
    : list row :=
  match rs with
  | [] => []
  | r :: rs' =>
      if existsb (cell_eqb (get c r)) seen then drop_duplicates_from c seen rs'
      else r :: drop_duplicates_from c (get c r :: seen) rs'
  end.

Definition drop_duplicates (c : string) (rs : list row) : list row :=
  drop_duplicates_from c [] rs.

Definition info_columns : list string :=
  [ "bond_code"; "bond_name"; "stock_code"; "stock_name" ].

(** [_save_bond_info]: the table that replaces [bond_info], or [None] when
    the table is left as it is (empty input, or an exception: a column that
    is missing, or carried twice). *)
Definition _save_bond_info (bond_list : DataFrame) : option Persister.Table :=
  if empty bond_list then None
  else if forallb (fun c => mem c (columns bond_list)) info_columns
          && negb (existsb (fun c => duplicated c (columns bond_list)) info_columns)
  then Some (Persister.mkTable info_columns
               (drop_duplicates "bond_code"
                  (rows (Pipeline.select_columns info_columns bond_list))))
  else None.

End Archiver.

(* ================================================================== *)
(** * stock_app/database.py *)
(* ================================================================== *)

Module Dashboard.

(** [filters.get(key)] as the test [if filters.get(key):] sees it: a missing
    key and an empty text are both falsy. *)
Definition truthy (v : option string) : option string :=
  match v with
  | Some s => if String.eqb s "" then None else Some s
  | None => None
  end.

(** [" AND ".join(conditions)]. *)
Definition join_and (conditions : list string) : string :=
  String.concat " AND " conditions.

(** [build_where_conditions], for the two filters it reads. *)
Definition build_where_conditions (date bond_name : option string)
    : string * list string :=
  let '(conditions, params) :=
    match truthy date with
    | Some d => (["trade_date = ?"], [d])
    | None => ([], [])
    end in
  let '(conditions, params) :=
    match truthy bond_name with
    | Some n =>
        let search_term := ("%" ++ n ++ "%")%string in
        (conditions ++ ["(bond_name LIKE ? OR bond_code LIKE ?)"],
         params ++ [search_term; search_term])
    | None => (conditions, params)
    end in
  (match conditions with [] => "1=1" | _ => join_and conditions end, params).

(** The number of [?] place holders of a statement. *)
Fixpoint placeholders (sql : string) : nat :=
  match sql with
  | EmptyString => O
  | String a sql' =>
      if Ascii.eqb a "?"%char then S (placeholders sql') else placeholders sql'
  end.

End Dashboard.

(* ================================================================== *)
(** * Vocabulary of the statements, and the tables of the examples *)
(* ================================================================== *)

(** The state of a source, as far as the deactivation rule reads it. *)
Definition health (id : string) (srcs : Sources.sources)
    : option (Sources.DataSourceStatus * Z * Z) :=
  match Sources.find_source id srcs with
  | Some c => Some (Sources.status c, Sources.error_count c, Sources.max_retries c)
  | None => None
  end.

(** One provider that answers with an empty table, or that raises. *)
Definition jsl_answers (o : Sources.fetch_outcome) (id : string) : Sources.fetch_outcome :=
  if String.eqb id "jsl" then o
  else Sources.Fetched
         (Frame.mkDF ["bond_code"] [[("bond_code", Frame.Str "113001")]]).

(** What the backfill may do to one history row [h], given the snapshot. *)
Definition backfilled (snapshot : list Frame.row) (h h' : Frame.row) : Prop :=
  forall f,
    (Frame.isna (Frame.get f h) = false -> Frame.get f h' = Frame.get f h) /\
    (~ In f Archiver.backfill_fields -> Frame.get f h' = Frame.get f h) /\
    (Frame.get f h' <> Frame.get f h ->
       In f Archiver.backfill_fields /\
       Frame.isna (Frame.get f h) = true /\
       exists s, In s snapshot /\
                 Archiver.sql_eqb (Frame.get "bond_code" h) (Frame.get "bond_code" s) = true /\
                 Frame.get f h' = Frame.get f s /\
                 Frame.notna (Frame.get f s) = true).

(** A table of daily quotes as a provider sends it: a date and a volume. *)
Definition quotes (column_name : string) (volumes : list Frame.cell) : Frame.DataFrame :=
  Frame.mkDF ["日期"; column_name]
    (map (fun v => [("日期", Frame.Str "2024-01-02"); (column_name, v)]) volumes).

(** The volume column of the cleaned table. *)
Definition cleaned_volume (parse : string -> option Q)
    (to_date : Frame.cell -> option Frame.cell) (df : Frame.DataFrame)
    : Frame.outcome (list Frame.cell) :=
  Frame.bind (Pipeline._clean_bond_history_data parse to_date df)
    (fun out => Frame.Ok (Frame.column "volume" out)).

(** The order in which [sort_values] leaves two neighbouring rows. *)
Definition date_le (by_ : string) (a b : Frame.row) : Prop :=
  Pipeline.date_leb (Frame.get by_ a) (Frame.get by_ b) = true.

(** A float column: no cell of it is a text. *)
Definition numeric (cs : list Frame.cell) : bool :=
  forallb (fun c => match c with Frame.Str _ => false | _ => true end) cs.

(** [price + premium_rate] on the cells of one row. *)
Definition plus_cell (a b : Frame.cell) : Frame.cell :=
  match a, b with
  | Frame.Num x, Frame.Num y => Frame.Num (x + y)
  | _, _ => Frame.Null
  end.

(** Three closing prices given out of date order. *)
Definition three_prices : Frame.DataFrame :=
  Frame.mkDF ["trade_date"; "price"]
    [ [("trade_date", Frame.Str "2024-01-03"); ("price", Frame.Num (99 # 1))];
      [("trade_date", Frame.Str "2024-01-01"); ("price", Frame.Num (100 # 1))];
      [("trade_date", Frame.Str "2024-01-02"); ("price", Frame.Num (110 # 1))] ].

(** The valuation rows a history row is joined with: those of its date, or
    none at all. *)
Definition valuation_matches (value_df : Frame.DataFrame) (h : Frame.row)
    : list (option Frame.row) :=
  match filter (fun v => Frame.cell_eqb (Frame.get "trade_date" h) (Frame.get "trade_date" v))
               (Frame.rows value_df) with
  | [] => [None]
  | ms => map Some ms
  end.

(** The valuation price a joined row can fall back on. *)
Definition fallback_price (ov : option Frame.row) : Frame.cell :=
  match ov with
  | Some v => Frame.get "price_val" v
  | None => Frame.Null
  end.

(** Primary history with prices 10, null, 12. *)
Definition primary_history : Frame.DataFrame :=
  Frame.mkDF ["trade_date"; "price"]
    [ [("trade_date", Frame.Str "2024-01-01"); ("price", Frame.Num (10 # 1))];
      [("trade_date", Frame.Str "2024-01-02"); ("price", Frame.Null)];
      [("trade_date", Frame.Str "2024-01-03"); ("price", Frame.Num (12 # 1))] ].

(** Valuation history of the same dates with prices 9, 11, 13. *)
Definition valuation_history : Frame.DataFrame :=
  Frame.mkDF ["trade_date"; "price_val"; "premium_rate"]
    [ [("trade_date", Frame.Str "2024-01-01"); ("price_val", Frame.Num (9 # 1));
       ("premium_rate", Frame.Num (1 # 1))];
      [("trade_date", Frame.Str "2024-01-02"); ("price_val", Frame.Num (11 # 1));
       ("premium_rate", Frame.Null)];
      [("trade_date", Frame.Str "2024-01-03"); ("price_val", Frame.Num (13 # 1));
       ("premium_rate", Frame.Num (3 # 1))] ].

(** Prices and premium rates of three days, given out of date order. *)
Definition three_days : Frame.DataFrame :=
  Frame.mkDF ["trade_date"; "price"; "premium_rate"]
    [ [("trade_date", Frame.Str "2024-01-03"); ("price", Frame.Num (99 # 1));
       ("premium_rate", Frame.Num (5 # 1))];
      [("trade_date", Frame.Str "2024-01-01"); ("price", Frame.Num (100 # 1));
       ("premium_rate", Frame.Null)];
      [("trade_date", Frame.Str "2024-01-02"); ("price", Frame.Num (110 # 1));
       ("premium_rate", Frame.Num (7 # 1))] ].

(** The sources a run of the fallback loop called, in the order of the calls. *)
Definition queried (tr : list Sources.event) : list string :=
  flat_map (fun ev => match ev with
                      | Sources.Query id => [id]
                      | Sources.Sleep _ => []
                      end) tr.

(** The sources the fallback loop has a fetcher for. *)
Definition has_fetcher (id : string) : bool :=
  String.eqb id "jsl" || String.eqb id "eastmoney".

(** A provider call that gave no data: an empty table or an exception. *)
Definition answered_nothing (fetch : string -> Sources.fetch_outcome) (id : string) : Prop :=
  match fetch id with
  | Sources.Fetched d => Frame.empty d = true
  | Sources.Raised _ => True
  end.

(** Every active source has a clean error counter and a retry budget of at
    least two. *)
Definition healthy_registry (srcs : Sources.sources) : Prop :=
  Forall (fun sc => Sources.status (snd sc) = Sources.ACTIVE ->
                    Sources.error_count (snd sc) = 0 /\ 2 <= Sources.max_retries (snd sc))
         srcs.

(** The waits of a run of the call wrapper, in order. *)
Definition delays (tr : list Fetcher.event) : list Q :=
  flat_map (fun ev => match ev with
                      | Fetcher.Sleep d => [d]
                      | Fetcher.Call _ => []
                      end) tr.

(** [n] waits that start at [d] and double. *)
Fixpoint backoff (d : Q) (n : nat) : list Q :=
  match n with
  | O => []
  | S n' => d :: backoff (d * (2 # 1)) n'
  end.

(** What the backfill of one field does to one history row: the updates of
    the snapshot rows, in order. *)
Definition row_fill (field : string) (snapshot : list Frame.row) (h : Frame.row)
    : Frame.row :=
  fold_left
    (fun h r =>
       if Frame.notna (Frame.get field r)
       then if Archiver.sql_eqb (Frame.get "bond_code" h) (Frame.get "bond_code" r)
               && Frame.isna (Frame.get field h)
            then Frame.row_set field (Frame.get field r) h else h
       else h)
    snapshot h.

(** The same for the fields of a list that the snapshot carries. *)
Definition row_fill_fields (latest_df : Frame.DataFrame) (fields : list string)
    (h : Frame.row) : Frame.row :=
  fold_left
    (fun h field =>
       if Frame.mem field (Frame.columns latest_df)
       then row_fill field (Frame.rows latest_df) h else h)
    fields h.

(** The snapshot has nothing left to give to field [field] of row [h]. *)
Definition settled (latest_df : Frame.DataFrame) (field : string) (h : Frame.row) : Prop :=
  Frame.mem field (Frame.columns latest_df) = false \/
  Frame.isna (Frame.get field h) = false \/
  find (fun r => Frame.notna (Frame.get field r)
                 && Archiver.sql_eqb (Frame.get "bond_code" h) (Frame.get "bond_code" r))
       (Frame.rows latest_df) = None.

(** No two rows of the list agree on column [c]. *)
Fixpoint distinct_on (c : string) (rs : list Frame.row) : bool :=
  match rs with
  | [] => true
  | r :: rs' =>
      negb (existsb (fun r' => Frame.cell_eqb (Frame.get c r) (Frame.get c r')) rs')
      && distinct_on c rs'
  end.

(** The four identity columns of a row. *)
Definition identity_of (r : Frame.row) : Frame.row :=
  map (fun c => (c, Frame.get c r)) Archiver.info_columns.

(* ================================================================== *)
(** * Properties *)
(* ================================================================== *)

(** ** Freshness score *)

(** C7, as the code has it.  For every non-negative [days_since_update] the
    freshness score is 100 up to one day, 90 up to three, 80 up to seven, and
    beyond seven it is 80 minus one point per day past seven, floored at 0;
    [validate_data_freshness] reports that score for a stored date it can
    read.  Days 0, 5, 10, 50 and 200 score 100, 80, 77, 37 and 0. *)
Theorem freshness_score_steps (d : Z) (Hd : 0 <= d) :
  (d <= 1 -> Quality.freshness_score d = 100) /\
  (1 < d <= 3 -> Quality.freshness_score d = 90) /\
  (3 < d <= 7 -> Quality.freshness_score d = 80) /\
  (7 < d -> Quality.freshness_score d = Z.max 0 (80 - (d - 7))) /\
  0 <= Quality.freshness_score d <= 100 /\
  (forall days_since s, s <> "" -> days_since s = Some d ->
     Quality.freshness_score_of (Quality.validate_data_freshness days_since (Some s))
     = Quality.freshness_score d) /\
  map Quality.freshness_score [0; 5; 10; 50; 200] = [100; 80; 77; 37; 0].
Proof.
  assert (Hval : forall days_since s, s <> "" -> days_since s = Some d ->
     Quality.freshness_score_of (Quality.validate_data_freshness days_since (Some s))
     = Quality.freshness_score d).
  { intros days_since s Hs Hds. unfold Quality.validate_data_freshness.
    destruct (String.eqb_spec s ""); [contradiction|].
    rewrite Hds. reflexivity. }
  repeat split; try exact Hval; try reflexivity; intros;
    unfold Quality.freshness_score;
    repeat match goal with
           | |- context [?a <=? ?b] => destruct (Z.leb_spec a b)
           end; lia.
Qed.

Lemma freshness_score_steps_witness :
  0 <= 50 /\ Quality.freshness_score 50 = Z.max 0 (80 - (50 - 7)).
Proof.
  split; [lia|].
  apply (freshness_score_steps 50); lia.
Defined.

(** The score of a store that is 50 days old is 37, not 30. *)
Lemma freshness_score_50_is_not_30 :
  0 <= 50 /\ Quality.freshness_score 50 = 37 /\ Quality.freshness_score 50 <> 30.
Proof. repeat split; try lia; vm_compute; congruence. Qed.

(** ** Backfill gap dates *)

Lemma max_date_spec (l : list Z) (m : Z) :
  Archiver.max_date l = Some m -> In m l /\ forall d, In d l -> d <= m.
Proof.
  revert m. induction l as [|a l IH]; intros m H; simpl in H; [discriminate|].
  destruct (Archiver.max_date l) as [m'|] eqn:E.
  - inversion H; subst. destruct (IH m' eq_refl) as [Hin Hle].
    split.
    + destruct (Z.max_spec a m') as [[_ ->]|[_ ->]]; simpl; auto.
    + intros d [<-|Hd]; [lia|]. specialize (Hle d Hd). lia.
  - inversion H; subst. destruct l; [|simpl in E; destruct (Archiver.max_date l); discriminate].
    split; [left; reflexivity|]. intros d [<-|[]]; lia.
Qed.

Lemma max_date_none (l : list Z) : Archiver.max_date l = None -> l = [].
Proof.
  destruct l; [reflexivity|]. simpl. destruct (Archiver.max_date l); discriminate.
Qed.

Lemma in_remove_first (x d : Z) (l : list Z) :
  NoDup l -> (In d (Archiver.remove_first x l) <-> In d l /\ d <> x).
Proof.
  induction 1 as [|a l Hni Hnd IH]; simpl; [tauto|].
  destruct (Z.eqb_spec a x) as [->|Hne].
  - split.
    + intros Hd. split; [auto|]. intros ->. contradiction.
    + intros [[<-|Hd] Hn]; [congruence|assumption].
  - simpl. rewrite IH. split.
    + intros [<-|[Hd Hn]]; auto.
    + intros [[<-|Hd] Hn]; auto.
Qed.

(** C5.  With a last stored date and a calendar without repeated dates, the
    archiver backfills exactly the calendar dates after the last stored date
    and up to today, except the latest trading day up to today; for stored
    date D and calendar D+1, D+2, D+3 = today these are D+1 and D+2. *)
Theorem backfill_dates_gap (last today : Z) (calendar : list Z)
    (Hnodup : NoDup calendar) (Hcal : calendar <> []) :
  (exists gap,
     Archiver.backfill_dates (Some last) calendar today = Some gap /\
     forall d, In d gap <->
       In d calendar /\ last < d /\ d <= today /\
       ~ (forall d', In d' calendar -> d' <= today -> d' <= d)) /\
  Archiver.backfill_dates (Some last) [last + 1; last + 2; last + 3] (last + 3)
  = Some [last + 1; last + 2].
Proof.
  split.
  - unfold Archiver.backfill_dates, Archiver.get_missing_dates, Archiver.latest_trade_date.
    destruct calendar as [|c0 cal]; [congruence|].
    set (C := c0 :: cal) in *.
    set (missing := filter (fun d => (last + 1 <=? d) && (d <=? today)) C).
    assert (Hmiss : forall d, In d missing <-> In d C /\ last < d /\ d <= today).
    { intros d. unfold missing. rewrite filter_In, andb_true_iff, !Z.leb_le. intuition lia. }
    assert (Hnd : NoDup missing) by (apply NoDup_filter; assumption).
    destruct (Archiver.max_date (filter (fun d => d <=? today) C)) as [ltd|] eqn:E.
    + apply max_date_spec in E. destruct E as [Hin Hmax].
      apply filter_In in Hin. destruct Hin as [HinC Hle]. apply Z.leb_le in Hle.
      assert (Hlatest : forall d', In d' C -> d' <= today -> d' <= ltd).
      { intros d' H1 H2. apply Hmax. apply filter_In. split; [assumption|].
        apply Z.leb_le; assumption. }
      destruct (existsb (Z.eqb ltd) missing) eqn:Ex.
      * eexists; split; [reflexivity|]. intros d.
        rewrite in_remove_first by assumption. rewrite Hmiss. split.
        -- intros [[H1 [H2 H3]] Hne]. repeat split; auto.
           intros Hall. apply Hne. specialize (Hall ltd HinC Hle).
           specialize (Hlatest d H1 H3). lia.
        -- intros [H1 [H2 [H3 Hn]]]. repeat split; auto.
           intros ->. apply Hn. assumption.
      * eexists; split; [reflexivity|]. intros d. rewrite Hmiss. split.
        -- intros [H1 [H2 H3]]. repeat split; auto.
           intros Hall. specialize (Hall ltd HinC Hle). specialize (Hlatest d H1 H3).
           assert (d = ltd) by lia. subst d.
           assert (Hf : existsb (Z.eqb ltd) missing = true).
           { apply existsb_exists. exists ltd. split; [apply Hmiss; auto|apply Z.eqb_refl]. }
           congruence.
        -- tauto.
    + apply max_date_none in E.
      eexists; split; [reflexivity|]. intros d. rewrite Hmiss. split; [|tauto].
      intros [H1 [H2 H3]]. exfalso.
      assert (Hin : In d (filter (fun d => d <=? today) C)).
      { apply filter_In. split; [assumption|apply Z.leb_le; assumption]. }
      rewrite E in Hin. exact Hin.
  - unfold Archiver.backfill_dates, Archiver.get_missing_dates, Archiver.latest_trade_date.
    cbn [filter Archiver.max_date].
    repeat match goal with
           | |- context [?a <=? ?b] => destruct (Z.leb_spec a b); try lia
           end.
    cbn [andb filter Archiver.max_date existsb].
    rewrite !Z.max_r by lia.
    repeat match goal with
           | |- context [?a =? ?b] => destruct (Z.eqb_spec a b); try lia
           end.
    cbn. 
    repeat match goal with
           | |- context [?a =? ?b] => destruct (Z.eqb_spec a b); try lia
           end.
    reflexivity.
Qed.

Lemma backfill_dates_gap_witness :
  NoDup [1; 2; 3; 6] /\ [1; 2; 3; 6] <> [] /\
  exists gap,
    Archiver.backfill_dates (Some 1) [1; 2; 3; 6] 4 = Some gap /\
    (In 2 gap <->
     In 2 [1; 2; 3; 6] /\ 1 < 2 /\ 2 <= 4 /\
     ~ (forall d', In d' [1; 2; 3; 6] -> d' <= 4 -> d' <= 2)).
Proof.
  assert (Hnd : NoDup [1; 2; 3; 6]).
  { repeat constructor; simpl; intuition discriminate. }
  assert (Hne : [1; 2; 3; 6] <> []) by discriminate.
  split; [exact Hnd|]. split; [exact Hne|].
  destruct (proj1 (backfill_dates_gap 1 4 [1; 2; 3; 6] Hnd Hne)) as [gap [Hg Hin]].
  exists gap. split; [exact Hg|apply Hin].
Defined.

(** ** Source registry *)

Lemma find_update_other (now : Z) (k id : string) st msg (srcs : Sources.sources) :
  id <> k ->
  Sources.find_source id (Sources.update_source_status now k st msg srcs)
  = Sources.find_source id srcs.
Proof.
  intros Hne. induction srcs as [|[k' c] srcs IH]; simpl; [reflexivity|].
  destruct (String.eqb_spec k' k) as [->|Hk]; simpl.
  - destruct (String.eqb_spec k id); [congruence|reflexivity].
  - rewrite IH. reflexivity.
Qed.

Lemma insert_by_priority_in x y l :
  In y (Sources.insert_by_priority x l) <-> y = x \/ In y l.
Proof.
  induction l as [|z l IH]; simpl; [intuition|].
  destruct (Sources.priority (snd x) <=? Sources.priority (snd z)); simpl.
  - intuition.
  - rewrite IH. intuition.
Qed.

Lemma sort_by_priority_in y l :
  In y (Sources.sort_by_priority l) <-> In y l.
Proof.
  induction l as [|z l IH]; simpl; [tauto|].
  rewrite insert_by_priority_in, IH. intuition.
Qed.

Lemma status_eqb_eq a b : Sources.status_eqb a b = true <-> a = b.
Proof. destruct a, b; simpl; split; congruence. Qed.

(** The listing holds the active sources and no other. *)
Lemma listing_only_active (srcs : Sources.sources) id c :
  In (id, c) (Sources.get_source_by_priority srcs) <->
  In (id, c) srcs /\ Sources.status c = Sources.ACTIVE.
Proof.
  unfold Sources.get_source_by_priority.
  rewrite sort_by_priority_in, filter_In. simpl. rewrite status_eqb_eq. tauto.
Qed.

Section FallbackFacts.
Variable fetch : string -> Sources.fetch_outcome.
Variable now : Z.

Lemma fallback_loop_frame (todo : list string) :
  forall srcs tr df srcs' tr',
    Sources.fallback_loop fetch now todo srcs tr = (df, srcs', tr') ->
    (forall id, In (Sources.Query id) tr' ->
       In (Sources.Query id) tr \/ id = "jsl" \/ id = "eastmoney") /\
    (forall id, id <> "jsl" -> id <> "eastmoney" ->
       Sources.find_source id srcs' = Sources.find_source id srcs).
Proof.
  induction todo as [|sid todo IH]; intros srcs tr df srcs' tr' H; simpl in H.
  - inversion H; subst. split; auto.
  - destruct (String.eqb sid "jsl" || String.eqb sid "eastmoney") eqn:Hsid.
    + assert (Hs : sid = "jsl" \/ sid = "eastmoney").
      { apply orb_true_iff in Hsid. destruct Hsid as [E|E];
          apply String.eqb_eq in E; auto. }
      assert (Hq : forall id l evs,
                 In (Sources.Query id) (l ++ [Sources.Query sid] ++ evs) ->
                 (forall e, In e evs -> exists q, e = Sources.Sleep q) ->
                 In (Sources.Query id) l \/ id = "jsl" \/ id = "eastmoney").
      { intros id l evs Hin Hev. apply in_app_or in Hin. destruct Hin as [Hin|Hin]; auto.
        destruct Hin as [Hin|Hin].
        - inversion Hin; subst. right. exact Hs.
        - destruct (Hev _ Hin) as [q Hq]. discriminate. }
      assert (Hsl : forall s e, In e (Sources.sleep_of sid s) -> exists q, e = Sources.Sleep q).
      { intros s e. unfold Sources.sleep_of. destruct (Sources.find_source sid s); simpl.
        - intros [<-|[]]. eauto.
        - intros []. }
      assert (Hne : forall id, id <> "jsl" -> id <> "eastmoney" -> id <> sid).
      { intros id H1 H2 ->. destruct Hs; contradiction. }
      destruct (fetch sid) as [result|msg].
      * destruct (negb (Frame.empty result)).
        -- inversion H; subst. split.
           ++ intros id Hin. apply (Hq id tr []); [rewrite app_nil_r; exact Hin|].
              intros e [].
           ++ intros id H1 H2. apply find_update_other. auto.
        -- apply IH in H. destruct H as [Ha Hb]. split.
           ++ intros id Hin. destruct (Ha id Hin) as [Hin'|Hin']; auto.
              eapply Hq; [exact Hin'|apply Hsl].
           ++ intros id H1 H2. rewrite (Hb id H1 H2). apply find_update_other. auto.
      * apply IH in H. destruct H as [Ha Hb]. split.
        -- intros id Hin. destruct (Ha id Hin) as [Hin'|Hin']; auto.
           eapply Hq; [exact Hin'|apply Hsl].
        -- intros id H1 H2. rewrite (Hb id H1 H2).
           destruct (Sources.find_source sid _) as [config|];
             [destruct (Sources.max_retries config <=? Sources.error_count config)|];
             rewrite ?find_update_other by auto; reflexivity.
    + apply IH in H. exact H.
Qed.
End FallbackFacts.

(** C10.  Whatever the providers answer and whatever the state of the
    registry, [get_bond_list_with_fallback] queries no provider but ['jsl']
    and ['eastmoney'], and the configuration of every other source is the
    same after the run as before; ['sina'] and ['tencent'] are registered
    active with priorities 3 and 4 and stand in the listing, yet are not
    called. *)
Theorem fallback_queries_only_jsl_and_eastmoney
    (fetch : string -> Sources.fetch_outcome) (now : Z) (srcs : Sources.sources) :
  (forall id,
     In (Sources.Query id) (snd (Sources.get_bond_list_with_fallback fetch now srcs)) ->
     id = "jsl" \/ id = "eastmoney") /\
  (forall id, id <> "jsl" -> id <> "eastmoney" ->
     Sources.find_source id
       (snd (fst (Sources.get_bond_list_with_fallback fetch now srcs)))
     = Sources.find_source id srcs) /\
  map (fun sc => (fst sc, Sources.priority (snd sc), Sources.status (snd sc)))
      (Sources.get_source_by_priority Sources._initialize_sources)
  = [ ("jsl", 1, Sources.ACTIVE); ("eastmoney", 2, Sources.ACTIVE);
      ("sina", 3, Sources.ACTIVE); ("tencent", 4, Sources.ACTIVE) ].
Proof.
  unfold Sources.get_bond_list_with_fallback.
  destruct (Sources.fallback_loop fetch now _ srcs []) as [[df srcs'] tr] eqn:E.
  apply fallback_loop_frame in E. destruct E as [Ha Hb]. simpl.
  repeat split.
  - intros id Hin. destruct (Ha id Hin) as [[]|H]; exact H.
  - exact Hb.
Qed.


(** ** The retrying call wrapper *)

Lemma calls_call (tr : list Fetcher.event) (k : Fetcher.kwargs) :
  Fetcher.calls (tr ++ [Fetcher.Call k]) = S (Fetcher.calls tr).
Proof.
  unfold Fetcher.calls. rewrite filter_app, length_app. simpl. lia.
Qed.

Lemma calls_sleep (tr : list Fetcher.event) (d : Q) :
  Fetcher.calls (tr ++ [Fetcher.Sleep d]) = Fetcher.calls tr.
Proof.
  unfold Fetcher.calls. rewrite filter_app, length_app. simpl. lia.
Qed.

Section RobustCallFacts.
Variable func : Fetcher.kwargs -> nat -> Fetcher.call_outcome.
Variable func_has_timeout : bool.
Variable max_retries : Z.
Variable kw : Fetcher.kwargs.

Let ckw := Fetcher.call_kwargs_of func_has_timeout kw.
Let loop := Fetcher.retry_loop func func_has_timeout max_retries kw.

Lemma retry_loop_calls (fuel : nat) : forall attempt delay tr,
  (Fetcher.calls (snd (loop fuel attempt delay tr)) <= Fetcher.calls tr + fuel)%nat.
Proof.
  induction fuel as [|fuel IH]; intros attempt delay tr;
    unfold loop; cbn [Fetcher.retry_loop]; fold loop; fold ckw; [cbn [snd]; lia|].
  destruct (func ckw attempt) as [r|e]; cbn [snd].
  - rewrite calls_sleep, calls_call. lia.
  - destruct (Fetcher.classify e); cbn [snd]; rewrite ?calls_call; try lia;
      (destruct (Z.of_nat attempt <? max_retries - 1); cbn [snd];
       rewrite ?calls_call; [|lia]);
      (eapply Nat.le_trans; [apply IH|]);
      rewrite calls_sleep, calls_call; lia.
Qed.

Lemma retry_loop_source (fuel : nat) : forall attempt delay tr,
  fst (loop fuel attempt delay tr) = Frame.empty_frame \/
  exists j, (attempt <= j < attempt + fuel)%nat /\
            func ckw j = Fetcher.Returns (fst (loop fuel attempt delay tr)).
Proof.
  induction fuel as [|fuel IH]; intros attempt delay tr;
    unfold loop; cbn [Fetcher.retry_loop]; fold loop; fold ckw; [auto|].
  destruct (func ckw attempt) as [r|e] eqn:E; cbn [fst].
  - right. exists attempt. split; [lia|exact E].
  - destruct (Fetcher.classify e); cbn [fst]; auto;
      (destruct (Z.of_nat attempt <? max_retries - 1); cbn [fst]; auto);
      match goal with
      | |- context [loop fuel ?a ?d ?t] =>
          destruct (IH a d t) as [H|[j [Hj Hf]]];
            [left; exact H|right; exists j; split; [lia|exact Hf]]
      end.
Qed.

Lemma retry_loop_all_fail (fuel : nat) : forall attempt delay tr,
  (forall j, (attempt <= j < attempt + fuel)%nat -> exists e, func ckw j = Fetcher.Throws e) ->
  fst (loop fuel attempt delay tr) = Frame.empty_frame.
Proof.
  induction fuel as [|fuel IH]; intros attempt delay tr Hall;
    unfold loop; cbn [Fetcher.retry_loop]; fold loop; fold ckw; [reflexivity|].
  destruct (Hall attempt) as [e He]; [lia|]. rewrite He.
  destruct (Fetcher.classify e); cbn [fst]; auto;
    (destruct (Z.of_nat attempt <? max_retries - 1); cbn [fst]; auto);
    apply IH; intros j Hj; apply Hall; lia.
Qed.

Lemma retry_loop_terminal (k : nat) : forall fuel attempt delay tr e,
  (k < fuel)%nat ->
  Z.of_nat (attempt + k) < max_retries ->
  (forall j, (j < k)%nat ->
     exists e', func ckw (attempt + j) = Fetcher.Throws e' /\
                Fetcher.classify e' <> Fetcher.Terminal) ->
  func ckw (attempt + k) = Fetcher.Throws e ->
  Fetcher.classify e = Fetcher.Terminal ->
  fst (loop fuel attempt delay tr) = Frame.empty_frame /\
  Fetcher.calls (snd (loop fuel attempt delay tr)) = (Fetcher.calls tr + S k)%nat.
Proof.
  induction k as [|k IH]; intros fuel attempt delay tr e Hk Hmax Hpre He Hcl;
    (destruct fuel as [|fuel]; [lia|]);
    unfold loop; cbn [Fetcher.retry_loop]; fold loop; fold ckw.
  - rewrite Nat.add_0_r in He. rewrite He, Hcl. cbn [fst snd]. split; [reflexivity|].
    rewrite calls_call. lia.
  - destruct (Hpre 0%nat) as [e0 [He0 Hc0]]; [lia|].
    rewrite Nat.add_0_r in He0. rewrite He0.
    assert (Hlt : (Z.of_nat attempt <? max_retries - 1) = true).
    { apply Z.ltb_lt. lia. }
    assert (Hc : forall d, Fetcher.calls ((tr ++ [Fetcher.Call ckw]) ++ [Fetcher.Sleep d])
                      = S (Fetcher.calls tr)).
    { intros d. rewrite calls_sleep, calls_call. reflexivity. }
    assert (Hrec : forall d t, Fetcher.calls t = S (Fetcher.calls tr) ->
              fst (loop fuel (S attempt) d t) = Frame.empty_frame /\
              Fetcher.calls (snd (loop fuel (S attempt) d t)) = (Fetcher.calls tr + S (S k))%nat).
    { intros d t Ht.
      assert (Ek : (S attempt + k)%nat = (attempt + S k)%nat) by lia.
      assert (A1 : Z.of_nat (S attempt + k) < max_retries) by (rewrite Ek; exact Hmax).
      assert (A2 : forall j, (j < k)%nat ->
                exists e', func ckw (S attempt + j) = Fetcher.Throws e' /\
                           Fetcher.classify e' <> Fetcher.Terminal).
      { intros j Hj. replace (S attempt + j)%nat with (attempt + S j)%nat by lia.
        apply Hpre. lia. }
      assert (A3 : func ckw (S attempt + k) = Fetcher.Throws e) by (rewrite Ek; exact He).
      assert (A0 : (k < fuel)%nat) by lia.
      destruct (IH fuel (S attempt) d t e A0 A1 A2 A3 Hcl) as [H1 H2].
      split; [exact H1|]. rewrite H2, Ht. lia. }
    destruct (Fetcher.classify e0); try congruence; rewrite Hlt; apply Hrec; apply Hc.
Qed.
End RobustCallFacts.


(** A time-out is retried after the initial delay; the not-found answer of
    the second attempt ends the call, and the third attempt is never made.
    The test for a connection error comes first, so a message that names
    both is retried. *)
Example robust_akshare_call_stops_on_not_found :
  Fetcher.robust_akshare_call
    (fun _ n => match n with
                | O => Fetcher.Throws "timed out"
                | _ => Fetcher.Throws "Symbol not found"
                end)
    true 3 (2 # 1) [("symbol", Frame.Str "113001")]
  = (Frame.empty_frame,
     [ Fetcher.Call [("symbol", Frame.Str "113001"); ("timeout", Frame.Num (30 # 1))];
       Fetcher.Sleep (2 # 1);
       Fetcher.Call [("symbol", Frame.Str "113001"); ("timeout", Frame.Num (30 # 1))] ]) /\
  Fetcher.classify "KeyError: 'date'" = Fetcher.Terminal /\
  Fetcher.classify "该股票代码不存在" = Fetcher.Terminal /\
  Fetcher.classify "Connection aborted: host not found" = Fetcher.Transient.
Proof. repeat split. Qed.

(** ** Records *)

Lemma get_row_set_same (c : string) (v : Frame.cell) (r : Frame.row) :
  Frame.get c (Frame.row_set c v r) = v.
Proof.
  unfold Frame.get. induction r as [|[k w] r IH]; simpl.
  - rewrite String.eqb_refl. reflexivity.
  - destruct (String.eqb k c) eqn:E; simpl; rewrite E; [reflexivity|exact IH].
Qed.

Lemma get_row_set_other (c c' : string) (v : Frame.cell) (r : Frame.row) :
  c <> c' -> Frame.get c' (Frame.row_set c v r) = Frame.get c' r.
Proof.
  intros Hne. unfold Frame.get. induction r as [|[k w] r IH]; simpl.
  - destruct (String.eqb_spec c c'); [contradiction|reflexivity].
  - destruct (String.eqb_spec k c) as [->|Hk]; simpl.
    + destruct (String.eqb_spec c c'); [contradiction|reflexivity].
    + destruct (String.eqb k c'); [reflexivity|exact IH].
Qed.

Lemma Forall2_map_r {A B : Type} (R : A -> B -> Prop) (g : B -> B) (l : list A) (l' : list B) :
  (forall a b, R a b -> R a (g b)) -> Forall2 R l l' -> Forall2 R l (map g l').
Proof.
  intros Hg H. induction H; simpl; constructor; auto.
Qed.

Lemma Forall2_refl {A : Type} (R : A -> A -> Prop) (l : list A) :
  (forall a, R a a) -> Forall2 R l l.
Proof. intros H. induction l; constructor; auto. Qed.

(** ** Static-field backfill *)

Lemma backfilled_refl snapshot h : backfilled snapshot h h.
Proof. intros f. repeat split; congruence. Qed.

Lemma bond_code_not_backfilled : ~ In "bond_code" Archiver.backfill_fields.
Proof. simpl. intuition discriminate. Qed.

Lemma backfilled_step snapshot field s h h1 :
  In field Archiver.backfill_fields ->
  In s snapshot ->
  Frame.notna (Frame.get field s) = true ->
  backfilled snapshot h h1 ->
  backfilled snapshot h
    (if Archiver.sql_eqb (Frame.get "bond_code" h1) (Frame.get "bond_code" s)
        && Frame.isna (Frame.get field h1)
     then Frame.row_set field (Frame.get field s) h1 else h1).
Proof.
  intros Hfield Hs Hnn HR.
  destruct (Archiver.sql_eqb _ _ && _) eqn:Hc; [|exact HR].
  apply andb_true_iff in Hc. destruct Hc as [Hcode Hnull].
  assert (Hbc : Frame.get "bond_code" h1 = Frame.get "bond_code" h)
    by (apply (HR "bond_code"), bond_code_not_backfilled).
  intros f. destruct (HR f) as [R1 [R2 R3]].
  destruct (string_dec field f) as [<-|Hne].
  - rewrite get_row_set_same. repeat split.
    + intros Hh. rewrite (R1 Hh) in Hnull. congruence.
    + intros Hn. contradiction.
    + assumption.
    + apply not_false_is_true. intros E.
      rewrite (R1 E) in Hnull. congruence.
    + exists s. rewrite <- Hbc. auto.
  - rewrite (get_row_set_other field f) by assumption. auto.
Qed.

Lemma backfill_field_backfilled snapshot field history :
  In field Archiver.backfill_fields ->
  forall snap, incl snap snapshot ->
  forall hist, Forall2 (backfilled snapshot) history hist ->
  Forall2 (backfilled snapshot) history (Archiver.backfill_field field snap hist).
Proof.
  intros Hfield. unfold Archiver.backfill_field.
  induction snap as [|s snap IH]; intros Hincl hist H; simpl; [exact H|].
  apply IH; [intros x Hx; apply Hincl; right; exact Hx|].
  destruct (Frame.notna (Frame.get field s)) eqn:Hnn; [|exact H].
  unfold Archiver.update_null. apply Forall2_map_r; [|exact H].
  intros a b Hab. apply backfilled_step; auto. apply Hincl. left. reflexivity.
Qed.

Lemma backfill_fields_backfilled (latest_df : Frame.DataFrame) history :
  forall fields, incl fields Archiver.backfill_fields ->
  forall hist, Forall2 (backfilled (Frame.rows latest_df)) history hist ->
  Forall2 (backfilled (Frame.rows latest_df)) history
    (fold_left
       (fun hist field =>
          if Frame.mem field (Frame.columns latest_df)
          then Archiver.backfill_field field (Frame.rows latest_df) hist
          else hist)
       fields hist).
Proof.
  induction fields as [|f fields IH]; intros Hincl hist H; simpl; [exact H|].
  apply IH; [intros x Hx; apply Hincl; right; exact Hx|].
  destruct (Frame.mem f (Frame.columns latest_df)); [|exact H].
  apply backfill_field_backfilled; auto.
  - apply Hincl. left. reflexivity.
  - apply incl_refl.
Qed.



(** ** Idempotent insert *)

Lemma cell_eqb_refl (c : Frame.cell) : Frame.cell_eqb c c = true.
Proof.
  destruct c; simpl; [reflexivity| |apply String.eqb_refl].
  apply Qeq_bool_iff. reflexivity.
Qed.

Lemma cell_eqb_sym (a b : Frame.cell) : Frame.cell_eqb a b = Frame.cell_eqb b a.
Proof.
  destruct a, b; simpl; try reflexivity; [|apply String.eqb_sym].
  destruct (Qeq_bool q q0) eqn:E1, (Qeq_bool q0 q) eqn:E2; try reflexivity.
  - apply Qeq_bool_iff in E1. symmetry in E1. apply Qeq_bool_iff in E1. congruence.
  - apply Qeq_bool_iff in E2. symmetry in E2. apply Qeq_bool_iff in E2. congruence.
Qed.

Lemma same_key_refl (r : Frame.row) : Persister.same_key r r = true.
Proof. unfold Persister.same_key. rewrite !cell_eqb_refl. reflexivity. Qed.

Lemma same_key_sym (a b : Frame.row) : Persister.same_key a b = Persister.same_key b a.
Proof.
  unfold Persister.same_key.
  rewrite (cell_eqb_sym (Frame.get "trade_date" a)), (cell_eqb_sym (Frame.get "bond_code" a)).
  reflexivity.
Qed.

Lemma unique_keys_snoc (l : list Frame.row) (r : Frame.row) :
  Persister.unique_keys l = true ->
  existsb (Persister.same_key r) l = false ->
  Persister.unique_keys (l ++ [r]) = true.
Proof.
  induction l as [|a l IH]; simpl; intros Hu Hr; [reflexivity|].
  apply andb_true_iff in Hu. destruct Hu as [Ha Hu].
  apply orb_false_iff in Hr. destruct Hr as [Hra Hr].
  rewrite existsb_app. simpl. rewrite same_key_sym, Hra.
  apply negb_true_iff in Ha. rewrite Ha. simpl. auto.
Qed.

Lemma insert_all_spec (recs : list Frame.row) : forall stored count,
  exists added,
    Persister.insert_all recs stored count
    = (stored ++ added, count + Z.of_nat (List.length added)) /\
    (forall r, In r recs -> existsb (Persister.same_key r) (stored ++ added) = true) /\
    (forall a, In a added -> In a recs /\ existsb (Persister.same_key a) stored = false) /\
    (Persister.unique_keys stored = true -> Persister.unique_keys (stored ++ added) = true).
Proof.
  induction recs as [|r recs IH]; intros stored count; simpl.
  - exists []. rewrite app_nil_r, Z.add_0_r.
    split; [reflexivity|]. split; [intros ? []|]. split; [intros ? []|auto].
  - destruct (existsb (Persister.same_key r) stored) eqn:Ex.
    + destruct (IH stored count) as [added [H1 [H2 [H3 H4]]]].
      exists added. split; [exact H1|]. split; [|split].
      * intros x [<-|Hx]; [|auto]. rewrite existsb_app, Ex. reflexivity.
      * intros a Ha. destruct (H3 a Ha) as [Hin Hn]. split; [right; exact Hin|exact Hn].
      * exact H4.
    + destruct (IH (stored ++ [r]) (count + 1)) as [added [H1 [H2 [H3 H4]]]].
      exists (r :: added). rewrite <- app_assoc in H1, H2, H4. simpl in H1, H2, H4.
      split; [|split; [|split]].
      * rewrite H1. f_equal. simpl List.length. lia.
      * intros x [<-|Hx]; [|auto].
        rewrite existsb_app. simpl. rewrite same_key_refl. apply orb_true_r.
      * intros a [<-|Ha]; [split; [left; reflexivity|exact Ex]|].
        destruct (H3 a Ha) as [Hin Hn]. split; [right; exact Hin|].
        rewrite existsb_app in Hn. apply orb_false_iff in Hn. tauto.
      * intros Hu. apply H4. apply unique_keys_snoc; assumption.
Qed.

Lemma insert_all_present (recs : list Frame.row) : forall stored count,
  (forall r, In r recs -> existsb (Persister.same_key r) stored = true) ->
  Persister.insert_all recs stored count = (stored, count).
Proof.
  induction recs as [|r recs IH]; intros stored count H; simpl; [reflexivity|].
  rewrite (H r) by (left; reflexivity). apply IH. intros x Hx. apply H. right. exact Hx.
Qed.

Lemma find_table_set_rows (name : string) (rs : list Frame.row) (db : Persister.database) t :
  Persister.find_table name db = Some t ->
  Persister.find_table name (Persister.set_rows_of name rs db)
  = Some (Persister.mkTable (Persister.t_columns t) rs).
Proof.
  induction db as [|[k t'] db IH]; simpl; [discriminate|].
  destruct (String.eqb k name) eqn:E; simpl; rewrite E.
  - intros H. inversion H; subst. reflexivity.
  - exact IH.
Qed.

Lemma set_rows_of_same (name : string) (db : Persister.database) t :
  Persister.find_table name db = Some t ->
  Persister.set_rows_of name (Persister.t_rows t) db = db.
Proof.
  induction db as [|[k t'] db IH]; simpl; [reflexivity|].
  destruct (String.eqb k name) eqn:E.
  - intros H. inversion H; subst. destruct t. reflexivity.
  - intros H. rewrite (IH H). reflexivity.
Qed.


(** ** Volume unit normalisation *)

Lemma column_map_column_same (c : string) (f : Frame.cell -> Frame.cell) (df : Frame.DataFrame) :
  Frame.column c (Frame.map_column c f df) = map f (Frame.column c df).
Proof.
  unfold Frame.column, Frame.map_column. simpl. rewrite !map_map.
  apply map_ext. intros r. apply get_row_set_same.
Qed.

Lemma column_map_column_other (c c' : string) (f : Frame.cell -> Frame.cell) (df : Frame.DataFrame) :
  c <> c' -> Frame.column c' (Frame.map_column c f df) = Frame.column c' df.
Proof.
  intros Hne. unfold Frame.column, Frame.map_column. simpl. rewrite map_map.
  apply map_ext. intros r. apply get_row_set_other. exact Hne.
Qed.

Section CleaningFacts.
Variable parse : string -> option Q.
Variable to_date : Frame.cell -> option Frame.cell.

Lemma clean_numeric_other (col : string) (df df' : Frame.DataFrame) :
  col <> "volume" ->
  Pipeline.clean_numeric parse col df = Frame.Ok df' ->
  Frame.column "volume" df' = Frame.column "volume" df /\
  Frame.columns df' = Frame.columns df.
Proof.
  intros Hne. unfold Pipeline.clean_numeric.
  destruct (Frame.mem col (Frame.columns df)); [|intros H; inversion H; auto].
  destruct (Frame.duplicated col (Frame.columns df)); [discriminate|].
  destruct (String.eqb_spec col "volume"); [contradiction|]. simpl.
  intros H. inversion H; subst. split; [|reflexivity].
  apply column_map_column_other. exact Hne.
Qed.

Lemma clean_numeric_cols_other (cols : list string) : forall df df',
  ~ In "volume" cols ->
  Pipeline.clean_numeric_cols parse cols df = Frame.Ok df' ->
  Frame.column "volume" df' = Frame.column "volume" df /\
  Frame.columns df' = Frame.columns df.
Proof.
  induction cols as [|col cols IH]; intros df df' Hni H; simpl in H.
  - inversion H; auto.
  - destruct (Pipeline.clean_numeric parse col df) as [df1|] eqn:E; [|discriminate].
    simpl in H.
    apply clean_numeric_other in E; [|intros ->; apply Hni; left; reflexivity].
    apply IH in H; [|intros Hin; apply Hni; right; exact Hin].
    destruct E as [E1 E2], H as [H1 H2]. split; congruence.
Qed.

Lemma format_rows_other (c : string) (rs : list Frame.row) : forall rs',
  c <> "trade_date" ->
  Pipeline.format_rows to_date rs = Frame.Ok rs' ->
  map (Frame.get c) rs' = map (Frame.get c) rs.
Proof.
  induction rs as [|r rs IH]; intros rs' Hne H; simpl in H.
  - inversion H. reflexivity.
  - destruct (to_date (Frame.get "trade_date" r)) as [d|]; [|discriminate].
    destruct (Pipeline.format_rows to_date rs) as [out|]; [|discriminate].
    simpl in H. inversion H; subst. simpl.
    rewrite (IH out Hne eq_refl).
    rewrite get_row_set_other by congruence. reflexivity.
Qed.

Lemma times100_to_numeric (c : Frame.cell) :
  Pipeline.times100 (Pipeline.to_numeric parse c)
  = Frame.of_num (option_map (fun q => (q * (100 # 1))%Q)
                    (Pipeline.num_of (Pipeline.to_numeric parse c))).
Proof.
  destruct c as [|q|s]; simpl; try reflexivity.
  destruct (parse s); reflexivity.
Qed.

Lemma to_numeric_of_num (c : Frame.cell) :
  Pipeline.to_numeric parse c = Frame.of_num (Pipeline.num_of (Pipeline.to_numeric parse c)).
Proof.
  destruct c as [|q|s]; simpl; try reflexivity.
  destruct (parse s); reflexivity.
Qed.
End CleaningFacts.



(** ** Sorting by date *)

Lemma date_leb_total (a b : Frame.cell) :
  Pipeline.date_leb a b = false -> Pipeline.date_leb b a = true.
Proof.
  destruct a as [|p|s], b as [|q|t]; simpl; try congruence.
  - intros H. apply Qle_bool_iff. destruct (Qlt_le_dec q p) as [Hlt|Hle].
    + apply Qlt_le_weak. exact Hlt.
    + apply Qle_bool_iff in Hle. congruence.
  - intros H. destruct (String.leb_total s t) as [H1|H1]; [congruence|exact H1].
Qed.

Lemma insert_row_perm (by_ : string) (x : Frame.row) (l : list Frame.row) :
  Permutation (Pipeline.insert_row by_ x l) (x :: l).
Proof.
  induction l as [|y l IH]; simpl; [apply Permutation_refl|].
  destruct (Pipeline.date_leb _ _); [apply Permutation_refl|].
  eapply Permutation_trans; [apply perm_skip; exact IH|apply perm_swap].
Qed.

Lemma sort_values_perm (by_ : string) (l : list Frame.row) :
  Permutation (Pipeline.sort_values by_ l) l.
Proof.
  induction l as [|x l IH]; simpl; [constructor|].
  eapply Permutation_trans; [apply insert_row_perm|]. apply perm_skip. exact IH.
Qed.

Lemma insert_row_sorted (by_ : string) (x : Frame.row) (l : list Frame.row) :
  Sorted (date_le by_) l -> Sorted (date_le by_) (Pipeline.insert_row by_ x l).
Proof.
  induction l as [|y l IH]; intros Hs; simpl.
  - repeat constructor.
  - destruct (Pipeline.date_leb (Frame.get by_ x) (Frame.get by_ y)) eqn:E.
    + constructor; [exact Hs|]. constructor. exact E.
    + inversion Hs as [|? ? Hs' Hhd]; subst.
      constructor; [apply IH; exact Hs'|].
      destruct l as [|z l]; simpl.
      * constructor. apply date_leb_total. exact E.
      * destruct (Pipeline.date_leb (Frame.get by_ x) (Frame.get by_ z)).
        -- constructor. apply date_leb_total. exact E.
        -- inversion Hhd; subst. constructor. assumption.
Qed.

Lemma sort_values_sorted (by_ : string) (l : list Frame.row) :
  Sorted (date_le by_) (Pipeline.sort_values by_ l).
Proof.
  induction l as [|x l IH]; simpl; [constructor|].
  apply insert_row_sorted. exact IH.
Qed.

Lemma sort_values_length (by_ : string) (l : list Frame.row) :
  List.length (Pipeline.sort_values by_ l) = List.length l.
Proof. apply Permutation_length, sort_values_perm. Qed.

(** ** Columns and series *)

Lemma set_rows_length (c : string) (vs : list Frame.cell) : forall rs,
  List.length vs = List.length rs ->
  List.length (Frame.set_rows c vs rs) = List.length rs.
Proof.
  induction vs as [|v vs IH]; intros [|r rs] H; simpl in *; try discriminate; auto.
Qed.

Lemma set_rows_get_same (c : string) (vs : list Frame.cell) : forall rs,
  List.length vs = List.length rs ->
  map (Frame.get c) (Frame.set_rows c vs rs) = vs.
Proof.
  induction vs as [|v vs IH]; intros [|r rs] H; simpl in *; try discriminate; auto.
  rewrite get_row_set_same, IH by lia. reflexivity.
Qed.

Lemma set_rows_get_other (c c' : string) (vs : list Frame.cell) : forall rs,
  c <> c' ->
  List.length vs = List.length rs ->
  map (Frame.get c') (Frame.set_rows c vs rs) = map (Frame.get c') rs.
Proof.
  induction vs as [|v vs IH]; intros [|r rs] Hne H; simpl in *; try discriminate; auto.
  rewrite get_row_set_other, IH by (auto; lia). reflexivity.
Qed.

Lemma mem_set_column (c c' : string) (vs : list Frame.cell) (df : Frame.DataFrame) :
  Frame.mem c (Frame.columns df) = true ->
  Frame.mem c (Frame.columns (Frame.set_column c' vs df)) = true.
Proof.
  intros H. unfold Frame.set_column. simpl.
  destruct (Frame.mem c' (Frame.columns df)); [exact H|].
  unfold Frame.mem in *. rewrite existsb_app, H. reflexivity.
Qed.

Lemma as_series_numeric (cs : list Frame.cell) :
  numeric cs = true ->
  exists s, Frame.as_series cs = Frame.Ok s /\ map Frame.of_num s = cs.
Proof.
  induction cs as [|c cs IH]; simpl; intros H.
  - exists []. auto.
  - apply andb_true_iff in H. destruct H as [Hc H].
    destruct (IH H) as [s [Hs Hm]].
    destruct c as [|q|t]; [| |discriminate]; rewrite Hs; simpl.
    + exists (None :: s). simpl. rewrite Hm. auto.
    + exists (Some q :: s). simpl. rewrite Hm. auto.
Qed.

Lemma ffill_from_length (s : Frame.series) : forall last,
  List.length (Pipeline.ffill_from last s) = List.length s.
Proof.
  induction s as [|[q|] s IH]; intros last; simpl; auto.
Qed.

Lemma ffill_from_value (s : Frame.series) : forall last i a,
  nth_error s i = Some (Some a) ->
  nth_error (Pipeline.ffill_from last s) i = Some (Some a).
Proof.
  induction s as [|[q|] s IH]; intros last [|i] a H; simpl in *; try discriminate; auto.
Qed.

Section MetricsFacts.
Variable pad : bool.
Variable pct_div0 : Q -> Frame.cell.

Lemma pct_pairs_length (s : Frame.series) : forall prev,
  List.length (Pipeline.pct_pairs pct_div0 prev s) = List.length s.
Proof.
  induction s as [|x s IH]; intros prev; simpl; auto.
Qed.

Lemma pct_pairs_next (s : Frame.series) : forall prev i x y,
  nth_error s i = Some x ->
  nth_error s (S i) = Some y ->
  nth_error (Pipeline.pct_pairs pct_div0 prev s) (S i) = Some (Pipeline.pct pct_div0 x y).
Proof.
  induction s as [|z s IH]; intros prev [|i] x y Hx Hy; simpl in *; try discriminate.
  - inversion Hx; subst. destruct s as [|w s]; simpl in *; [discriminate|].
    inversion Hy; subst. reflexivity.
  - apply IH; assumption.
Qed.

Lemma pct_change100_length (s : Frame.series) :
  List.length (Pipeline.pct_change100 pad pct_div0 s) = List.length s.
Proof.
  unfold Pipeline.pct_change100. rewrite pct_pairs_length.
  destruct pad; [apply ffill_from_length|reflexivity].
Qed.

Lemma pct_change100_first (s : Frame.series) :
  nth 0 (Pipeline.pct_change100 pad pct_div0 s) Frame.Null = Frame.Null.
Proof.
  unfold Pipeline.pct_change100.
  destruct pad; destruct s as [|[q|] s]; reflexivity.
Qed.

Lemma pct_change100_next (s : Frame.series) (i : nat) (a b : Q) :
  nth_error s i = Some (Some a) ->
  nth_error s (S i) = Some (Some b) ->
  nth_error (Pipeline.pct_change100 pad pct_div0 s) (S i)
  = Some (Pipeline.pct pct_div0 (Some a) (Some b)).
Proof.
  intros Ha Hb. unfold Pipeline.pct_change100.
  destruct pad; apply pct_pairs_next; auto using ffill_from_value.
Qed.

Lemma add_series_length (p : Frame.series) : forall q,
  List.length p = List.length q ->
  List.length (Pipeline.add_series p q) = List.length p.
Proof.
  induction p as [|x p IH]; intros [|y q] H; simpl in *; try discriminate; auto.
Qed.
End MetricsFacts.

Lemma set_rows_add_series (c c1 c2 : string) (p : Frame.series) : forall q rs,
  c <> c1 -> c <> c2 ->
  map (Frame.get c1) rs = map Frame.of_num p ->
  map (Frame.get c2) rs = map Frame.of_num q ->
  Forall (fun r => Frame.get c r = plus_cell (Frame.get c1 r) (Frame.get c2 r))
         (Frame.set_rows c (Pipeline.add_series p q) rs).
Proof.
  induction p as [|x p IH]; intros [|y q] [|r rs] H1 H2 Hp Hq; simpl in *;
    try discriminate; try constructor.
  - rewrite get_row_set_same, !get_row_set_other by assumption.
    inversion Hp as [[Hx Hp']]. inversion Hq as [[Hy Hq']].
    rewrite Hx, Hy. destruct x, y; reflexivity.
  - inversion Hp. inversion Hq. apply IH; assumption.
Qed.

Lemma nth_error_of_num (s : Frame.series) (i : nat) (a : Q) :
  nth_error (map Frame.of_num s) i = Some (Frame.Num a) ->
  nth_error s i = Some (Some a).
Proof.
  rewrite nth_error_map. destruct (nth_error s i) as [[q|]|]; simpl; congruence.
Qed.

(** ** Derived metrics *)

Lemma numeric_perm (l l' : list Frame.cell) :
  Permutation l l' -> numeric l = true -> numeric l' = true.
Proof.
  intros Hp H. unfold numeric in *. rewrite forallb_forall in *.
  intros x Hx. apply H. eapply Permutation_in; [apply Permutation_sym; exact Hp|exact Hx].
Qed.


(** ** Merging primary and valuation history *)

Lemma append_empty_r (s : string) : (s ++ "")%string = s.
Proof. induction s as [|a s IH]; simpl; [reflexivity|rewrite IH; reflexivity]. Qed.

Lemma append_val_price (c : string) : (c ++ "_val")%string = "price_val" -> c = "price".
Proof.
  intros H.
  repeat (destruct c as [|? c]; simpl in H; [try discriminate|inversion H as [[Ha H']]; clear H; rename H' into H; subst]);
    try reflexivity.
Qed.

Lemma lookup_none (c : string) (r : Frame.row) :
  Frame.lookup c r = None <-> ~ In c (map fst r).
Proof.
  induction r as [|[k v] r IH]; simpl; [tauto|].
  destruct (String.eqb_spec k c) as [->|Hne].
  - split; [discriminate|]. intros H. exfalso. apply H. left. reflexivity.
  - rewrite IH. tauto.
Qed.

Lemma mem_in (c : string) (cs : list string) : Frame.mem c cs = true <-> In c cs.
Proof.
  unfold Frame.mem. rewrite existsb_exists. split.
  - intros [x [Hx E]]. apply String.eqb_eq in E. subst. exact Hx.
  - intros H. exists c. split; [exact H|apply String.eqb_refl].
Qed.

Lemma get_app_left (c : string) (l x : Frame.row) :
  In c (map fst l) -> Frame.get c (l ++ x) = Frame.get c l.
Proof.
  unfold Frame.get. induction l as [|[k v] l IH]; simpl; [tauto|].
  destruct (String.eqb_spec k c); [reflexivity|].
  intros [H|H]; [contradiction|]. apply IH. exact H.
Qed.

Lemma get_app_right (c : string) (l x : Frame.row) :
  ~ In c (map fst l) -> Frame.get c (l ++ x) = Frame.get c x.
Proof.
  unfold Frame.get. induction l as [|[k v] l IH]; simpl; [reflexivity|].
  intros H. destruct (String.eqb_spec k c) as [->|Hne]; [exfalso; apply H; auto|].
  apply IH. tauto.
Qed.

Lemma get_row_drop_other (c c' : string) (r : Frame.row) :
  c <> c' -> Frame.get c (Frame.row_drop c' r) = Frame.get c r.
Proof.
  intros Hne. unfold Frame.get. induction r as [|[k v] r IH]; simpl; [reflexivity|].
  destruct (String.eqb_spec k c') as [->|Hk].
  - destruct (String.eqb_spec c' c); [congruence|exact IH].
  - simpl. destruct (String.eqb k c); [reflexivity|exact IH].
Qed.

Lemma get_all_null (c : string) (f : string -> string) (cols : list string) :
  Frame.get c (map (fun k => (f k, Frame.Null)) cols) = Frame.Null.
Proof.
  unfold Frame.get. induction cols as [|k cols IH]; simpl; [reflexivity|].
  destruct (String.eqb (f k) c); [reflexivity|exact IH].
Qed.

Lemma get_renamed (c : string) (f : string -> string) (v : Frame.row) (cols : list string) :
  (forall k, In k cols -> f k = c -> k = c) ->
  In c cols -> f c = c ->
  Frame.get c (map (fun k => (f k, Frame.get k v)) cols) = Frame.get c v.
Proof.
  intros Hinj Hin Hfc. unfold Frame.get at 1.
  induction cols as [|k cols IH]; simpl; [destruct Hin|].
  destruct (String.eqb_spec (f k) c) as [E|E].
  - rewrite (Hinj k (or_introl eq_refl) E). reflexivity.
  - apply IH.
    + intros k' Hk'. apply Hinj. right. exact Hk'.
    + destruct Hin as [->|Hin]; [contradiction|exact Hin].
Qed.

Lemma map_flat_map {A B C : Type} (g : B -> C) (f : A -> list B) (l : list A) :
  map g (flat_map f l) = flat_map (fun a => map g (f a)) l.
Proof.
  induction l as [|a l IH]; simpl; [reflexivity|].
  rewrite map_app, IH. reflexivity.
Qed.

Lemma wf_row_keys (df : Frame.DataFrame) (r : Frame.row) :
  Frame.wf df = true -> In r (Frame.rows df) -> map fst r = Frame.columns df.
Proof.
  unfold Frame.wf. rewrite forallb_forall. intros H Hin.
  specialize (H r Hin). unfold Frame.wf_row in H.
  destruct (list_eq_dec string_dec (map fst r) (Frame.columns df)); [assumption|discriminate].
Qed.




(* ================================================================== *)
(** * Further properties of the source registry *)
(* ================================================================== *)

Lemma insert_by_priority_perm x l :
  Permutation (Sources.insert_by_priority x l) (x :: l).
Proof.
  induction l as [|y l IH]; simpl; [apply Permutation_refl|].
  destruct (Sources.priority (snd x) <=? Sources.priority (snd y));
    [apply Permutation_refl|].
  eapply Permutation_trans; [apply perm_skip; exact IH|apply perm_swap].
Qed.

Lemma sort_by_priority_perm l : Permutation (Sources.sort_by_priority l) l.
Proof.
  induction l as [|x l IH]; simpl; [constructor|].
  eapply Permutation_trans; [apply insert_by_priority_perm|].
  apply perm_skip. exact IH.
Qed.

Lemma insert_by_priority_sorted x l :
  StronglySorted (fun a b => Sources.priority (snd a) <= Sources.priority (snd b)) l ->
  StronglySorted (fun a b => Sources.priority (snd a) <= Sources.priority (snd b))
    (Sources.insert_by_priority x l).
Proof.
  induction l as [|y l IH]; intros Hs; simpl.
  - repeat constructor.
  - inversion Hs as [|? ? Hs' Hall]; subst.
    destruct (Z.leb_spec (Sources.priority (snd x)) (Sources.priority (snd y))) as [Hle|Hgt].
    + constructor; [exact Hs|]. constructor; [exact Hle|].
      rewrite Forall_forall in *. intros z Hz. specialize (Hall z Hz). lia.
    + constructor; [apply IH; exact Hs'|].
      rewrite Forall_forall in *. intros z Hz.
      apply insert_by_priority_in in Hz. destruct Hz as [->|Hz]; [lia|auto].
Qed.

(** X1.  The listing of [get_source_by_priority] is in ascending order of
    priority, every earlier entry before every later one, and it is a
    rearrangement of the registry's active entries: none is lost, none is
    listed twice. *)
Theorem get_source_by_priority_sorted (srcs : Sources.sources) :
  StronglySorted (fun a b => Sources.priority (snd a) <= Sources.priority (snd b))
    (Sources.get_source_by_priority srcs) /\
  Permutation (Sources.get_source_by_priority srcs)
    (filter (fun sc => Sources.status_eqb (Sources.status (snd sc)) Sources.ACTIVE) srcs).
Proof.
  unfold Sources.get_source_by_priority. split; [|apply sort_by_priority_perm].
  induction (filter _ srcs) as [|x l IH]; simpl; [constructor|].
  apply insert_by_priority_sorted. exact IH.
Qed.

Lemma find_update_same (now : Z) (id : string) st msg (srcs : Sources.sources) c :
  Sources.find_source id srcs = Some c ->
  Sources.find_source id (Sources.update_source_status now id st msg srcs)
  = Some (Sources.update_config now st msg c).
Proof.
  induction srcs as [|[k c'] srcs IH]; simpl; [discriminate|].
  destruct (String.eqb k id) eqn:E; simpl; rewrite E.
  - intros H. inversion H. reflexivity.
  - exact IH.
Qed.

Lemma update_keys (now : Z) (id : string) st msg (srcs : Sources.sources) :
  map fst (Sources.update_source_status now id st msg srcs) = map fst srcs.
Proof.
  induction srcs as [|[k c] srcs IH]; simpl; [reflexivity|].
  destruct (String.eqb k id); simpl; [reflexivity|rewrite IH; reflexivity].
Qed.

(** X2.  [update_source_status] keeps the registry's ids in their order and
    touches no source but the one named; for an id the registry does not
    hold it changes nothing.  The named source keeps its name, priority,
    delay, retry budget and timeout; recording a success leaves it active
    with a zero error counter, no last error and the time stamp of the call,
    and recording any other status adds one to the counter and keeps the
    last success. *)
Theorem update_source_status_frame
    (now : Z) (id : string) (st : Sources.DataSourceStatus) (msg : option string)
    (srcs : Sources.sources) :
  let srcs' := Sources.update_source_status now id st msg srcs in
  map fst srcs' = map fst srcs /\
  (forall id', id' <> id -> Sources.find_source id' srcs' = Sources.find_source id' srcs) /\
  (Sources.find_source id srcs = None -> srcs' = srcs) /\
  (forall c, Sources.find_source id srcs = Some c ->
     exists c', Sources.find_source id srcs' = Some c' /\
       Sources.status c' = st /\
       (Sources.name c', Sources.priority c', Sources.request_delay c',
        Sources.max_retries c', Sources.timeout c')
       = (Sources.name c, Sources.priority c, Sources.request_delay c,
          Sources.max_retries c, Sources.timeout c) /\
       (st = Sources.ACTIVE ->
          Sources.error_count c' = 0 /\ Sources.last_error c' = None /\
          Sources.last_success c' = Some now) /\
       (st <> Sources.ACTIVE ->
          Sources.error_count c' = Sources.error_count c + 1 /\
          Sources.last_error c' = msg /\
          Sources.last_success c' = Sources.last_success c)).
Proof.
  intros srcs'. subst srcs'.
  split; [apply update_keys|]. split; [intros id' Hne; apply find_update_other; exact Hne|].
  split.
  - induction srcs as [|[k c] srcs IH]; simpl; [reflexivity|].
    destruct (String.eqb k id); [discriminate|].
    intros H. rewrite (IH H). reflexivity.
  - intros c Hc. exists (Sources.update_config now st msg c).
    split; [apply find_update_same; exact Hc|].
    destruct st; simpl; repeat split; intros; try congruence; try reflexivity.
Qed.

Lemma update_absent (now : Z) (id : string) st msg (srcs : Sources.sources) :
  Sources.find_source id srcs = None ->
  Sources.update_source_status now id st msg srcs = srcs.
Proof.
  induction srcs as [|[k c] srcs IH]; simpl; [reflexivity|].
  destruct (String.eqb k id); [discriminate|].
  intros H. rewrite (IH H). reflexivity.
Qed.

Lemma queried_app (a b : list Sources.event) : queried (a ++ b) = queried a ++ queried b.
Proof. unfold queried. apply flat_map_app. Qed.

Lemma queried_sleep_of (id : string) (srcs : Sources.sources) :
  queried (Sources.sleep_of id srcs) = [].
Proof. unfold Sources.sleep_of. destruct (Sources.find_source id srcs); reflexivity. Qed.

Lemma queried_step (tr : list Sources.event) (id : string) (srcs : Sources.sources) :
  queried (tr ++ [Sources.Query id] ++ Sources.sleep_of id srcs) = queried tr ++ [id].
Proof. rewrite !queried_app, queried_sleep_of. reflexivity. Qed.

Section FallbackResult.
Variable fetch : string -> Sources.fetch_outcome.
Variable now : Z.

Lemma fallback_loop_result (todo : list string) :
  forall srcs tr df srcs' tr',
    Sources.fallback_loop fetch now todo srcs tr = (df, srcs', tr') ->
    exists qs rest,
      queried tr' = queried tr ++ qs /\
      filter has_fetcher todo = qs ++ rest /\
      (Frame.empty df = true ->
         df = Frame.empty_frame /\ Forall (answered_nothing fetch) qs) /\
      (Frame.empty df = false ->
         exists pre id,
           qs = pre ++ [id] /\ fetch id = Sources.Fetched df /\
           Forall (answered_nothing fetch) pre /\
           forall c, Sources.find_source id srcs' = Some c ->
                     Sources.status c = Sources.ACTIVE /\
                     Sources.error_count c = 0 /\ Sources.last_error c = None).
Proof.
  induction todo as [|sid todo IH]; intros srcs tr df srcs' tr' H; simpl in H.
  - inversion H; subst. exists [], []. rewrite app_nil_r.
    repeat split; try constructor. discriminate.
  - simpl filter. unfold has_fetcher at 1.
    destruct (String.eqb sid "jsl" || String.eqb sid "eastmoney") eqn:Hsid;
      [|apply IH in H; exact H].
    assert (Hcons : forall srcs1 tr1,
              queried tr1 = queried tr ++ [sid] ->
              answered_nothing fetch sid ->
              Sources.fallback_loop fetch now todo srcs1 tr1 = (df, srcs', tr') ->
              exists qs rest,
                queried tr' = queried tr ++ qs /\
                sid :: filter has_fetcher todo = qs ++ rest /\
                (Frame.empty df = true ->
                   df = Frame.empty_frame /\ Forall (answered_nothing fetch) qs) /\
                (Frame.empty df = false ->
                   exists pre id,
                     qs = pre ++ [id] /\ fetch id = Sources.Fetched df /\
                     Forall (answered_nothing fetch) pre /\
                     forall c, Sources.find_source id srcs' = Some c ->
                               Sources.status c = Sources.ACTIVE /\
                               Sources.error_count c = 0 /\ Sources.last_error c = None)).
    { intros srcs1 tr1 Hq Hfail Hloop.
      destruct (IH _ _ _ _ _ Hloop) as [qs [rest [H1 [H2 [H3 H4]]]]].
      exists (sid :: qs), rest. split; [rewrite H1, Hq, <- app_assoc; reflexivity|].
      split; [simpl; rewrite H2; reflexivity|]. split.
      - intros He. destruct (H3 He) as [Hdf Hall]. split; [exact Hdf|].
        constructor; assumption.
      - intros He. destruct (H4 He) as [pre [id [Hqs [Hf [Hpre Hst]]]]].
        exists (sid :: pre), id. split; [rewrite Hqs; reflexivity|].
        split; [exact Hf|]. split; [constructor; assumption|exact Hst]. }
    destruct (fetch sid) as [result|msg] eqn:Hfetch.
    + destruct (Frame.empty result) eqn:Hres; cbn [negb] in H.
      * eapply Hcons; [apply queried_step| |exact H].
        unfold answered_nothing. rewrite Hfetch. exact Hres.
      * inversion H; subst. exists [sid], (filter has_fetcher todo).
        split; [rewrite queried_app; reflexivity|]. split; [reflexivity|].
        split; [congruence|]. intros _. exists [], sid.
        split; [reflexivity|]. split; [exact Hfetch|]. split; [constructor|].
        intros c Hc.
        destruct (Sources.find_source sid srcs) as [c0|] eqn:E0.
        -- rewrite (find_update_same now sid Sources.ACTIVE None srcs c0 E0) in Hc.
           inversion Hc; subst. simpl. auto.
        -- rewrite (update_absent now sid Sources.ACTIVE None srcs E0) in Hc. congruence.
    + eapply Hcons; [apply queried_step| |exact H].
      unfold answered_nothing. rewrite Hfetch. exact I.
Qed.
End FallbackResult.


Lemma find_source_in (srcs : Sources.sources) id c :
  NoDup (map fst srcs) -> In (id, c) srcs -> Sources.find_source id srcs = Some c.
Proof.
  induction srcs as [|[k c0] srcs IH]; simpl; intros Hnd Hin; [destruct Hin|].
  inversion Hnd as [|? ? Hni Hnd']; subst.
  destruct Hin as [Heq|Hin].
  - inversion Heq; subst. rewrite String.eqb_refl. reflexivity.
  - destruct (String.eqb_spec k id) as [->|Hne].
    + exfalso. apply Hni. apply (in_map fst) in Hin. exact Hin.
    + apply IH; assumption.
Qed.

(** Selecting entries of a registry keeps its ids distinct. *)
Lemma selected_ids_distinct (keep : string * Sources.DataSourceConfig -> bool)
    (srcs : Sources.sources) :
  NoDup (map fst srcs) -> NoDup (map fst (filter keep srcs)).
Proof.
  intros Hd. induction srcs as [|sc srcs IH]; cbn [filter map] in *; [exact Hd|].
  apply NoDup_cons_iff in Hd. destruct Hd as [Hfresh Hrest].
  specialize (IH Hrest).
  destruct (keep sc); cbn [map]; [|exact IH].
  apply NoDup_cons; [|exact IH].
  intros Hin. apply Hfresh. rewrite in_map_iff in *.
  destruct Hin as [sc' [Hid Hsel]]. exists sc'. split; [exact Hid|].
  apply filter_In in Hsel. exact (proj1 Hsel).
Qed.

Section FallbackHealth.
Variable fetch : string -> Sources.fetch_outcome.
Variable now : Z.

(** A source as the loop may leave it: as it was, active and clean, or in
    error after one failure. *)
Let left_as (cur : Sources.sources) (id : string) (c' : Sources.DataSourceConfig) : Prop :=
  Sources.find_source id cur = Some c' \/
  (Sources.status c' = Sources.ACTIVE /\ Sources.error_count c' = 0) \/
  (Sources.status c' = Sources.ERROR /\ Sources.error_count c' = 1).

Lemma fallback_loop_health (todo : list string) :
  forall cur tr df srcs' tr',
    NoDup todo ->
    (forall id, In id todo ->
       exists c, Sources.find_source id cur = Some c /\
                 Sources.status c = Sources.ACTIVE /\
                 Sources.error_count c = 0 /\ 2 <= Sources.max_retries c) ->
    Sources.fallback_loop fetch now todo cur tr = (df, srcs', tr') ->
    forall id c', Sources.find_source id srcs' = Some c' -> left_as cur id c'.
Proof.
  induction todo as [|sid todo IH]; intros cur tr df srcs' tr' Hnd Hinv H id c' Hc;
    simpl in H.
  - inversion H; subst. left. exact Hc.
  - inversion Hnd as [|? ? Hni Hnd']; subst.
    destruct (Hinv sid (or_introl eq_refl)) as [c [Hfc [Hst [Hcnt Hmax]]]].
    assert (Hrest : forall s1,
              (forall id', id' <> sid ->
                 Sources.find_source id' s1 = Sources.find_source id' cur) ->
              forall id', In id' todo ->
                exists c0, Sources.find_source id' s1 = Some c0 /\
                           Sources.status c0 = Sources.ACTIVE /\
                           Sources.error_count c0 = 0 /\ 2 <= Sources.max_retries c0).
    { intros s1 Hs1 id' Hin. rewrite Hs1 by (intros ->; contradiction).
      apply Hinv. right. exact Hin. }
    assert (Hfail : forall msg tr1,
              Sources.fallback_loop fetch now todo
                (Sources.update_source_status now sid Sources.ERROR msg cur) tr1
              = (df, srcs', tr') -> left_as cur id c').
    { intros msg tr1 Hloop.
      pose proof (IH _ _ _ _ _ Hnd'
                    (Hrest _ (fun id' Hne => find_update_other now sid id' _ _ cur Hne))
                    Hloop id c' Hc) as [Hsame|Hother]; [|right; exact Hother].
      destruct (String.eqb_spec id sid) as [->|Hne].
      - rewrite (find_update_same now sid _ _ cur c Hfc) in Hsame.
        inversion Hsame; subst. right. right. simpl. split; [reflexivity|lia].
      - rewrite find_update_other in Hsame by exact Hne. left. exact Hsame. }
    destruct (String.eqb sid "jsl" || String.eqb sid "eastmoney").
    + destruct (fetch sid) as [result|msg].
      * destruct (Frame.empty result); cbn [negb] in H.
        -- eapply Hfail. exact H.
        -- inversion H; subst.
           destruct (String.eqb_spec id sid) as [->|Hne].
           ++ rewrite (find_update_same now sid _ _ cur c Hfc) in Hc.
              inversion Hc; subst. right. left. simpl. auto.
           ++ rewrite find_update_other in Hc by exact Hne. left. exact Hc.
      * rewrite (find_update_same now sid _ _ cur c Hfc) in H.
        cbn [Sources.update_config Sources.max_retries Sources.error_count] in H.
        destruct (Z.leb_spec (Sources.max_retries c) (Sources.error_count c + 1));
          [lia|].
        eapply Hfail. exact H.
    + pose proof (IH _ _ _ _ _ Hnd' (fun id' Hin => Hinv id' (or_intror Hin)) H id c' Hc)
        as Hl. exact Hl.
Qed.
End FallbackHealth.

(** X4.  In a registry with distinct ids where every active source has a
    zero error counter and a retry budget of at least two,
    [get_bond_list_with_fallback] leaves each source as it was, or active
    with a zero counter, or in error with a counter of one: it sets no source
    inactive, whatever the providers do. *)
Theorem fallback_never_deactivates
    (fetch : string -> Sources.fetch_outcome) (now : Z) (srcs : Sources.sources)
    (Hnodup : NoDup (map fst srcs)) (Hhealthy : healthy_registry srcs) :
  forall id c',
    Sources.find_source id
      (snd (fst (Sources.get_bond_list_with_fallback fetch now srcs))) = Some c' ->
    (Sources.find_source id srcs = Some c' \/
     (Sources.status c' = Sources.ACTIVE /\ Sources.error_count c' = 0) \/
     (Sources.status c' = Sources.ERROR /\ Sources.error_count c' = 1)) /\
    (Sources.status c' = Sources.INACTIVE -> Sources.find_source id srcs = Some c').
Proof.
  intros id c' Hc. unfold Sources.get_bond_list_with_fallback in Hc.
  destruct (Sources.fallback_loop fetch now _ srcs []) as [[df srcs'] tr] eqn:E.
  cbn [fst snd] in Hc.
  assert (Hperm : Permutation (map fst (Sources.get_source_by_priority srcs))
                    (map fst (filter (fun sc => Sources.status_eqb (Sources.status (snd sc))
                                                  Sources.ACTIVE) srcs))).
  { apply Permutation_map. apply sort_by_priority_perm. }
  assert (Hl : Sources.find_source id srcs = Some c' \/
               (Sources.status c' = Sources.ACTIVE /\ Sources.error_count c' = 0) \/
               (Sources.status c' = Sources.ERROR /\ Sources.error_count c' = 1)).
  { eapply (fallback_loop_health fetch now); [| |exact E|exact Hc].
    - eapply Permutation_NoDup; [apply Permutation_sym; exact Hperm|].
      apply selected_ids_distinct. exact Hnodup.
    - intros id' Hin. apply in_map_iff in Hin. destruct Hin as [[k c] [Hk Hin]].
      simpl in Hk. subst k. apply listing_only_active in Hin. destruct Hin as [Hin Hact].
      exists c. split; [apply find_source_in; assumption|].
      unfold healthy_registry in Hhealthy. rewrite Forall_forall in Hhealthy.
      destruct (Hhealthy _ Hin Hact) as [H0 H2]. auto. }
  split; [exact Hl|].
  intros Hina. destruct Hl as [H|[[H _]|[H _]]]; [exact H|congruence|congruence].
Qed.

Lemma fallback_never_deactivates_witness :
  NoDup (map fst Sources._initialize_sources) /\
  healthy_registry Sources._initialize_sources /\
  forall id c',
    Sources.find_source id
      (snd (fst (Sources.get_bond_list_with_fallback
                   (fun _ => Sources.Raised "timed out") 0 Sources._initialize_sources)))
    = Some c' ->
    Sources.status c' = Sources.INACTIVE ->
    Sources.find_source id Sources._initialize_sources = Some c'.
Proof.
  assert (Hnd : NoDup (map fst Sources._initialize_sources)).
  { simpl. repeat constructor; simpl; intuition discriminate. }
  assert (Hh : healthy_registry Sources._initialize_sources).
  { unfold healthy_registry. repeat constructor; simpl; lia. }
  split; [exact Hnd|]. split; [exact Hh|].
  intros id c' Hc.
  exact (proj2 (fallback_never_deactivates (fun _ => Sources.Raised "timed out") 0
                  Sources._initialize_sources Hnd Hh id c' Hc)).
Defined.

(* ================================================================== *)
(** * Further properties of the retrying call wrapper *)
(* ================================================================== *)

Lemma delays_app (a b : list Fetcher.event) : delays (a ++ b) = delays a ++ delays b.
Proof. unfold delays. apply flat_map_app. Qed.

Lemma backoff_sum (n : nat) : forall d,
  Pipeline.Qsum (backoff d n) == d * (inject_Z (2 ^ Z.of_nat n) - 1).
Proof.
  induction n as [|n IH]; intros d.
  - simpl. ring.
  - cbn [backoff Pipeline.Qsum fold_right]. fold (Pipeline.Qsum (backoff (d * (2 # 1)) n)).
    rewrite IH. rewrite Nat2Z.inj_succ, Z.pow_succ_r by lia.
    rewrite inject_Z_mult. change (inject_Z 2) with (2 # 1). ring.
Qed.

Section RetryFacts.
Variable func : Fetcher.kwargs -> nat -> Fetcher.call_outcome.
Variable func_has_timeout : bool.
Variable max_retries : Z.
Variable kw : Fetcher.kwargs.

Let ckw' := Fetcher.call_kwargs_of func_has_timeout kw.
Let loop' := Fetcher.retry_loop func func_has_timeout max_retries kw.

Lemma retry_loop_success (k : nat) : forall fuel attempt delay tr r,
  (k < fuel)%nat ->
  Z.of_nat (attempt + k) < max_retries ->
  (forall j, (j < k)%nat ->
     exists e', func ckw' (attempt + j) = Fetcher.Throws e' /\
                Fetcher.classify e' <> Fetcher.Terminal) ->
  func ckw' (attempt + k) = Fetcher.Returns r ->
  fst (loop' fuel attempt delay tr) = r /\
  Fetcher.calls (snd (loop' fuel attempt delay tr)) = (Fetcher.calls tr + S k)%nat /\
  delays (snd (loop' fuel attempt delay tr)) = delays tr ++ backoff delay k ++ [1 # 2].
Proof.
  induction k as [|k IH]; intros fuel attempt delay tr r Hk Hmax Hpre Hr;
    (destruct fuel as [|fuel]; [lia|]);
    unfold loop'; cbn [Fetcher.retry_loop]; fold loop'; fold ckw'.
  - rewrite Nat.add_0_r in Hr. rewrite Hr. cbn [fst snd].
    split; [reflexivity|]. split.
    + rewrite calls_sleep, calls_call. lia.
    + rewrite !delays_app. simpl. rewrite app_nil_r. reflexivity.
  - destruct (Hpre 0%nat) as [e0 [He0 Hc0]]; [lia|].
    rewrite Nat.add_0_r in He0. rewrite He0.
    assert (Hlt : (Z.of_nat attempt <? max_retries - 1) = true) by (apply Z.ltb_lt; lia).
    assert (Ek : (S attempt + k)%nat = (attempt + S k)%nat) by lia.
    assert (A0 : (k < fuel)%nat) by lia.
    assert (A1 : Z.of_nat (S attempt + k) < max_retries) by (rewrite Ek; exact Hmax).
    assert (A2 : forall j, (j < k)%nat ->
              exists e', func ckw' (S attempt + j) = Fetcher.Throws e' /\
                         Fetcher.classify e' <> Fetcher.Terminal).
    { intros j Hj. replace (S attempt + j)%nat with (attempt + S j)%nat by lia.
      apply Hpre. lia. }
    assert (A3 : func ckw' (S attempt + k) = Fetcher.Returns r) by (rewrite Ek; exact Hr).
    destruct (IH fuel (S attempt) (delay * (2 # 1))%Q
                ((tr ++ [Fetcher.Call ckw']) ++ [Fetcher.Sleep delay]) r A0 A1 A2 A3)
      as [H1 [H2 H3]].
    assert (Hgoal :
      fst (loop' fuel (S attempt) (delay * (2 # 1))%Q
             ((tr ++ [Fetcher.Call ckw']) ++ [Fetcher.Sleep delay])) = r /\
      Fetcher.calls (snd (loop' fuel (S attempt) (delay * (2 # 1))%Q
             ((tr ++ [Fetcher.Call ckw']) ++ [Fetcher.Sleep delay])))
      = (Fetcher.calls tr + S (S k))%nat /\
      delays (snd (loop' fuel (S attempt) (delay * (2 # 1))%Q
             ((tr ++ [Fetcher.Call ckw']) ++ [Fetcher.Sleep delay])))
      = delays tr ++ backoff delay (S k) ++ [1 # 2]).
    { split; [exact H1|]. split.
      - rewrite H2, calls_sleep, calls_call. lia.
      - rewrite H3, !delays_app. simpl. rewrite app_nil_r, <- app_assoc. reflexivity. }
    destruct (Fetcher.classify e0); try congruence; rewrite Hlt; exact Hgoal.
Qed.

Lemma retry_loop_exhausted (fuel : nat) : forall attempt delay tr,
  Z.of_nat (attempt + fuel) = max_retries ->
  (forall j, (attempt <= j < attempt + fuel)%nat ->
     exists e, func ckw' j = Fetcher.Throws e /\ Fetcher.classify e <> Fetcher.Terminal) ->
  fst (loop' fuel attempt delay tr) = Frame.empty_frame /\
  Fetcher.calls (snd (loop' fuel attempt delay tr)) = (Fetcher.calls tr + fuel)%nat /\
  delays (snd (loop' fuel attempt delay tr)) = delays tr ++ backoff delay (pred fuel).
Proof.
  induction fuel as [|fuel IH]; intros attempt delay tr Hsum Hall;
    unfold loop'; cbn [Fetcher.retry_loop]; fold loop'; fold ckw'.
  - cbn [fst snd pred backoff]. rewrite app_nil_r. split; [reflexivity|]. split; [lia|reflexivity].
  - destruct (Hall attempt) as [e [He Hc]]; [lia|]. rewrite He.
    destruct fuel as [|fuel].
    + assert (Hlt : (Z.of_nat attempt <? max_retries - 1) = false) by (apply Z.ltb_ge; lia).
      assert (Hgoal :
        fst (Frame.empty_frame, tr ++ [Fetcher.Call ckw']) = Frame.empty_frame /\
        Fetcher.calls (snd (Frame.empty_frame, tr ++ [Fetcher.Call ckw']))
        = (Fetcher.calls tr + 1)%nat /\
        delays (snd (Frame.empty_frame, tr ++ [Fetcher.Call ckw']))
        = delays tr ++ backoff delay (pred 1)).
      { cbn [fst snd pred backoff]. split; [reflexivity|]. split.
        - rewrite calls_call. lia.
        - rewrite delays_app. reflexivity. }
      destruct (Fetcher.classify e); try congruence; rewrite Hlt; exact Hgoal.
    + assert (Hlt : (Z.of_nat attempt <? max_retries - 1) = true) by (apply Z.ltb_lt; lia).
      destruct (IH (S attempt) (delay * (2 # 1))%Q
                  ((tr ++ [Fetcher.Call ckw']) ++ [Fetcher.Sleep delay])) as [H1 [H2 H3]].
      { rewrite <- Hsum. f_equal. lia. }
      { intros j Hj. apply Hall. lia. }
      assert (Hgoal :
        fst (loop' (S fuel) (S attempt) (delay * (2 # 1))%Q
               ((tr ++ [Fetcher.Call ckw']) ++ [Fetcher.Sleep delay])) = Frame.empty_frame /\
        Fetcher.calls (snd (loop' (S fuel) (S attempt) (delay * (2 # 1))%Q
               ((tr ++ [Fetcher.Call ckw']) ++ [Fetcher.Sleep delay])))
        = (Fetcher.calls tr + S (S fuel))%nat /\
        delays (snd (loop' (S fuel) (S attempt) (delay * (2 # 1))%Q
               ((tr ++ [Fetcher.Call ckw']) ++ [Fetcher.Sleep delay])))
        = delays tr ++ backoff delay (pred (S (S fuel)))).
      { split; [exact H1|]. split.
        - rewrite H2, calls_sleep, calls_call. lia.
        - rewrite H3, !delays_app. simpl. rewrite app_nil_r, <- app_assoc. reflexivity. }
      destruct (Fetcher.classify e); try congruence; rewrite Hlt; exact Hgoal.
Qed.
End RetryFacts.





(* ================================================================== *)
(** * Further properties of the cleaners *)
(* ================================================================== *)

Lemma numeric_map_to_numeric (parse : string -> option Q) (l : list Frame.cell) :
  numeric (map (Pipeline.to_numeric parse) l) = true.
Proof.
  induction l as [|c l IH]; simpl; [reflexivity|]. rewrite IH.
  destruct c as [|q|s]; simpl; try reflexivity. destruct (parse s); reflexivity.
Qed.

Lemma numeric_map_times100 (l : list Frame.cell) :
  numeric l = true -> numeric (map Pipeline.times100 l) = true.
Proof.
  induction l as [|c l IH]; simpl; [reflexivity|].
  intros H. apply andb_true_iff in H. destruct H as [Hc H].
  rewrite (IH H). destruct c; simpl in *; congruence.
Qed.

Lemma format_rows_length (to_date : Frame.cell -> option Frame.cell) (rs : list Frame.row) :
  forall rs', Pipeline.format_rows to_date rs = Frame.Ok rs' ->
              List.length rs' = List.length rs.
Proof.
  induction rs as [|r rs IH]; intros rs' H; simpl in H.
  - inversion H. reflexivity.
  - destruct (to_date (Frame.get "trade_date" r)) as [d|]; [|discriminate].
    destruct (Pipeline.format_rows to_date rs) as [out|]; [|discriminate].
    simpl in H. inversion H; subst. simpl. rewrite (IH out eq_refl). reflexivity.
Qed.


Section CoercionFacts.
Variable parse : string -> option Q.
Variable to_date : Frame.cell -> option Frame.cell.

(** What one step over a numeric column keeps and what it establishes. *)
Let step_ok (col : string) (df df' : Frame.DataFrame) : Prop :=
  Frame.columns df' = Frame.columns df /\
  List.length (Frame.rows df') = List.length (Frame.rows df) /\
  (forall c, c <> col -> Frame.column c df' = Frame.column c df) /\
  (Frame.mem col (Frame.columns df) = true -> numeric (Frame.column col df') = true) /\
  (Frame.mem col (Frame.columns df) = false -> df' = df).

Lemma clean_numeric_step (col : string) (df df' : Frame.DataFrame) :
  Pipeline.clean_numeric parse col df = Frame.Ok df' -> step_ok col df df'.
Proof.
  unfold Pipeline.clean_numeric, step_ok.
  destruct (Frame.mem col (Frame.columns df)) eqn:Hm.
  - destruct (Frame.duplicated col (Frame.columns df)); [discriminate|].
    destruct (_ && _); intros H; inversion H; subst; clear H.
    + split; [reflexivity|]. split; [cbn; rewrite !length_map; reflexivity|].
      split; [|split; [|discriminate]].
      * intros c Hc. rewrite !column_map_column_other by congruence. reflexivity.
      * intros _. rewrite !column_map_column_same.
        apply numeric_map_times100, numeric_map_to_numeric.
    + split; [reflexivity|]. split; [cbn; rewrite !length_map; reflexivity|].
      split; [|split; [|discriminate]].
      * intros c Hc. rewrite column_map_column_other by congruence. reflexivity.
      * intros _. rewrite column_map_column_same. apply numeric_map_to_numeric.
  - intros H. inversion H; subst.
    split; [reflexivity|]. split; [reflexivity|]. split; [reflexivity|].
    split; [discriminate|reflexivity].
Qed.

Lemma coerce_numeric_step (col : string) (df df' : Frame.DataFrame) :
  Pipeline.coerce_numeric parse col df = Frame.Ok df' -> step_ok col df df'.
Proof.
  unfold Pipeline.coerce_numeric, step_ok.
  destruct (Frame.mem col (Frame.columns df)) eqn:Hm.
  - destruct (Frame.duplicated col (Frame.columns df)); [discriminate|].
    intros H; inversion H; subst; clear H.
    split; [reflexivity|]. split; [cbn; rewrite !length_map; reflexivity|].
    split; [|split; [|discriminate]].
    + intros c Hc. rewrite column_map_column_other by congruence. reflexivity.
    + intros _. rewrite column_map_column_same. apply numeric_map_to_numeric.
  - intros H. inversion H; subst.
    split; [reflexivity|]. split; [reflexivity|]. split; [reflexivity|].
    split; [discriminate|reflexivity].
Qed.

(** A loop of such steps over [cols]. *)
Lemma steps_numeric
    (step : string -> Frame.DataFrame -> Frame.outcome Frame.DataFrame)
    (Hstep : forall col df df', step col df = Frame.Ok df' -> step_ok col df df')
    (loop : list string -> Frame.DataFrame -> Frame.outcome Frame.DataFrame)
    (Hnil : forall df, loop [] df = Frame.Ok df)
    (Hcons : forall col cols df, loop (col :: cols) df = Frame.bind (step col df) (loop cols))
    (cols : list string) :
  forall df df',
    loop cols df = Frame.Ok df' ->
    Frame.columns df' = Frame.columns df /\
    List.length (Frame.rows df') = List.length (Frame.rows df) /\
    (forall c, ~ In c cols -> Frame.column c df' = Frame.column c df) /\
    (forall c, numeric (Frame.column c df) = true -> numeric (Frame.column c df') = true) /\
    (forall c, In c cols -> Frame.mem c (Frame.columns df) = true ->
               numeric (Frame.column c df') = true).
Proof.
  induction cols as [|col cols IH]; intros df df' H.
  - rewrite Hnil in H. inversion H; subst.
    split; [reflexivity|]. split; [reflexivity|]. split; [reflexivity|].
    split; [auto|intros c []].
  - rewrite Hcons in H. destruct (step col df) as [df1|] eqn:E; [|discriminate].
    simpl in H. apply Hstep in E. destruct E as [E1 [E2 [E3 [E4 E5]]]].
    destruct (IH _ _ H) as [I1 [I2 [I3 [I4 I5]]]].
    assert (Hkeep : forall c, numeric (Frame.column c df) = true ->
                              numeric (Frame.column c df1) = true).
    { intros c Hc. destruct (string_dec c col) as [->|Hne].
      - destruct (Frame.mem col (Frame.columns df)) eqn:Hm; [apply E4; reflexivity|].
        rewrite (E5 eq_refl). exact Hc.
      - rewrite E3 by exact Hne. exact Hc. }
    split; [congruence|]. split; [congruence|]. split; [|split].
    + intros c Hc. rewrite I3 by (intros Hin; apply Hc; right; exact Hin).
      apply E3. intros ->. apply Hc. left. reflexivity.
    + intros c Hc. apply I4, Hkeep, Hc.
    + intros c [->|Hin] Hm.
      * apply I4, E4, Hm.
      * apply I5; [exact Hin|congruence].
Qed.

Lemma clean_numeric_cols_numeric (cols : list string) (df df' : Frame.DataFrame) :
  Pipeline.clean_numeric_cols parse cols df = Frame.Ok df' ->
  Frame.columns df' = Frame.columns df /\
  List.length (Frame.rows df') = List.length (Frame.rows df) /\
  (forall c, ~ In c cols -> Frame.column c df' = Frame.column c df) /\
  (forall c, numeric (Frame.column c df) = true -> numeric (Frame.column c df') = true) /\
  (forall c, In c cols -> Frame.mem c (Frame.columns df) = true ->
             numeric (Frame.column c df') = true).
Proof.
  apply (steps_numeric (Pipeline.clean_numeric parse) clean_numeric_step
           (Pipeline.clean_numeric_cols parse)); reflexivity.
Qed.

Lemma coerce_numeric_cols_numeric (cols : list string) (df df' : Frame.DataFrame) :
  Pipeline.coerce_numeric_cols parse cols df = Frame.Ok df' ->
  Frame.columns df' = Frame.columns df /\
  List.length (Frame.rows df') = List.length (Frame.rows df) /\
  (forall c, ~ In c cols -> Frame.column c df' = Frame.column c df) /\
  (forall c, numeric (Frame.column c df) = true -> numeric (Frame.column c df') = true) /\
  (forall c, In c cols -> Frame.mem c (Frame.columns df) = true ->
             numeric (Frame.column c df') = true).
Proof.
  apply (steps_numeric (Pipeline.coerce_numeric parse) coerce_numeric_step
           (Pipeline.coerce_numeric_cols parse)); reflexivity.
Qed.

Lemma format_dates_frame (df df' : Frame.DataFrame) :
  Pipeline.format_dates to_date df = Frame.Ok df' ->
  Frame.columns df' = Frame.columns df /\
  List.length (Frame.rows df') = List.length (Frame.rows df) /\
  (forall c, c <> "trade_date" -> Frame.column c df' = Frame.column c df).
Proof.
  unfold Pipeline.format_dates.
  destruct (Frame.mem "trade_date" (Frame.columns df)).
  2:{ intros H. inversion H; subst. auto. }
  destruct (Frame.duplicated "trade_date" (Frame.columns df)); [discriminate|].
  destruct (Pipeline.format_rows to_date (Frame.rows df)) as [rs|] eqn:E; [|discriminate].
  simpl. intros H. inversion H; subst. cbn [Frame.columns Frame.rows].
  split; [reflexivity|]. split; [eapply format_rows_length; exact E|].
  intros c Hc. unfold Frame.column. cbn [Frame.rows].
  eapply format_rows_other; eassumption.
Qed.
End CoercionFacts.

(** X7.  A table [_clean_bond_history_data] returns for an input with rows
    is either the empty table, when no date column is left after renaming, or
    a table with the renamed columns and as many rows as the input, in which
    no numeric column holds a text: every cell of [open_price], [high_price],
    [low_price], [price], [volume], [turnover] and [turnover_rate] is a number
    or null. *)
Theorem clean_bond_history_numeric
    (parse : string -> option Q) (to_date : Frame.cell -> option Frame.cell)
    (df out : Frame.DataFrame)
    (Hne : Frame.empty df = false)
    (Hclean : Pipeline._clean_bond_history_data parse to_date df = Frame.Ok out) :
  let renamed := Frame.rename Pipeline.column_mapping df in
  (Frame.mem "trade_date" (Frame.columns renamed) = false -> out = Frame.empty_frame) /\
  (Frame.mem "trade_date" (Frame.columns renamed) = true ->
     Frame.columns out = Frame.columns renamed /\
     List.length (Frame.rows out) = List.length (Frame.rows df) /\
     forall c, In c Pipeline.numeric_cols -> Frame.mem c (Frame.columns out) = true ->
               numeric (Frame.column c out) = true).
Proof.
  intros renamed. unfold Pipeline._clean_bond_history_data in Hclean.
  rewrite Hne in Hclean. fold renamed in Hclean.
  destruct (Pipeline.clean_numeric_cols parse Pipeline.numeric_cols renamed) as [df1|] eqn:E;
    [|discriminate].
  cbn [Frame.bind] in Hclean.
  destruct (clean_numeric_cols_numeric parse _ _ _ E) as [E1 [E2 [E3 [E4 E5]]]].
  rewrite E1 in Hclean.
  destruct (Frame.mem "trade_date" (Frame.columns renamed)) eqn:Hd.
  - split; [discriminate|]. intros _.
    destruct (Frame.duplicated "trade_date" (Frame.columns renamed)); [discriminate|].
    destruct (Pipeline.format_rows to_date (Frame.rows df1)) as [rs|] eqn:Ef; [|discriminate].
    cbn [Frame.bind] in Hclean.
    assert (Hout : out = Frame.mkDF (Frame.columns renamed) rs) by congruence.
    subst out. clear Hclean. cbn [Frame.columns Frame.rows].
    split; [reflexivity|]. split.
    + rewrite (format_rows_length to_date _ _ Ef), E2. unfold renamed. cbn [Frame.rename Frame.rows].
      apply length_map.
    + intros c Hin Hm. unfold Frame.column. cbn [Frame.rows].
      rewrite (format_rows_other to_date c (Frame.rows df1) rs); [|
        intros ->; simpl in Hin; intuition discriminate|exact Ef].
      apply E5; [exact Hin|congruence].
  - split; [|discriminate]. intros _. inversion Hclean. reflexivity.
Qed.

Lemma clean_bond_history_numeric_witness :
  exists out,
    Pipeline._clean_bond_history_data (fun _ => None) Some
      (quotes "成交量" [Frame.Num (40000 # 1); Frame.Str "n/a"]) = Frame.Ok out /\
    List.length (Frame.rows out) = 2%nat /\
    numeric (Frame.column "volume" out) = true.
Proof.
  eexists. split; [vm_compute; reflexivity|].
  destruct (proj2 (clean_bond_history_numeric (fun _ => None) Some
                     (quotes "成交量" [Frame.Num (40000 # 1); Frame.Str "n/a"]) _
                     eq_refl eq_refl) eq_refl) as [_ [Hlen Hnum]].
  split; [exact Hlen|]. apply Hnum; [simpl; tauto|reflexivity].
Defined.

Lemma get_selected (c : string) (cols : list string) (r : Frame.row) :
  In c cols -> Frame.get c (map (fun k => (k, Frame.get k r)) cols) = Frame.get c r.
Proof.
  intros Hin.
  apply (get_renamed c (fun k => k) r cols); auto.
Qed.

Lemma column_select_columns (c : string) (cols : list string) (df : Frame.DataFrame) :
  In c cols -> Frame.column c (Pipeline.select_columns cols df) = Frame.column c df.
Proof.
  intros Hin. unfold Frame.column, Pipeline.select_columns. cbn [Frame.rows].
  rewrite map_map. apply map_ext. intros r. apply get_selected. exact Hin.
Qed.

Lemma wf_select_columns (cols : list string) (df : Frame.DataFrame) :
  Frame.wf (Pipeline.select_columns cols df) = true.
Proof.
  unfold Frame.wf, Pipeline.select_columns. cbn [Frame.rows Frame.columns].
  apply forallb_forall. intros r Hin. apply in_map_iff in Hin.
  destruct Hin as [r0 [<- _]]. unfold Frame.wf_row.
  destruct (list_eq_dec string_dec _ cols) as [_|Hn]; [reflexivity|].
  exfalso. apply Hn. rewrite map_map. simpl. apply map_id.
Qed.

(** X8.  A table [_clean_stock_history_data] returns is either the empty
    table or a table with exactly the columns [trade_date], [stock_price],
    [stock_chg_pct], in that order, every row carrying exactly these; it has
    as many rows as the input, and its two numeric columns hold numbers and
    nulls only. *)
Theorem clean_stock_history_schema
    (parse : string -> option Q) (to_date : Frame.cell -> option Frame.cell)
    (df out : Frame.DataFrame)
    (Hclean : Pipeline._clean_stock_history_data parse to_date df = Frame.Ok out) :
  out = Frame.empty_frame \/
  (Frame.columns out = ["trade_date"; "stock_price"; "stock_chg_pct"] /\
   Frame.wf out = true /\
   List.length (Frame.rows out) = List.length (Frame.rows df) /\
   numeric (Frame.column "stock_price" out) = true /\
   numeric (Frame.column "stock_chg_pct" out) = true).
Proof.
  unfold Pipeline._clean_stock_history_data in Hclean.
  destruct (Frame.empty df); [left; congruence|].
  set (renamed := Frame.rename Pipeline.stock_column_mapping df) in *.
  destruct (Pipeline.coerce_numeric_cols parse Pipeline.stock_numeric_cols renamed)
    as [df1|] eqn:E; [|discriminate].
  cbn [Frame.bind] in Hclean.
  destruct (Pipeline.format_dates to_date df1) as [df2|] eqn:Ef; [|discriminate].
  cbn [Frame.bind] in Hclean.
  destruct (forallb (fun c => Frame.mem c (Frame.columns df2)) Pipeline.required_cols) eqn:Hall;
    [|left; congruence].
  right.
  assert (Hout : out = Pipeline.select_columns Pipeline.required_cols df2) by congruence.
  subst out. clear Hclean.
  destruct (coerce_numeric_cols_numeric parse _ _ _ E) as [E1 [E2 [_ [_ E5]]]].
  destruct (format_dates_frame to_date _ _ Ef) as [F1 [F2 F3]].
  rewrite forallb_forall in Hall.
  assert (Hmem : forall c, In c Pipeline.required_cols ->
                           Frame.mem c (Frame.columns renamed) = true).
  { intros c Hc. rewrite <- E1, <- F1. apply Hall. exact Hc. }
  split; [reflexivity|]. split; [apply wf_select_columns|]. split.
  - unfold Pipeline.select_columns. cbn [Frame.rows]. rewrite length_map, F2, E2.
    unfold renamed. cbn [Frame.rename Frame.rows]. apply length_map.
  - split.
    + rewrite column_select_columns by (simpl; tauto).
      rewrite F3 by discriminate. apply E5; [simpl; tauto|].
      apply Hmem. simpl. tauto.
    + rewrite column_select_columns by (simpl; tauto).
      rewrite F3 by discriminate. apply E5; [simpl; tauto|].
      apply Hmem. simpl. tauto.
Qed.

Lemma clean_stock_history_schema_witness :
  exists out,
    Pipeline._clean_stock_history_data (fun _ => None) Some
      (Frame.mkDF ["日期"; "收盘"; "涨跌幅"; "成交量"]
         [[("日期", Frame.Str "2024-01-02"); ("收盘", Frame.Str "12.5");
           ("涨跌幅", Frame.Num (1 # 2)); ("成交量", Frame.Num (100 # 1))]])
    = Frame.Ok out /\
    Frame.columns out = ["trade_date"; "stock_price"; "stock_chg_pct"] /\
    List.length (Frame.rows out) = 1%nat.
Proof.
  eexists. split; [vm_compute; reflexivity|].
  destruct (clean_stock_history_schema (fun _ => None) Some
              (Frame.mkDF ["日期"; "收盘"; "涨跌幅"; "成交量"]
                 [[("日期", Frame.Str "2024-01-02"); ("收盘", Frame.Str "12.5");
                   ("涨跌幅", Frame.Num (1 # 2)); ("成交量", Frame.Num (100 # 1))]])
              _ eq_refl) as [Hempty|[Hc [_ [Hl _]]]].
  - discriminate Hempty.
  - split; [exact Hc|exact Hl].
Defined.

(* ================================================================== *)
(** * Further properties of merging *)
(* ================================================================== *)

Lemma flat_map_length_ge {A B : Type} (f : A -> list B) (l : list A) :
  (forall a, (1 <= List.length (f a))%nat) ->
  (List.length l <= List.length (flat_map f l))%nat.
Proof.
  intros Hf. induction l as [|a l IH]; simpl; [lia|].
  rewrite length_app. specialize (Hf a). lia.
Qed.

Lemma merge_left_length (left right : Frame.DataFrame) (on lsuffix rsuffix : string)
    (merged : Frame.DataFrame) :
  Pipeline.merge_left left right on lsuffix rsuffix = Frame.Ok merged ->
  (List.length (Frame.rows left) <= List.length (Frame.rows merged))%nat.
Proof.
  unfold Pipeline.merge_left.
  destruct (Frame.mem on (Frame.columns left) && Frame.mem on (Frame.columns right));
    [|discriminate].
  intros H. inversion H; subst. cbn [Frame.rows].
  apply flat_map_length_ge. intros l.
  destruct (filter _ (Frame.rows right)); simpl; lia.
Qed.

Lemma merge_price_length (hist_df value_df merged : Frame.DataFrame) :
  Pipeline.merge_price hist_df value_df = Frame.Ok merged ->
  (List.length (Frame.rows hist_df) <= List.length (Frame.rows merged))%nat.
Proof.
  unfold Pipeline.merge_price.
  destruct (Pipeline.merge_left hist_df value_df "trade_date" "" "_val") as [m|] eqn:E;
    [|discriminate].
  apply merge_left_length in E. cbn [Frame.bind].
  destruct (_ && _); intros H; inversion H; subst; [|exact E].
  unfold Frame.drop_column, Pipeline.fillna_from. cbn [Frame.rows].
  rewrite !length_map. exact E.
Qed.

Lemma broadcast_length (bond_info : list (string * Frame.cell)) : forall df,
  List.length (Frame.rows (Pipeline.broadcast bond_info df)) = List.length (Frame.rows df).
Proof.
  unfold Pipeline.broadcast.
  induction bond_info as [|kv info IH]; intros df; simpl; [reflexivity|].
  rewrite IH. unfold Frame.set_scalar. cbn [Frame.rows]. apply length_map.
Qed.

Lemma as_series_length (cs : list Frame.cell) : forall s,
  Frame.as_series cs = Frame.Ok s -> List.length s = List.length cs.
Proof.
  induction cs as [|c cs IH]; intros s H; simpl in H.
  - inversion H. reflexivity.
  - destruct c as [|q|t]; [| |discriminate];
      (destruct (Frame.as_series cs) as [s'|]; [|discriminate]);
      simpl in H; inversion H; subst; simpl; rewrite (IH s' eq_refl); reflexivity.
Qed.

Lemma derived_metrics_length (pad : bool) (pct_div0 : Q -> Frame.cell)
    (df out : Frame.DataFrame) :
  Pipeline._calculate_derived_metrics pad pct_div0 df = Frame.Ok out ->
  List.length (Frame.rows out) = List.length (Frame.rows df).
Proof.
  unfold Pipeline._calculate_derived_metrics.
  destruct (Frame.empty df); [intros H; inversion H; reflexivity|].
  destruct (negb (Frame.mem "trade_date" (Frame.columns df))); [discriminate|].
  destruct (negb (Pipeline.sortable (Frame.column "trade_date" df))); [discriminate|].
  set (sdf := Frame.mkDF (Frame.columns df) (Pipeline.sort_values "trade_date" (Frame.rows df))).
  assert (Hs : List.length (Frame.rows sdf) = List.length (Frame.rows df))
    by apply sort_values_length.
  assert (Hfirst : forall df1,
            (if Frame.mem "price" (Frame.columns sdf)
             then Frame.bind (Frame.as_series (Frame.column "price" sdf)) (fun s =>
                    Frame.Ok (Frame.set_column "price_chg_pct"
                                (Pipeline.pct_change100 pad pct_div0 s) sdf))
             else Frame.Ok sdf) = Frame.Ok df1 ->
            List.length (Frame.rows df1) = List.length (Frame.rows df)).
  { intros df1. destruct (Frame.mem "price" (Frame.columns sdf)).
    - destruct (Frame.as_series (Frame.column "price" sdf)) as [s|] eqn:Es; [|discriminate].
      cbn [Frame.bind]. intros H. inversion H; subst. cbn [Frame.set_column Frame.rows].
      rewrite set_rows_length; [exact Hs|].
      rewrite pct_change100_length, (as_series_length _ _ Es).
      unfold Frame.column. apply length_map.
    - intros H. inversion H; subst. exact Hs. }
  destruct (if Frame.mem "price" (Frame.columns sdf) then _ else _) as [df1|] eqn:E1;
    [|discriminate].
  specialize (Hfirst df1 eq_refl). cbn [Frame.bind].
  destruct (Frame.mem "price" (Frame.columns df1) && Frame.mem "premium_rate" (Frame.columns df1));
    [|intros H; inversion H; subst; exact Hfirst].
  destruct (Frame.as_series (Frame.column "price" df1)) as [p|] eqn:Ep; [|discriminate].
  cbn [Frame.bind].
  destruct (Frame.as_series (Frame.column "premium_rate" df1)) as [q|] eqn:Eq; [|discriminate].
  cbn [Frame.bind]. intros H. inversion H; subst. cbn [Frame.set_column Frame.rows].
  apply as_series_length in Ep, Eq. unfold Frame.column in Ep, Eq.
  rewrite length_map in Ep, Eq.
  rewrite set_rows_length; [exact Hfirst|].
  rewrite add_series_length by congruence. exact Ep.
Qed.

(** X9.  [_merge_bond_data] loses no row of its base table: when the primary
    history has rows, the result has at least as many rows as it; when only
    the valuation table has rows, at least as many as that; and when neither
    has, the result is the empty table. *)
Theorem merge_keeps_base_rows
    (pad : bool) (pct_div0 : Q -> Frame.cell)
    (hist_df value_df stock_df : Frame.DataFrame) (bond_info : list (string * Frame.cell))
    (out : Frame.DataFrame)
    (Hmerge : Pipeline._merge_bond_data pad pct_div0 hist_df value_df stock_df bond_info
              = Frame.Ok out) :
  (Frame.empty hist_df = false ->
     (List.length (Frame.rows hist_df) <= List.length (Frame.rows out))%nat) /\
  (Frame.empty hist_df = true -> Frame.empty value_df = false ->
     (List.length (Frame.rows value_df) <= List.length (Frame.rows out))%nat) /\
  (Frame.empty hist_df = true -> Frame.empty value_df = true -> out = Frame.empty_frame).
Proof.
  unfold Pipeline._merge_bond_data in Hmerge.
  assert (Hrest : forall base merged,
            (List.length (Frame.rows base) <= List.length (Frame.rows merged))%nat ->
            Frame.bind
              (if negb (Frame.empty stock_df)
               then Pipeline.merge_left (Pipeline.broadcast bond_info merged) stock_df
                      "trade_date" "_x" "_y"
               else Frame.Ok (Pipeline.broadcast bond_info merged))
              (Pipeline._calculate_derived_metrics pad pct_div0) = Frame.Ok out ->
            (List.length (Frame.rows base) <= List.length (Frame.rows out))%nat).
  { intros base merged Hle H.
    destruct (negb (Frame.empty stock_df)).
    - destruct (Pipeline.merge_left _ stock_df _ _ _) as [m|] eqn:Em; [|discriminate].
      cbn [Frame.bind] in H. apply merge_left_length in Em.
      apply derived_metrics_length in H. rewrite broadcast_length in Em. lia.
    - cbn [Frame.bind] in H. apply derived_metrics_length in H.
      rewrite broadcast_length in H. lia. }
  destruct (Frame.empty hist_df) eqn:Hh, (Frame.empty value_df) eqn:Hv;
    cbn [andb negb Frame.bind] in Hmerge.
  - split; [discriminate|]. split; [discriminate|]. intros _ _. congruence.
  - split; [discriminate|]. split; [|discriminate]. intros _ _.
    eapply Hrest; [|exact Hmerge].
    unfold Frame.rename. cbn [Frame.rows]. rewrite length_map. lia.
  - split; [|split; discriminate]. intros _.
    eapply Hrest; [|exact Hmerge]. lia.
  - split; [|split; discriminate]. intros _.
    destruct (Pipeline.merge_price hist_df value_df) as [m|] eqn:Em; [|discriminate].
    cbn [Frame.bind] in Hmerge. apply merge_price_length in Em.
    eapply Hrest; [exact Em|exact Hmerge].
Qed.

Lemma merge_keeps_base_rows_witness :
  exists out,
    Pipeline._merge_bond_data false (fun _ => Frame.Null) primary_history valuation_history
      Frame.empty_frame [("bond_code", Frame.Str "113001")] = Frame.Ok out /\
    (List.length (Frame.rows primary_history) <= List.length (Frame.rows out))%nat.
Proof.
  eexists. split; [vm_compute; reflexivity|].
  exact (proj1 (merge_keeps_base_rows false (fun _ => Frame.Null) primary_history
                  valuation_history Frame.empty_frame [("bond_code", Frame.Str "113001")]
                  _ eq_refl) eq_refl).
Defined.

(* ================================================================== *)
(** * Further properties of the history calls *)
(* ================================================================== *)

Lemma calls_app (a b : list Fetcher.event) :
  Fetcher.calls (a ++ b) = (Fetcher.calls a + Fetcher.calls b)%nat.
Proof. unfold Fetcher.calls. rewrite filter_app, length_app. reflexivity. Qed.

Lemma retry_loop_call_kwargs
    (func : Fetcher.kwargs -> nat -> Fetcher.call_outcome) (func_has_timeout : bool)
    (max_retries : Z) (kw : Fetcher.kwargs) (fuel : nat) :
  forall attempt delay tr k,
    In (Fetcher.Call k)
       (snd (Fetcher.retry_loop func func_has_timeout max_retries kw fuel attempt delay tr)) ->
    In (Fetcher.Call k) tr \/ k = Fetcher.call_kwargs_of func_has_timeout kw.
Proof.
  induction fuel as [|fuel IH]; intros attempt delay tr k; cbn [Fetcher.retry_loop].
  - cbn [snd]. auto.
  - set (ckw := Fetcher.call_kwargs_of func_has_timeout kw).
    assert (Happ : forall evs,
              In (Fetcher.Call k) ((tr ++ [Fetcher.Call ckw]) ++ evs) ->
              (forall ev, In ev evs -> exists d, ev = Fetcher.Sleep d) ->
              In (Fetcher.Call k) tr \/ k = ckw).
    { intros evs Hin Hev. apply in_app_or in Hin. destruct Hin as [Hin|Hin].
      - apply in_app_or in Hin. destruct Hin as [Hin|[Hin|[]]]; [auto|].
        inversion Hin. auto.
      - destruct (Hev _ Hin) as [d Hd]. discriminate. }
    assert (Hone : In (Fetcher.Call k) (tr ++ [Fetcher.Call ckw]) ->
                   In (Fetcher.Call k) tr \/ k = ckw).
    { intros Hin. apply (Happ []); [rewrite app_nil_r; exact Hin|intros ev []]. }
    assert (Hrec : forall d,
              In (Fetcher.Call k)
                 (snd (Fetcher.retry_loop func func_has_timeout max_retries kw fuel
                         (S attempt) (delay * (2 # 1))%Q
                         ((tr ++ [Fetcher.Call ckw]) ++ [Fetcher.Sleep d]))) ->
              In (Fetcher.Call k) tr \/ k = ckw).
    { intros d Hin. destruct (IH _ _ _ _ Hin) as [Hin'|Hk]; [|auto].
      apply (Happ [Fetcher.Sleep d]); [exact Hin'|].
      intros ev [<-|[]]. eauto. }
    destruct (func ckw attempt) as [r|e]; cbn [snd].
    + intros Hin. apply (Happ [Fetcher.Sleep (1 # 2)]); [exact Hin|].
      intros ev [<-|[]]. eauto.
    + destruct (Fetcher.classify e); cbn [snd]; try exact Hone;
        (destruct (Z.of_nat attempt <? max_retries - 1); cbn [snd];
         [apply Hrec|exact Hone]).
Qed.

Lemma in_tagged (p p' : Pipeline.provider) (ev : Fetcher.event) (tr : list Fetcher.event) :
  In (p, ev) (Pipeline.tagged p' tr) <-> p = p' /\ In ev tr.
Proof.
  unfold Pipeline.tagged. rewrite in_map_iff. split.
  - intros [x [Hx Hin]]. inversion Hx; subst. auto.
  - intros [-> Hin]. exists ev. auto.
Qed.

Lemma map_snd_tagged (p : Pipeline.provider) (tr : list Fetcher.event) :
  map snd (Pipeline.tagged p tr) = tr.
Proof. unfold Pipeline.tagged. rewrite map_map. simpl. apply map_id. Qed.

Lemma robust_call_bound
    (func : Fetcher.kwargs -> nat -> Fetcher.call_outcome) (t : bool) (d : Q)
    (kw : Fetcher.kwargs) :
  (Fetcher.calls (snd (Fetcher.robust_akshare_call func t 3 d kw)) <= 3)%nat.
Proof.
  unfold Fetcher.robust_akshare_call.
  pose proof (retry_loop_calls func t 3 kw (Z.to_nat 3) 0 d []) as H.
  simpl in H. exact H.
Qed.

Lemma robust_call_source
    (func : Fetcher.kwargs -> nat -> Fetcher.call_outcome) (t : bool) (d : Q)
    (kw : Fetcher.kwargs) :
  Frame.empty (fst (Fetcher.robust_akshare_call func t 3 d kw)) = false ->
  exists j, func (Fetcher.call_kwargs_of t kw) j
            = Fetcher.Returns (fst (Fetcher.robust_akshare_call func t 3 d kw)).
Proof.
  unfold Fetcher.robust_akshare_call. intros Hne.
  destruct (retry_loop_source func t 3 kw (Z.to_nat 3) 0 d []) as [He|[j [_ Hj]]].
  - rewrite He in Hne. discriminate.
  - exists j. exact Hj.
Qed.


(* ================================================================== *)
(** * Further properties of saving *)
(* ================================================================== *)

Lemma set_rows_of_keys (name : string) (rs : list Frame.row) (db : Persister.database) :
  map fst (Persister.set_rows_of name rs db) = map fst db.
Proof.
  induction db as [|[k t] db IH]; simpl; [reflexivity|].
  destruct (String.eqb k name); simpl; [reflexivity|rewrite IH; reflexivity].
Qed.

Lemma find_table_set_rows_other (name n : string) (rs : list Frame.row)
    (db : Persister.database) :
  n <> name ->
  Persister.find_table n (Persister.set_rows_of name rs db) = Persister.find_table n db.
Proof.
  intros Hne. induction db as [|[k t] db IH]; simpl; [reflexivity|].
  destruct (String.eqb_spec k name) as [->|Hk]; simpl.
  - destruct (String.eqb_spec name n); [congruence|reflexivity].
  - rewrite IH. reflexivity.
Qed.

Lemma insert_all_count (recs : list Frame.row) : forall stored count,
  count <= snd (Persister.insert_all recs stored count)
        <= count + Z.of_nat (List.length recs).
Proof.
  induction recs as [|r recs IH]; intros stored count; simpl; [lia|].
  destruct (existsb (Persister.same_key r) stored).
  - specialize (IH stored count). lia.
  - specialize (IH (stored ++ [r]) (count + 1)). lia.
Qed.

Section SaveFacts.
Variable astype_str : Frame.cell -> string.
Variable recode : string -> string.
Variable default : string -> Frame.cell.

Lemma sanitize_length (df : Frame.DataFrame) :
  List.length (Frame.rows (Persister.sanitize astype_str recode df))
  = List.length (Frame.rows df).
Proof.
  unfold Persister.sanitize.
  generalize (Frame.columns df) as cols. intros cols. revert df.
  induction cols as [|c cols IH]; intros df; simpl; [reflexivity|].
  rewrite IH. destruct (Persister.is_object (Frame.column c df)); [|reflexivity].
  cbn [Frame.map_column Frame.rows]. apply length_map.
Qed.

Lemma stored_row_keys (t : Persister.Table) (cols : list string) (r : Frame.row) :
  map fst (Persister.stored_row default t cols r) = Persister.t_columns t.
Proof.
  unfold Persister.stored_row. rewrite map_map. simpl. apply map_id.
Qed.

(** The two ways [save_to_database] ends. *)
Lemma save_to_database_cases (df : Frame.DataFrame) (name : string)
    (db : Persister.database) :
  Persister.save_to_database astype_str recode default df name db = (0, db) \/
  exists t added,
    Persister.find_table name db = Some t /\
    Persister.save_to_database astype_str recode default df name db
    = (Z.of_nat (List.length added),
       Persister.set_rows_of name (Persister.t_rows t ++ added) db) /\
    Forall (fun a => map fst a = Persister.t_columns t) added /\
    (List.length added <= List.length (Frame.rows df))%nat.
Proof.
  unfold Persister.save_to_database.
  destruct (Frame.empty df); [left; reflexivity|].
  destruct (Persister.find_table name db) as [t|] eqn:Ht; [|left; reflexivity].
  set (sdf := Persister.sanitize astype_str recode df).
  set (cols := filter (fun col => Frame.mem col (Persister.t_columns t)) (Frame.columns sdf)).
  set (recs := map (Persister.stored_row default t cols) (Frame.rows sdf)).
  destruct recs as [|r0 recs'] eqn:Hrecs; [left; reflexivity|].
  rewrite <- Hrecs.
  destruct (existsb Persister.null_key recs); [left; reflexivity|].
  right.
  destruct (insert_all_spec recs (Persister.t_rows t) 0) as [added [H1 [_ [H3 _]]]].
  pose proof (insert_all_count recs (Persister.t_rows t) 0) as Hcount.
  rewrite H1 in *. cbn [snd] in Hcount.
  exists t, added. split; [reflexivity|]. split; [reflexivity|]. split.
  - apply Forall_forall. intros a Ha. destruct (H3 a Ha) as [Hin _].
    unfold recs in Hin. apply in_map_iff in Hin. destruct Hin as [r [<- _]].
    apply stored_row_keys.
  - assert (Hl : List.length recs = List.length (Frame.rows df)).
    { unfold recs. rewrite length_map. apply sanitize_length. }
    lia.
Qed.
End SaveFacts.

(** X11.  [save_to_database] keeps the tables of the store and their order,
    leaves every table but the named one as it was, and never changes the
    columns of the named table; rows it adds carry exactly the table's
    columns, so input columns outside the schema are dropped.  The count it
    returns is at least 0 and at most the number of input rows. *)
Theorem save_to_database_keeps_schema
    (astype_str : Frame.cell -> string) (recode : string -> string)
    (default : string -> Frame.cell)
    (df : Frame.DataFrame) (table_name : string) (db : Persister.database) :
  let r := Persister.save_to_database astype_str recode default df table_name db in
  map fst (snd r) = map fst db /\
  (forall n, n <> table_name ->
     Persister.find_table n (snd r) = Persister.find_table n db) /\
  (forall t, Persister.find_table table_name db = Some t ->
     exists t', Persister.find_table table_name (snd r) = Some t' /\
       Persister.t_columns t' = Persister.t_columns t /\
       (Forall (fun a => map fst a = Persister.t_columns t) (Persister.t_rows t) ->
        Forall (fun a => map fst a = Persister.t_columns t) (Persister.t_rows t'))) /\
  (Persister.find_table table_name db = None -> r = (0, db)) /\
  0 <= fst r <= Z.of_nat (List.length (Frame.rows df)).
Proof.
  intros r. subst r.
  destruct (save_to_database_cases astype_str recode default df table_name db)
    as [H|[t [added [Ht [H [Hwf Hlen]]]]]]; rewrite H; cbn [fst snd].
  - split; [reflexivity|]. split; [reflexivity|]. split; [|split; [reflexivity|lia]].
    intros t Ht. exists t. auto.
  - split; [apply set_rows_of_keys|].
    split; [intros n Hn; apply find_table_set_rows_other; exact Hn|].
    split; [|split; [congruence|lia]].
    intros t0 Ht0. assert (t0 = t) by congruence. subst t0.
    eexists. split; [apply find_table_set_rows; exact Ht|].
    split; [reflexivity|]. cbn [Persister.t_rows]. intros Hold.
    apply Forall_app. split; assumption.
Qed.

(* ================================================================== *)
(** * Further properties of the archiver *)
(* ================================================================== *)

Lemma row_fill_spec (field : string) (snapshot : list Frame.row) : forall h,
  row_fill field snapshot h
  = if Frame.isna (Frame.get field h)
    then match find (fun r => Frame.notna (Frame.get field r)
                              && Archiver.sql_eqb (Frame.get "bond_code" h)
                                                  (Frame.get "bond_code" r)) snapshot with
         | Some r => Frame.row_set field (Frame.get field r) h
         | None => h
         end
    else h.
Proof.
  unfold row_fill.
  induction snapshot as [|r snap IH]; intros h; simpl.
  - destruct (Frame.isna (Frame.get field h)); reflexivity.
  - destruct (Frame.isna (Frame.get field h)) eqn:Hn.
    + destruct (Frame.notna (Frame.get field r)) eqn:Hv; simpl.
      * destruct (Archiver.sql_eqb (Frame.get "bond_code" h) (Frame.get "bond_code" r));
          simpl.
        -- rewrite IH, get_row_set_same.
           unfold Frame.notna in Hv. apply negb_true_iff in Hv. rewrite Hv. reflexivity.
        -- rewrite IH, Hn. reflexivity.
      * rewrite IH, Hn. reflexivity.
    + destruct (Frame.notna (Frame.get field r)); [rewrite andb_false_r|];
        rewrite IH, Hn; reflexivity.
Qed.

Lemma backfill_field_rows (field : string) (snapshot : list Frame.row) : forall history,
  Archiver.backfill_field field snapshot history = map (row_fill field snapshot) history.
Proof.
  unfold Archiver.backfill_field, row_fill.
  induction snapshot as [|r snap IH]; intros history; simpl.
  - symmetry. apply map_id.
  - rewrite IH. destruct (Frame.notna (Frame.get field r)).
    + unfold Archiver.update_null. rewrite map_map. reflexivity.
    + reflexivity.
Qed.

Lemma backfill_fields_rows (latest_df : Frame.DataFrame) (fields : list string) :
  forall history,
    fold_left
      (fun hist field =>
         if Frame.mem field (Frame.columns latest_df)
         then Archiver.backfill_field field (Frame.rows latest_df) hist
         else hist)
      fields history
    = map (row_fill_fields latest_df fields) history.
Proof.
  unfold row_fill_fields.
  induction fields as [|f fields IH]; intros history; simpl.
  - symmetry. apply map_id.
  - rewrite IH. destruct (Frame.mem f (Frame.columns latest_df)); [|reflexivity].
    rewrite backfill_field_rows, map_map. reflexivity.
Qed.

Section Settling.
Variable latest_df : Frame.DataFrame.

Let fill (field : string) (h : Frame.row) : Frame.row :=
  if Frame.mem field (Frame.columns latest_df)
  then row_fill field (Frame.rows latest_df) h else h.

Lemma fill_other (field c : string) (h : Frame.row) :
  c <> field -> Frame.get c (fill field h) = Frame.get c h.
Proof.
  intros Hne. unfold fill. destruct (Frame.mem field (Frame.columns latest_df)); [|reflexivity].
  rewrite row_fill_spec. destruct (Frame.isna (Frame.get field h)); [|reflexivity].
  destruct (find _ (Frame.rows latest_df)); [|reflexivity].
  apply get_row_set_other. congruence.
Qed.

Lemma fill_settles (field : string) (h : Frame.row) :
  settled latest_df field (fill field h).
Proof.
  unfold settled, fill. destruct (Frame.mem field (Frame.columns latest_df)); [|auto].
  right. rewrite row_fill_spec.
  destruct (Frame.isna (Frame.get field h)) eqn:Hn; [|left; exact Hn].
  destruct (find _ (Frame.rows latest_df)) as [r|] eqn:Hf.
  - left. rewrite get_row_set_same. apply find_some in Hf. destruct Hf as [_ Hf].
    apply andb_true_iff in Hf. destruct Hf as [Hv _].
    unfold Frame.notna in Hv. apply negb_true_iff in Hv. exact Hv.
  - right. exact Hf.
Qed.

Lemma settled_fill_same (field : string) (h : Frame.row) :
  settled latest_df field h -> fill field h = h.
Proof.
  unfold settled, fill. intros [Hm|[Hn|Hf]].
  - rewrite Hm. reflexivity.
  - destruct (Frame.mem field (Frame.columns latest_df)); [|reflexivity].
    rewrite row_fill_spec, Hn. reflexivity.
  - destruct (Frame.mem field (Frame.columns latest_df)); [|reflexivity].
    rewrite row_fill_spec, Hf. destruct (Frame.isna (Frame.get field h)); reflexivity.
Qed.

Lemma settled_kept (field field' : string) (h : Frame.row) :
  field' <> "bond_code" ->
  settled latest_df field h -> settled latest_df field (fill field' h).
Proof.
  intros Hbc Hs. destruct (string_dec field field') as [->|Hne]; [apply fill_settles|].
  unfold settled in *.
  rewrite (fill_other field' field h Hne).
  rewrite (fill_other field' "bond_code" h) by congruence. exact Hs.
Qed.

Lemma fill_fields_settles (fields : list string) : forall done h,
  ~ In "bond_code" fields ->
  (forall f, In f done -> settled latest_df f h) ->
  forall f, In f (done ++ fields) -> settled latest_df f (row_fill_fields latest_df fields h).
Proof.
  unfold row_fill_fields.
  induction fields as [|f0 fields IH]; intros done h Hbc Hdone f Hin; simpl.
  - rewrite app_nil_r in Hin. apply Hdone. exact Hin.
  - change (if Frame.mem f0 (Frame.columns latest_df)
            then row_fill f0 (Frame.rows latest_df) h else h) with (fill f0 h).
    apply (IH (done ++ [f0])).
    + intros H. apply Hbc. right. exact H.
    + intros g Hg. apply in_app_or in Hg. destruct Hg as [Hg|[<-|[]]].
      * apply settled_kept; [|apply Hdone; exact Hg].
        intros ->. apply Hbc. left. reflexivity.
      * apply fill_settles.
    + rewrite <- app_assoc. exact Hin.
Qed.

Lemma settled_fill_fields (fields : list string) : forall h,
  (forall f, In f fields -> settled latest_df f h) ->
  row_fill_fields latest_df fields h = h.
Proof.
  unfold row_fill_fields.
  induction fields as [|f0 fields IH]; intros h Hs; simpl; [reflexivity|].
  change (if Frame.mem f0 (Frame.columns latest_df)
          then row_fill f0 (Frame.rows latest_df) h else h) with (fill f0 h).
  rewrite (settled_fill_same f0 h) by (apply Hs; left; reflexivity).
  apply IH. intros f Hf. apply Hs. right. exact Hf.
Qed.
End Settling.

(** X12.  The static-field backfill is idempotent: run again with the same
    snapshot on the history it produced, it returns that history
    unchanged. *)
Theorem static_backfill_idempotent
    (latest_df : Frame.DataFrame) (history out : list Frame.row)
    (Hrun : Archiver.static_backfill latest_df history = Frame.Ok out) :
  Archiver.static_backfill latest_df out = Frame.Ok out.
Proof.
  unfold Archiver.static_backfill in *.
  destruct (Frame.mem "bond_code" (Frame.columns latest_df)); [|discriminate].
  rewrite backfill_fields_rows in *.
  assert (Hout : out = map (row_fill_fields latest_df Archiver.backfill_fields) history)
    by congruence.
  subst out. clear Hrun. f_equal. rewrite map_map.
  apply map_ext. intros h.
  apply settled_fill_fields. intros f Hf.
  apply (fill_fields_settles latest_df Archiver.backfill_fields [] h).
  - apply bond_code_not_backfilled.
  - intros g [].
  - exact Hf.
Qed.

Lemma static_backfill_idempotent_witness :
  exists out,
    Archiver.static_backfill
      (Frame.mkDF ["bond_code"; "bond_rating"]
         [[("bond_code", Frame.Str "113001"); ("bond_rating", Frame.Str "AAA")]])
      [[("bond_code", Frame.Str "113001"); ("bond_rating", Frame.Null)]]
    = Frame.Ok out /\
    Archiver.static_backfill
      (Frame.mkDF ["bond_code"; "bond_rating"]
         [[("bond_code", Frame.Str "113001"); ("bond_rating", Frame.Str "AAA")]])
      out = Frame.Ok out.
Proof.
  eexists. split; [vm_compute; reflexivity|].
  apply (static_backfill_idempotent _
           [[("bond_code", Frame.Str "113001"); ("bond_rating", Frame.Null)]]).
  reflexivity.
Defined.

Lemma get_keyed (c : string) (f : string -> Frame.cell) (cols : list string) :
  Frame.get c (map (fun k => (k, f k)) cols) = if Frame.mem c cols then f c else Frame.Null.
Proof.
  unfold Frame.get, Frame.mem. induction cols as [|k cols IH]; simpl; [reflexivity|].
  rewrite (String.eqb_sym c k).
  destruct (String.eqb_spec k c) as [->|Hne]; simpl; [reflexivity|exact IH].
Qed.

Lemma existsb_filter_true {A : Type} (p f : A -> bool) (l : list A) :
  existsb p (filter f l) = true -> existsb p l = true.
Proof.
  rewrite !existsb_exists. intros [x [Hx Hp]]. apply filter_In in Hx. exists x. tauto.
Qed.

Lemma unique_keys_filter (f : Frame.row -> bool) (l : list Frame.row) :
  Persister.unique_keys l = true -> Persister.unique_keys (filter f l) = true.
Proof.
  induction l as [|r l IH]; simpl; [reflexivity|].
  intros H. apply andb_true_iff in H. destruct H as [Hr H].
  destruct (f r); simpl; [|apply IH; exact H].
  rewrite (IH H), andb_true_r. apply negb_true_iff in Hr. apply negb_true_iff.
  destruct (existsb (Persister.same_key r) (filter f l)) eqn:E; [|reflexivity].
  apply existsb_filter_true in E. congruence.
Qed.

Lemma append_rows_spec (new : list Frame.row) : forall stored out,
  Archiver.append_rows new stored = Frame.Ok out ->
  out = stored ++ new /\
  Forall (fun r => Persister.null_key r = false) new /\
  (Persister.unique_keys stored = true -> Persister.unique_keys out = true).
Proof.
  induction new as [|r new IH]; intros stored out H; simpl in H.
  - inversion H; subst. rewrite app_nil_r. auto.
  - destruct (Persister.null_key r) eqn:Hn; [discriminate|].
    destruct (existsb (Persister.same_key r) stored) eqn:Hx; [discriminate|].
    simpl in H. destruct (IH _ _ H) as [H1 [H2 H3]].
    split; [rewrite H1, <- app_assoc; reflexivity|]. split; [constructor; assumption|].
    intros Hu. apply H3. apply unique_keys_snoc; assumption.
Qed.

Lemma filter_app_all_false {A : Type} (f : A -> bool) (l l' : list A) :
  Forall (fun x => f x = false) l' ->
  filter f (filter f l ++ l') = filter f l.
Proof.
  intros H. rewrite filter_app.
  assert (E1 : filter f (filter f l) = filter f l).
  { induction l as [|a l IH]; simpl; [reflexivity|].
    destruct (f a) eqn:E; simpl; [rewrite E, IH; reflexivity|exact IH]. }
  assert (E2 : filter f l' = []).
  { induction H as [|a l' Ha _ IH]; simpl; [reflexivity|]. rewrite Ha. exact IH. }
  rewrite E1, E2. apply app_nil_r.
Qed.



Lemma existsb_same_key (a b : Frame.row) (l l' : list Frame.row) :
  Frame.get "trade_date" b = Frame.get "trade_date" a ->
  Frame.get "bond_code" b = Frame.get "bond_code" a ->
  Forall2 (fun x y => Frame.get "trade_date" y = Frame.get "trade_date" x /\
                      Frame.get "bond_code" y = Frame.get "bond_code" x) l l' ->
  existsb (Persister.same_key b) l' = existsb (Persister.same_key a) l.
Proof.
  intros Hd Hc H. induction H as [|x y l l' [Hx Hy] _ IH]; simpl; [reflexivity|].
  rewrite IH. unfold Persister.same_key. rewrite Hd, Hc, Hx, Hy. reflexivity.
Qed.

Lemma unique_keys_same_keys (l l' : list Frame.row) :
  Forall2 (fun x y => Frame.get "trade_date" y = Frame.get "trade_date" x /\
                      Frame.get "bond_code" y = Frame.get "bond_code" x) l l' ->
  Persister.unique_keys l' = Persister.unique_keys l.
Proof.
  intros H. induction H as [|x y l l' [Hx Hy] Hl IH]; simpl; [reflexivity|].
  rewrite IH, (existsb_same_key x y l l' Hx Hy Hl). reflexivity.
Qed.

Lemma static_backfill_keys (latest_df : Frame.DataFrame) (history out : list Frame.row) :
  Archiver.static_backfill latest_df history = Frame.Ok out ->
  Forall2 (fun x y => Frame.get "trade_date" y = Frame.get "trade_date" x /\
                      Frame.get "bond_code" y = Frame.get "bond_code" x) history out.
Proof.
  unfold Archiver.static_backfill.
  destruct (Frame.mem "bond_code" (Frame.columns latest_df)); [|discriminate].
  intros H.
  match type of H with Frame.Ok ?x = _ => assert (Hout : out = x) by congruence end.
  subst out. clear H.
  eapply Forall2_impl; [|apply backfill_fields_backfilled;
                         [apply incl_refl|apply Forall2_refl; apply backfilled_refl]].
  intros a b Hab. split.
  - apply (Hab "trade_date"). simpl. intuition discriminate.
  - apply (Hab "bond_code"). simpl. intuition discriminate.
Qed.

(** X14.  The transaction that archives the snapshot and backfills the
    static fields keeps the key of the history table: when no two rows
    shared a [(trade_date, bond_code)] before it, none do after it, whether
    it ends normally, is skipped for an empty snapshot, or is rolled back. *)
Theorem archive_and_backfill_keeps_keys_unique
    (default : string -> Frame.cell) (latest_df : Frame.DataFrame)
    (latest_trade_date : Frame.cell) (t : Persister.Table)
    (Hunique : Persister.unique_keys (Persister.t_rows t) = true) :
  Persister.unique_keys
    (Archiver.archive_and_backfill default latest_df latest_trade_date t) = true.
Proof.
  unfold Archiver.archive_and_backfill.
  destruct (Frame.empty latest_df); [exact Hunique|].
  destruct (Archiver.archive_rows default latest_df latest_trade_date t) as [rows1|] eqn:Ea;
    cbn [Frame.bind]; [|exact Hunique].
  destruct (Archiver.static_backfill _ rows1) as [out|] eqn:Eb; [|exact Hunique].
  rewrite (unique_keys_same_keys _ _ (static_backfill_keys _ _ _ Eb)).
  unfold Archiver.archive_rows in Ea.
  destruct (append_rows_spec _ _ _ Ea) as [_ [_ Hu]].
  apply Hu. apply unique_keys_filter. exact Hunique.
Qed.

Lemma archive_and_backfill_keeps_keys_unique_witness :
  Persister.unique_keys
    (Archiver.archive_and_backfill (fun _ => Frame.Null)
       (Frame.mkDF ["bond_code"; "bond_rating"]
          [[("bond_code", Frame.Str "113001"); ("bond_rating", Frame.Str "AA")]])
       (Frame.Str "2024-01-03")
       (Persister.mkTable ["trade_date"; "bond_code"; "bond_rating"]
          [[("trade_date", Frame.Str "2024-01-02"); ("bond_code", Frame.Str "113001");
            ("bond_rating", Frame.Null)]])) = true.
Proof.
  apply archive_and_backfill_keeps_keys_unique. reflexivity.
Defined.

Lemma cell_eqb_trans (a b c : Frame.cell) :
  Frame.cell_eqb a b = true -> Frame.cell_eqb b c = true -> Frame.cell_eqb a c = true.
Proof.
  destruct a, b, c; simpl; try congruence.
  - apply Qeq_bool_trans.
  - intros H1 H2. apply String.eqb_eq in H1, H2. subst. apply String.eqb_refl.
Qed.

Lemma drop_duplicates_in (c : string) (rs : list Frame.row) : forall seen r,
  In r (Archiver.drop_duplicates_from c seen rs) ->
  In r rs /\ existsb (Frame.cell_eqb (Frame.get c r)) seen = false.
Proof.
  induction rs as [|r0 rs IH]; intros seen r Hin; simpl in Hin; [destruct Hin|].
  destruct (existsb (Frame.cell_eqb (Frame.get c r0)) seen) eqn:E.
  - destruct (IH _ _ Hin) as [H1 H2]. split; [right; exact H1|exact H2].
  - destruct Hin as [<-|Hin]; [split; [left; reflexivity|exact E]|].
    destruct (IH _ _ Hin) as [H1 H2]. split; [right; exact H1|].
    simpl in H2. apply orb_false_iff in H2. tauto.
Qed.

Lemma drop_duplicates_distinct (c : string) (rs : list Frame.row) : forall seen,
  distinct_on c (Archiver.drop_duplicates_from c seen rs) = true.
Proof.
  induction rs as [|r0 rs IH]; intros seen; simpl; [reflexivity|].
  destruct (existsb (Frame.cell_eqb (Frame.get c r0)) seen); [apply IH|].
  simpl. rewrite IH, andb_true_r. apply negb_true_iff.
  destruct (existsb _ (Archiver.drop_duplicates_from c (Frame.get c r0 :: seen) rs)) eqn:E;
    [|reflexivity].
  apply existsb_exists in E. destruct E as [r [Hin Heq]].
  apply drop_duplicates_in in Hin. destruct Hin as [_ Hn].
  simpl in Hn. apply orb_false_iff in Hn. destruct Hn as [Hn _].
  rewrite cell_eqb_sym in Hn. congruence.
Qed.

Lemma drop_duplicates_first (c : string) (rs : list Frame.row) : forall seen r,
  In r (Archiver.drop_duplicates_from c seen rs) ->
  find (fun x => Frame.cell_eqb (Frame.get c x) (Frame.get c r)) rs = Some r.
Proof.
  induction rs as [|r0 rs IH]; intros seen r Hin; simpl in Hin; [destruct Hin|].
  simpl. destruct (existsb (Frame.cell_eqb (Frame.get c r0)) seen) eqn:E.
  - destruct (drop_duplicates_in _ _ _ _ Hin) as [_ Hn].
    destruct (Frame.cell_eqb (Frame.get c r0) (Frame.get c r)) eqn:E0; [|eapply IH; exact Hin].
    exfalso. apply existsb_exists in E. destruct E as [k [Hk Hek]].
    assert (Hx : existsb (Frame.cell_eqb (Frame.get c r)) seen = true).
    { apply existsb_exists. exists k. split; [exact Hk|].
      eapply cell_eqb_trans; [|exact Hek]. rewrite cell_eqb_sym. exact E0. }
    congruence.
  - destruct Hin as [<-|Hin]; [rewrite cell_eqb_refl; reflexivity|].
    destruct (drop_duplicates_in _ _ _ _ Hin) as [_ Hn].
    simpl in Hn. apply orb_false_iff in Hn. destruct Hn as [Hn _].
    rewrite cell_eqb_sym, Hn. eapply IH. exact Hin.
Qed.

Lemma drop_duplicates_complete (c : string) (rs : list Frame.row) : forall seen r,
  In r rs ->
  existsb (Frame.cell_eqb (Frame.get c r)) seen = true \/
  existsb (fun r' => Frame.cell_eqb (Frame.get c r) (Frame.get c r'))
          (Archiver.drop_duplicates_from c seen rs) = true.
Proof.
  induction rs as [|r0 rs IH]; intros seen r Hin; [destruct Hin|]. simpl.
  destruct (existsb (Frame.cell_eqb (Frame.get c r0)) seen) eqn:E.
  - destruct Hin as [<-|Hin]; [left; exact E|apply IH; exact Hin].
  - simpl. destruct Hin as [<-|Hin]; [right; rewrite cell_eqb_refl; reflexivity|].
    destruct (IH (Frame.get c r0 :: seen) r Hin) as [H|H].
    + simpl in H. apply orb_true_iff in H. destruct H as [H|H];
        [right; rewrite H; reflexivity|left; exact H].
    + right. rewrite H. apply orb_true_r.
Qed.

Lemma find_map {A B : Type} (p : B -> bool) (f : A -> B) (l : list A) :
  find p (map f l) = option_map f (find (fun a => p (f a)) l).
Proof.
  induction l as [|a l IH]; simpl; [reflexivity|].
  destruct (p (f a)); [reflexivity|exact IH].
Qed.

Lemma find_pointwise {A : Type} (p q : A -> bool) (l : list A) :
  (forall a, p a = q a) -> find p l = find q l.
Proof.
  intros H. induction l as [|a l IH]; simpl; [reflexivity|].
  rewrite H, IH. reflexivity.
Qed.

(** X15.  When [_save_bond_info] replaces the identity table, the new table
    has the four identity columns, no two of its rows share a bond code,
    every bond code of the input is in it, and the row it holds for a code is
    the identity of the first input row with that code.  For an input without
    rows, or without one of the four columns, it leaves the table alone. *)
Theorem save_bond_info_first_per_code (bond_list : Frame.DataFrame) :
  (forall t, Archiver._save_bond_info bond_list = Some t ->
     Persister.t_columns t = ["bond_code"; "bond_name"; "stock_code"; "stock_name"] /\
     distinct_on "bond_code" (Persister.t_rows t) = true /\
     (List.length (Persister.t_rows t) <= List.length (Frame.rows bond_list))%nat /\
     (forall r, In r (Frame.rows bond_list) ->
        exists r', In r' (Persister.t_rows t) /\
          Frame.cell_eqb (Frame.get "bond_code" r) (Frame.get "bond_code" r') = true) /\
     (forall r', In r' (Persister.t_rows t) ->
        exists r, find (fun x => Frame.cell_eqb (Frame.get "bond_code" x)
                                   (Frame.get "bond_code" r'))
                       (Frame.rows bond_list) = Some r /\
                  r' = identity_of r)) /\
  (Frame.empty bond_list = true -> Archiver._save_bond_info bond_list = None) /\
  (forall c, In c Archiver.info_columns -> Frame.mem c (Frame.columns bond_list) = false ->
     Archiver._save_bond_info bond_list = None).
Proof.
  unfold Archiver._save_bond_info.
  assert (Hbc : forall r, Frame.get "bond_code" (identity_of r) = Frame.get "bond_code" r).
  { intros r. unfold identity_of. apply get_selected. simpl. tauto. }
  split; [|split].
  - intros t Ht. destruct (Frame.empty bond_list); [discriminate|].
    destruct (_ && _); [|discriminate].
    inversion Ht; subst t. clear Ht. cbn [Persister.t_columns Persister.t_rows].
    unfold Pipeline.select_columns. cbn [Frame.rows].
    change (map (fun r => map (fun c => (c, Frame.get c r)) Archiver.info_columns)
                (Frame.rows bond_list))
      with (map identity_of (Frame.rows bond_list)).
    set (sel := map identity_of (Frame.rows bond_list)).
    split; [reflexivity|]. split; [apply drop_duplicates_distinct|]. split; [|split].
    + unfold Archiver.drop_duplicates.
      assert (Hl : forall seen l,
                (List.length (Archiver.drop_duplicates_from "bond_code" seen l)
                 <= List.length l)%nat).
      { intros seen l. revert seen. induction l as [|a l IH]; intros seen; simpl; [lia|].
        destruct (existsb _ seen); simpl; [specialize (IH seen)|
                                           specialize (IH (Frame.get "bond_code" a :: seen))];
          lia. }
      specialize (Hl [] sel). unfold sel in Hl at 2. rewrite length_map in Hl. exact Hl.
    + intros r Hin.
      destruct (drop_duplicates_complete "bond_code" sel [] (identity_of r)) as [H|H].
      * unfold sel. apply in_map. exact Hin.
      * discriminate.
      * apply existsb_exists in H. destruct H as [r' [Hr' He]].
        exists r'. split; [exact Hr'|]. rewrite <- (Hbc r). exact He.
    + intros r' Hin. unfold Archiver.drop_duplicates in Hin.
      apply drop_duplicates_first in Hin. unfold sel in Hin. rewrite find_map in Hin.
      destruct (find _ (Frame.rows bond_list)) as [r|] eqn:Ef; [|discriminate].
      simpl in Hin. inversion Hin as [Hr']. exists r. split; [|reflexivity].
      rewrite <- Ef. apply find_pointwise. intros x. cbv beta.
      rewrite ?Hbc. subst r'. rewrite ?Hbc. reflexivity.
  - intros He. rewrite He. reflexivity.
  - intros c Hin Hm. destruct (Frame.empty bond_list); [reflexivity|].
    assert (Hf : forallb (fun c => Frame.mem c (Frame.columns bond_list)) Archiver.info_columns
                 = false).
    { destruct (forallb _ Archiver.info_columns) eqn:E; [|reflexivity].
      rewrite forallb_forall in E. rewrite (E c Hin) in Hm. discriminate. }
    rewrite Hf. reflexivity.
Qed.

(* ================================================================== *)
(** * Further properties of the quality scores *)
(* ================================================================== *)

Local Open Scope Q_scope.

Lemma weight_positive (field : string) (w : Q) :
  Quality.weight_of field Quality.weights = Some w -> 0 < w.
Proof.
  assert (Hin : forall ws, Quality.weight_of field ws = Some w -> In w (map snd ws)).
  { induction ws as [|[k v] ws IH]; simpl; [discriminate|].
    destruct (String.eqb k field); [intros H; inversion H; auto|auto]. }
  intros H. apply Hin in H. simpl in H.
  repeat (destruct H as [<-|H]; [reflexivity|]). destruct H.
Qed.

Lemma missing_rate_step (total count : Z) (w acc : Q) :
  (0 < total)%Z -> (0 <= count)%Z -> 0 < w -> 0 <= acc ->
  0 <= acc + (inject_Z count / inject_Z total) * w.
Proof.
  intros Ht Hc Hw Ha.
  assert (H1 : 0 <= inject_Z count) by (unfold Qle, inject_Z; simpl; lia).
  assert (H2 : 0 < inject_Z total) by (unfold Qlt, inject_Z; simpl; lia).
  assert (H3 : 0 <= inject_Z count / inject_Z total).
  { apply Qle_shift_div_l; [exact H2|]. rewrite Qmult_0_l. exact H1. }
  assert (H4 : 0 <= (inject_Z count / inject_Z total) * w).
  { apply Qmult_le_0_compat; [exact H3|apply Qlt_le_weak; exact Hw]. }
  lra.
Qed.

Lemma missing_rate_nonneg (total : Z) (missing : list (string * Z)) :
  (0 < total)%Z ->
  Forall (fun fd => (0 <= snd fd)%Z) missing ->
  0 <= Quality.total_weighted_missing_rate total missing.
Proof.
  intros Ht. unfold Quality.total_weighted_missing_rate.
  assert (Hgen : forall acc, 0 <= acc ->
            Forall (fun fd => (0 <= snd fd)%Z) missing ->
            0 <= fold_left
                   (fun acc fd =>
                      match Quality.weight_of (fst fd) Quality.weights with
                      | Some w => acc + (inject_Z (snd fd) / inject_Z total) * w
                      | None => acc
                      end) missing acc).
  { induction missing as [|fd missing IH]; intros acc Ha Hall; cbn [fold_left]; [exact Ha|].
    inversion Hall as [|? ? Hfd Hrest]; subst.
    apply IH; [|exact Hrest].
    destruct (Quality.weight_of (fst fd) Quality.weights) as [w|] eqn:Ew; [|exact Ha].
    apply missing_rate_step; auto. eapply weight_positive. exact Ew. }
  apply Hgen. lra.
Qed.

Lemma max0_range (x : Q) : x <= 100 # 1 -> 0 <= Quality.max0 x /\ Quality.max0 x <= 100 # 1.
Proof.
  intros Hx. unfold Quality.max0. destruct (Qle_bool x 0) eqn:E.
  - split; lra.
  - assert (~ x <= 0) by (intros H; apply Qle_bool_iff in H; congruence).
    split; lra.
Qed.

Lemma quality_score_range (total : Z) (missing : list (string * Z)) :
  (0 <= total)%Z ->
  Forall (fun fd => (0 <= snd fd)%Z) missing ->
  0 <= Quality._calculate_quality_score total missing /\
  Quality._calculate_quality_score total missing <= 100 # 1.
Proof.
  intros Ht Hall. unfold Quality._calculate_quality_score.
  destruct (Z.eqb_spec total 0) as [->|Hne]; [split; lra|].
  apply max0_range.
  pose proof (missing_rate_nonneg total missing ltac:(lia) Hall) as Hr. lra.
Qed.

Lemma freshness_range (days_since : string -> option Z) (latest : option string) :
  (0 <= Quality.freshness_score_of (Quality.validate_data_freshness days_since latest) <= 100)%Z.
Proof.
  unfold Quality.validate_data_freshness.
  destruct latest as [s|]; [|simpl; lia].
  destruct (String.eqb s ""); [simpl; lia|].
  destruct (days_since s) as [d|]; [|simpl; lia].
  simpl. unfold Quality.freshness_score.
  repeat match goal with
         | |- context [(?a <=? ?b)%Z] => destruct (Z.leb_spec a b)
         end; lia.
Qed.

(** X16.  With null counts that are not negative, the completeness score of
    [_calculate_quality_score] lies between 0 and 100; it is 0 for a table
    without rows; fields outside the five weighted ones do not enter it; and
    it is 100 when none of the weighted fields has a null. *)
Theorem quality_score_bounds
    (total_records : Z) (missing_data : list (string * Z))
    (Htotal : (0 <= total_records)%Z)
    (Hcounts : Forall (fun fd => (0 <= snd fd)%Z) missing_data) :
  0 <= Quality._calculate_quality_score total_records missing_data /\
  Quality._calculate_quality_score total_records missing_data <= 100 # 1 /\
  Quality._calculate_quality_score 0 missing_data = 0 /\
  Quality._calculate_quality_score total_records
    (filter (fun fd => match Quality.weight_of (fst fd) Quality.weights with
                       | Some _ => true
                       | None => false
                       end) missing_data)
  = Quality._calculate_quality_score total_records missing_data /\
  ((0 < total_records)%Z ->
   Forall (fun fd => Quality.weight_of (fst fd) Quality.weights <> None -> snd fd = 0%Z)
          missing_data ->
   Quality._calculate_quality_score total_records missing_data == 100 # 1).
Proof.
  destruct (quality_score_range total_records missing_data Htotal Hcounts) as [H0 H100].
  split; [exact H0|]. split; [exact H100|]. split; [reflexivity|]. split.
  - unfold Quality._calculate_quality_score, Quality.total_weighted_missing_rate.
    destruct (total_records =? 0)%Z; [reflexivity|]. f_equal. f_equal. f_equal.
    clear Hcounts H0 H100.
    generalize 0 as acc. induction missing_data as [|fd l IH]; intros acc;
      cbn [fold_left filter]; [reflexivity|].
    destruct (Quality.weight_of (fst fd) Quality.weights) eqn:Ew; cbn [fold_left].
    + rewrite Ew. apply IH.
    + apply IH.
  - intros Hpos Hzero. unfold Quality._calculate_quality_score.
    destruct (Z.eqb_spec total_records 0) as [->|_]; [lia|].
    assert (Hr : Quality.total_weighted_missing_rate total_records missing_data == 0).
    { unfold Quality.total_weighted_missing_rate.
      assert (Hgen : forall acc, acc == 0 ->
                fold_left
                  (fun acc fd =>
                     match Quality.weight_of (fst fd) Quality.weights with
                     | Some w => acc + (inject_Z (snd fd) / inject_Z total_records) * w
                     | None => acc
                     end) missing_data acc == 0).
      { clear Hcounts H0 H100. induction Hzero as [|fd l Hfd _ IH]; intros acc Ha;
          cbn [fold_left]; [exact Ha|].
        apply IH. destruct (Quality.weight_of (fst fd) Quality.weights) as [w|] eqn:Ew;
          [|exact Ha].
        rewrite Hfd by congruence. rewrite Ha. unfold Qdiv. change (inject_Z 0) with 0.
        ring. }
      apply Hgen. reflexivity. }
    unfold Quality.max0.
    destruct (Qle_bool _ 0) eqn:E.
    + apply Qle_bool_iff in E. rewrite Hr in E. lra.
    + rewrite Hr. ring.
Qed.

Lemma quality_score_bounds_witness :
  0 <= Quality._calculate_quality_score 200 [("price", 20%Z); ("bond_name", 150%Z)] /\
  Quality._calculate_quality_score 200 [("price", 20%Z); ("bond_name", 150%Z)] <= 100 # 1.
Proof.
  assert (Ht : (0 <= 200)%Z) by lia.
  assert (Hc : Forall (fun fd : string * Z => (0 <= snd fd)%Z)
                 [("price", 20%Z); ("bond_name", 150%Z)]).
  { repeat constructor; simpl; lia. }
  destruct (quality_score_bounds 200 [("price", 20%Z); ("bond_name", 150%Z)] Ht Hc)
    as [H1 [H2 _]].
  split; [exact H1|exact H2].
Defined.

(** X17.  With counts that are not negative, the overall score of
    [generate_quality_report], half completeness and half freshness, lies
    between 0 and 100, whatever the latest stored date is and whether or not
    the counting queries succeed; it is at most 50 when the table has no rows
    or cannot be counted, and at most 50 when no date is stored. *)
Theorem overall_score_bounds
    (days_since : string -> option Z) (counted : option Z)
    (missing_data : list (string * Z)) (latest : option string)
    (Htotal : forall total_records, counted = Some total_records -> (0 <= total_records)%Z)
    (Hcounts : Forall (fun fd => (0 <= snd fd)%Z) missing_data) :
  let score := Quality.generate_quality_report days_since counted missing_data latest in
  0 <= score /\ score <= 100 # 1 /\
  (counted = None \/ counted = Some 0%Z -> score <= 50 # 1) /\
  (latest = None -> score <= 50 # 1).
Proof.
  intros score. subst score.
  unfold Quality.generate_quality_report, Quality.overall_score.
  pose proof (freshness_range days_since latest) as [F0 F100].
  assert (Hc : 0 <= Quality.validate_data_completeness counted missing_data /\
               Quality.validate_data_completeness counted missing_data <= 100 # 1).
  { unfold Quality.validate_data_completeness. destruct counted as [t|]; [|split; lra].
    apply quality_score_range; [apply Htotal; reflexivity|exact Hcounts]. }
  destruct Hc as [H0 H100].
  assert (Hzero : counted = None \/ counted = Some 0%Z ->
                  Quality.validate_data_completeness counted missing_data = 0).
  { intros [->| ->]; reflexivity. }
  assert (Hnone : latest = None ->
            Quality.freshness_score_of (Quality.validate_data_freshness days_since latest)
            = 0%Z).
  { intros ->. reflexivity. }
  set (f := Quality.freshness_score_of _) in *.
  set (c := Quality.validate_data_completeness _ _) in *.
  assert (Q0 : 0 <= inject_Z f) by (unfold Qle, inject_Z; simpl; lia).
  assert (Q100 : inject_Z f <= 100 # 1) by (unfold Qle, inject_Z; simpl; lia).
  split; [lra|]. split; [lra|]. split.
  - intros Hz. rewrite (Hzero Hz). lra.
  - intros Hl. rewrite (Hnone Hl). change (inject_Z 0) with 0. lra.
Qed.

Lemma overall_score_bounds_witness :
  0 <= Quality.generate_quality_report (fun _ => Some 10%Z) (Some 200%Z) [("price", 20%Z)]
         (Some "2024-01-02") /\
  Quality.generate_quality_report (fun _ => Some 10%Z) (Some 200%Z) [("price", 20%Z)]
    (Some "2024-01-02") <= 100 # 1.
Proof.
  assert (Ht : forall t, Some 200%Z = Some t -> (0 <= t)%Z).
  { intros t H. inversion H. lia. }
  assert (Hc : Forall (fun fd : string * Z => (0 <= snd fd)%Z) [("price", 20%Z)]).
  { repeat constructor; simpl; lia. }
  destruct (overall_score_bounds (fun _ => Some 10%Z) (Some 200%Z) [("price", 20%Z)]
              (Some "2024-01-02") Ht Hc) as [H1 [H2 _]].
  split; [exact H1|exact H2].
Defined.

Local Close Scope Q_scope.

(* ================================================================== *)
(** * Further properties of the value and stock history *)
(* ================================================================== *)

(** X18.  [_clean_value_analysis_data] hands an empty table back as it is.
    For a table with rows it keeps the renamed columns and the number of
    rows, leaves no text in a numeric column ([price_val], [pure_bond_value],
    [conv_value], [pure_bond_premium_rate], [premium_rate]), and does not
    touch any column other than these and the date. *)
Theorem clean_value_analysis_frame
    (parse : string -> option Q) (to_date : Frame.cell -> option Frame.cell)
    (df out : Frame.DataFrame)
    (Hclean : Pipeline._clean_value_analysis_data parse to_date df = Frame.Ok out) :
  let renamed := Frame.rename Pipeline.value_column_mapping df in
  (Frame.empty df = true -> out = df) /\
  (Frame.empty df = false ->
     Frame.columns out = Frame.columns renamed /\
     List.length (Frame.rows out) = List.length (Frame.rows df) /\
     (forall c, In c Pipeline.value_numeric_cols -> Frame.mem c (Frame.columns out) = true ->
                numeric (Frame.column c out) = true) /\
     (forall c, ~ In c Pipeline.value_numeric_cols -> c <> "trade_date" ->
                Frame.column c out = Frame.column c renamed)).
Proof.
  intros renamed. unfold Pipeline._clean_value_analysis_data in Hclean.
  destruct (Frame.empty df).
  - split; [intros _; congruence|discriminate].
  - split; [discriminate|]. intros _. fold renamed in Hclean.
    destruct (Pipeline.coerce_numeric_cols parse Pipeline.value_numeric_cols renamed)
      as [df1|] eqn:E; [|discriminate].
    cbn [Frame.bind] in Hclean.
    destruct (coerce_numeric_cols_numeric parse _ _ _ E) as [E1 [E2 [E3 [_ E5]]]].
    destruct (format_dates_frame to_date _ _ Hclean) as [F1 [F2 F3]].
    split; [congruence|]. split.
    + rewrite F2, E2. unfold renamed. cbn [Frame.rename Frame.rows]. apply length_map.
    + split.
      * intros c Hin Hm. rewrite F3 by (intros ->; simpl in Hin; intuition discriminate).
        apply E5; [exact Hin|congruence].
      * intros c Hn Hd. rewrite F3 by exact Hd. apply E3. exact Hn.
Qed.

Lemma clean_value_analysis_frame_witness :
  exists out,
    Pipeline._clean_value_analysis_data (fun _ => None) Some
      (Frame.mkDF ["日期"; "纯债价值"; "备注"]
         [[("日期", Frame.Str "2024-01-02"); ("纯债价值", Frame.Str "n/a");
           ("备注", Frame.Str "x")]])
    = Frame.Ok out /\
    Frame.columns out = ["trade_date"; "pure_bond_value"; "备注"] /\
    numeric (Frame.column "pure_bond_value" out) = true.
Proof.
  eexists. split; [vm_compute; reflexivity|].
  destruct (proj2 (clean_value_analysis_frame (fun _ => None) Some
                     (Frame.mkDF ["日期"; "纯债价值"; "备注"]
                        [[("日期", Frame.Str "2024-01-02"); ("纯债价值", Frame.Str "n/a");
                          ("备注", Frame.Str "x")]]) _ eq_refl) eq_refl)
    as [Hc [_ [Hnum _]]].
  split; [exact Hc|]. apply Hnum; [simpl; tauto|reflexivity].
Defined.


(* ================================================================== *)
(** * Further properties of the dashboard queries *)
(* ================================================================== *)

(** X20.  The clause [build_where_conditions] builds has exactly as many
    place holders as the parameter list has entries; it is one of four fixed
    texts, so that no text of a filter ever becomes part of the statement; it
    is [1=1] exactly when neither filter is set; and every parameter is the
    date filter or the name filter between two percent signs. *)
Theorem build_where_conditions_binds_parameters (date bond_name : option string) :
  let r := Dashboard.build_where_conditions date bond_name in
  Dashboard.placeholders (fst r) = List.length (snd r) /\
  In (fst r)
     [ "1=1"; "trade_date = ?"; "(bond_name LIKE ? OR bond_code LIKE ?)";
       "trade_date = ? AND (bond_name LIKE ? OR bond_code LIKE ?)" ] /\
  (fst r = "1=1" <->
   Dashboard.truthy date = None /\ Dashboard.truthy bond_name = None) /\
  (snd r = [] <-> fst r = "1=1") /\
  Forall (fun p => date = Some p \/
                   exists n, bond_name = Some n /\ p = ("%" ++ n ++ "%")%string)
         (snd r).
Proof.
  intros r. subst r. unfold Dashboard.build_where_conditions.
  assert (Hd : forall d, Dashboard.truthy date = Some d -> date = Some d).
  { unfold Dashboard.truthy. destruct date as [x|]; [destruct (String.eqb x "")|];
      congruence. }
  assert (Hn : forall n, Dashboard.truthy bond_name = Some n -> bond_name = Some n).
  { unfold Dashboard.truthy. destruct bond_name as [x|]; [destruct (String.eqb x "")|];
      congruence. }
  destruct (Dashboard.truthy date) as [d|] eqn:Ed;
    destruct (Dashboard.truthy bond_name) as [n|] eqn:En;
    cbn [fst snd app Dashboard.join_and].
  - split; [reflexivity|]. split; [simpl; tauto|].
    split; [split; [discriminate|intros [H _]; discriminate]|].
    split; [split; discriminate|].
    apply Forall_cons; [left; auto|].
    apply Forall_cons; [right; eauto|]. apply Forall_cons; [right; eauto|apply Forall_nil].
  - split; [reflexivity|]. split; [simpl; tauto|].
    split; [split; [discriminate|intros [H _]; discriminate]|].
    split; [split; discriminate|].
    apply Forall_cons; [left; auto|apply Forall_nil].
  - split; [reflexivity|]. split; [simpl; tauto|].
    split; [split; [discriminate|intros [_ H]; discriminate]|].
    split; [split; discriminate|].
    apply Forall_cons; [right; eauto|]. apply Forall_cons; [right; eauto|apply Forall_nil].
  - split; [reflexivity|]. split; [simpl; tauto|].
    split; [split; auto|]. split; [split; auto|]. constructor.
Qed.
